(** * LightUpPi-Alarm: alarm records, next-alert computation, storage edits
      and the alarm-thread manager

    A shallow embedding of [LightUpAlarm/AlarmItem.py], of the alarm part of
    [LightUpAlarm/AlarmDb.py] and of the thread bookkeeping of
    [LightUpAlarm/AlarmManager.py], with the properties of the design
    document stated over it. *)

From Stdlib Require Import ZArith Lia List String Ascii Bool DecimalString.
From stdpp Require Import base list.
Import ListNotations.

Local Open Scope string_scope.
Local Open Scope list_scope.
Local Open Scope Z_scope.

(** ** Python values

    The accessors of [AlarmItem] sanitise whatever object the caller hands
    them, so arguments are dynamically typed values. *)

#[warnings="-register-all"]
Inductive pyval : Type :=
| PyNone
| PyBool (b : bool)
| PyInt (n : Z)
| PyStr (s : string)
| PyTuple (items : list pyval).

Inductive exn : Type := IndexError | TypeError | AttributeError.

(** What a call does: it returns, it raises, or the model's loop budget is
    used up (the Python loop would still be running). *)
Inductive outcome (A : Type) : Type :=
| Returned (a : A)
| Raised (e : exn)
| OutOfFuel.
Arguments Returned {A} a.
Arguments Raised {A} e.
Arguments OutOfFuel {A}.

(** Python's [==]: a bool is an int (True == 1, False == 0), sequences
    compare item by item, values of unrelated types are different. *)
Fixpoint py_eq (x y : pyval) : bool :=
  match x, y with
  | PyNone, PyNone => true
  | PyBool a, PyBool b => Bool.eqb a b
  | PyBool a, PyInt n => Z.b2z a =? n
  | PyInt n, PyBool a => n =? Z.b2z a
  | PyInt m, PyInt n => m =? n
  | PyStr s, PyStr t => String.eqb s t
  | PyTuple l, PyTuple k =>
      (fix items_eq (l k : list pyval) {struct l} : bool :=
         match l, k with
         | [], [] => true
         | a :: l', b :: k' => py_eq a b && items_eq l' k'
         | _, _ => false
         end) l k
  | _, _ => false
  end.

Definition py_ne (x y : pyval) : bool := negb (py_eq x y).

Definition is_none (v : pyval) : bool :=
  match v with PyNone => true | _ => false end.

(** Modelled from the spec: [Py23Compatibility] ([int_type], [bool_type]) is
    not among the sources. The record's "integer" and "boolean" are taken as
    Python's [int] and [bool]; a bool is an instance of [int] as well. *)
Definition isinstance_int (v : pyval) : bool :=
  match v with PyInt _ | PyBool _ => true | _ => false end.

Definition isinstance_bool (v : pyval) : bool :=
  match v with PyBool _ => true | _ => false end.

(** The number an int-typed value computes and compares as. *)
Definition int_value (v : pyval) : Z :=
  match v with PyInt n => n | PyBool b => Z.b2z b | _ => 0 end.

Definition bool_value (v : pyval) : bool :=
  match v with PyBool b => b | _ => false end.

(** [len(v)] and the items iteration yields; [None] where Python raises
    [TypeError] because the object has no length. *)
Definition py_items (v : pyval) : option (list pyval) :=
  match v with
  | PyTuple l => Some l
  | PyStr s => Some (map (fun c => PyStr (String c EmptyString)) (list_ascii_of_string s))
  | _ => None
  end.

(** Decimal rendering of an integer, as [%d] and [str] print it. *)
Definition show_int (n : Z) : string := NilZero.string_of_int (Z.to_int n).

(** [%+d]: the sign is always printed. *)
Definition show_signed (n : Z) : string :=
  if 0 <=? n then String.append "+" (show_int n) else show_int n.

(** [str(v)] for the scalar values; a sequence is printed in Python 3's
    tuple notation with the items' [str] (quotes of nested strings are not
    reproduced; no property below depends on them). *)
Fixpoint py_str (v : pyval) : string :=
  match v with
  | PyNone => "None"
  | PyBool true => "True"
  | PyBool false => "False"
  | PyInt n => show_int n
  | PyStr s => s
  | PyTuple l =>
      String.append "("
        (String.append
           ((fix join (l : list pyval) : string :=
               match l with
               | [] => ""
               | [a] => String.append (py_str a) ","
               | a :: ((_ :: _) as l') =>
                   String.append (py_str a) (String.append ", " (join l'))
               end) l) ")")
  end.

(** Indexing a tuple with an integer: negative indices count from the end,
    anything outside raises [IndexError] (here [None]). *)
Definition tuple_index {A : Type} (t : list A) (i : Z) : option A :=
  let n := Z.of_nat (length t) in
  if (0 <=? i) && (i <? n) then t !! Z.to_nat i
  else if (- n <=? i) && (i <? 0) then t !! Z.to_nat (n + i)
  else None.

(** ** AlarmItem *)

Record AlarmItem : Type := mkAlarmItem {
  id_ : option Z;
  hour : Z;
  minute : Z;
  monday : bool;
  tuesday : bool;
  wednesday : bool;
  thursday : bool;
  friday : bool;
  saturday : bool;
  sunday : bool;
  enabled : bool;
  label : string;
  timestamp : option Z;
  station_id : option Z
}.

(** The tuple [__get_repeat] builds from the seven entries of [__repeat]. *)
Definition get_repeat (a : AlarmItem) : list bool :=
  [monday a; tuesday a; wednesday a; thursday a; friday a; saturday a; sunday a].

Definition with_id (v : option Z) (a : AlarmItem) : AlarmItem :=
  mkAlarmItem v (hour a) (minute a) (monday a) (tuesday a) (wednesday a)
    (thursday a) (friday a) (saturday a) (sunday a) (enabled a) (label a)
    (timestamp a) (station_id a).

Definition with_hour (v : Z) (a : AlarmItem) : AlarmItem :=
  mkAlarmItem (id_ a) v (minute a) (monday a) (tuesday a) (wednesday a)
    (thursday a) (friday a) (saturday a) (sunday a) (enabled a) (label a)
    (timestamp a) (station_id a).

Definition with_minute (v : Z) (a : AlarmItem) : AlarmItem :=
  mkAlarmItem (id_ a) (hour a) v (monday a) (tuesday a) (wednesday a)
    (thursday a) (friday a) (saturday a) (sunday a) (enabled a) (label a)
    (timestamp a) (station_id a).

Definition with_days (mo tu we th fr sa su : bool) (a : AlarmItem) : AlarmItem :=
  mkAlarmItem (id_ a) (hour a) (minute a) mo tu we th fr sa su (enabled a)
    (label a) (timestamp a) (station_id a).

Definition with_enabled (v : bool) (a : AlarmItem) : AlarmItem :=
  mkAlarmItem (id_ a) (hour a) (minute a) (monday a) (tuesday a) (wednesday a)
    (thursday a) (friday a) (saturday a) (sunday a) v (label a)
    (timestamp a) (station_id a).

Definition with_label (v : string) (a : AlarmItem) : AlarmItem :=
  mkAlarmItem (id_ a) (hour a) (minute a) (monday a) (tuesday a) (wednesday a)
    (thursday a) (friday a) (saturday a) (sunday a) (enabled a) v
    (timestamp a) (station_id a).

Definition with_timestamp (v : option Z) (a : AlarmItem) : AlarmItem :=
  mkAlarmItem (id_ a) (hour a) (minute a) (monday a) (tuesday a) (wednesday a)
    (thursday a) (friday a) (saturday a) (sunday a) (enabled a) (label a)
    v (station_id a).

Definition with_station_id (v : option Z) (a : AlarmItem) : AlarmItem :=
  mkAlarmItem (id_ a) (hour a) (minute a) (monday a) (tuesday a) (wednesday a)
    (thursday a) (friday a) (saturday a) (sunday a) (enabled a) (label a)
    (timestamp a) v.

(** *** Accessors with input sanitation

    Each setter either stores the value or prints to stderr and leaves the
    instance alone. An int-typed value is stored through [int_value]: the
    bool Python would keep computes and compares as that number. *)

Definition set_id (new_id : pyval) (a : AlarmItem) : AlarmItem :=
  if isinstance_int new_id && (0 <=? int_value new_id)
  then with_id (Some (int_value new_id)) a
  else a.

Definition set_enabled (new_enabled : pyval) (a : AlarmItem) : AlarmItem :=
  if isinstance_bool new_enabled then with_enabled (bool_value new_enabled) a
  else a.

Definition set_minute (new_minute : pyval) (a : AlarmItem) : AlarmItem :=
  if isinstance_int new_minute then
    if (0 <=? int_value new_minute) && (int_value new_minute <? 60)
    then with_minute (int_value new_minute) a
    else a
  else a.

Definition set_hour (new_hour : pyval) (a : AlarmItem) : AlarmItem :=
  if isinstance_int new_hour then
    if (0 <=? int_value new_hour) && (int_value new_hour <? 24)
    then with_hour (int_value new_hour) a
    else a
  else a.

(** [str] of the values modelled here never raises, so the [except] branch
    of [__set_label] is not reachable in the model. *)
Definition set_label (new_label : pyval) (a : AlarmItem) : AlarmItem :=
  with_label (py_str new_label) a.

Definition set_timestamp (new_timestamp : pyval) (a : AlarmItem) : AlarmItem :=
  if isinstance_int new_timestamp && (0 <=? int_value new_timestamp)
  then with_timestamp (Some (int_value new_timestamp)) a
  else a.

Definition set_station_id (new_station_id : pyval) (a : AlarmItem) : AlarmItem :=
  if isinstance_int new_station_id && (0 <=? int_value new_station_id)
  then with_station_id (Some (int_value new_station_id)) a
  else a.

(** [__set_repeat]: [len(new_repeat)] raises on an object without length;
    seven items that are all bools are copied, anything else is refused. *)
Definition set_repeat (new_repeat : pyval) (a : AlarmItem) : outcome AlarmItem :=
  match py_items new_repeat with
  | None => Raised TypeError
  | Some items =>
      if (length items =? 7)%nat then
        if forallb isinstance_bool items then
          match map bool_value items with
          | [mo; tu; we; th; fr; sa; su] =>
              Returned (with_days mo tu we th fr sa su a)
          | _ => Returned a
          end
        else Returned a
      else Returned a
  end.

Definition opt_int (o : option Z) : pyval :=
  match o with Some n => PyInt n | None => PyNone end.

Definition repeat_tuple (a : AlarmItem) : pyval :=
  PyTuple (map PyBool (get_repeat a)).

(** The instance [__new__] starts from, before the arguments are assigned. *)
Definition blank : AlarmItem :=
  mkAlarmItem None 0 0 false false false false false false false false ""
    None None.

Definition default_days : pyval :=
  PyTuple [PyBool false; PyBool false; PyBool false; PyBool false;
           PyBool false; PyBool false; PyBool false].

(** [tuple(days)]; a value that cannot be iterated raises, but [__new__]
    only gets here after [set_repeat] has measured its length. *)
Definition py_tuple (v : pyval) : pyval :=
  match py_items v with Some l => PyTuple l | None => PyNone end.

(** [AlarmItem.__new__]: assign through the accessors, then compare every
    field with the argument it was given; [Returned None] is the Python
    [None] it hands back for invalid data. *)
Definition AlarmItem_new (hour_ minute_ days enabled_ label_ timestamp_
                          alarm_id station_id_ : pyval)
  : outcome (option AlarmItem) :=
  let i1 := set_hour hour_ blank in
  let i2 := set_minute minute_ i1 in
  match set_repeat days i2 with
  | Raised e => Raised e
  | OutOfFuel => OutOfFuel
  | Returned i3 =>
      let i4 := set_enabled enabled_ i3 in
      let i5 := set_label label_ i4 in
      let i6 := if is_none timestamp_ then i5 else set_timestamp timestamp_ i5 in
      let i7 := if is_none alarm_id then i6 else set_id alarm_id i6 in
      let inst := if is_none station_id_ then i7 else set_station_id station_id_ i7 in
      let invalid :=
        py_ne (PyInt (hour inst)) hour_
        || py_ne (PyInt (minute inst)) minute_
        || (negb (is_none days) && py_ne (repeat_tuple inst) (py_tuple days))
        || (negb (is_none enabled_) && py_ne (PyBool (enabled inst)) enabled_)
        || (negb (is_none label_) && py_ne (PyStr (label inst)) label_)
        || (negb (is_none timestamp_)
            && py_ne (opt_int (timestamp inst)) timestamp_)
        || (negb (is_none alarm_id) && py_ne (opt_int (id_ inst)) alarm_id)
        || (negb (is_none station_id_)
            && py_ne (opt_int (station_id inst)) station_id_) in
      if invalid then Returned None else Returned (Some inst)
  end.

(** *** Queries *)

Definition any_day_enabled (a : AlarmItem) : bool :=
  fold_left (fun (any_enabled day : bool) => if day then true else any_enabled)
    (get_repeat a) false.

Definition is_active (a : AlarmItem) : bool :=
  if enabled a && any_day_enabled a then true else false.

(** *** Computing with time *)

Definition one_day_minutes : Z := 1440.

(** The loop [while day != weekday] of [minutes_to_alert]. [Returned None]
    means the loop ended without reaching its [return]. *)
Fixpoint week_scan (fuel : nat) (a : AlarmItem)
    (alarm_day_minute ref_day_minute weekday day day_count : Z)
  : outcome (option Z) :=
  match fuel with
  | O => OutOfFuel
  | S fuel' =>
      if day =? weekday then Returned None
      else
        match tuple_index (get_repeat a) day with
        | None => Raised IndexError
        | Some true =>
            let minutes_difference := day_count * one_day_minutes in
            if alarm_day_minute >=? ref_day_minute
            then Returned (Some (minutes_difference
                                 + (alarm_day_minute - ref_day_minute)))
            else Returned (Some (minutes_difference
                                 - (ref_day_minute - alarm_day_minute)))
        | Some false =>
            let day := day + 1 in
            let day_count := day_count + 1 in
            let day := if day >? 6 then 0 else day in
            week_scan fuel' a alarm_day_minute ref_day_minute weekday
              day day_count
        end
  end.

Definition minutes_to_alert_fuel (fuel : nat) (a : AlarmItem)
    (hour_ minute_ weekday : Z) : outcome (option Z) :=
  let alarm_day_minute := minute a + hour a * 60 in
  let ref_day_minute := minute_ + hour_ * 60 in
  match tuple_index (get_repeat a) weekday with
  | None => Raised IndexError
  | Some today =>
      (* First corner case, check the same day after input time *)
      if today && (alarm_day_minute >=? ref_day_minute)
      then Returned (Some (alarm_day_minute - ref_day_minute))
      else
        (* Check the rest of the week until, but not including, the same day *)
        let day := weekday + 1 in
        let day := if day >? 6 then 0 else day in
        match week_scan fuel a alarm_day_minute ref_day_minute weekday day 1 with
        | Returned None =>
            (* Second corner case, check the same day before input time *)
            if today && (ref_day_minute >? alarm_day_minute)
            then Returned (Some (one_day_minutes * 7 - ref_day_minute
                                 + alarm_day_minute))
            else Returned None
        | r => r
        end
  end.

(** From a weekday in 0..6 the loop tests its condition at most seven
    times; [week_scan_more_fuel] shows a larger budget changes nothing. *)
Definition minutes_to_alert : AlarmItem -> Z -> Z -> Z -> outcome (option Z) :=
  minutes_to_alert_fuel 7.

(** [while value >= modulus: value %= modulus; extra += 1] on the pair
    (value, extra). *)
Fixpoint reduce_high (fuel : nat) (modulus : Z) (st : Z * Z) : Z * Z :=
  match fuel with
  | O => st
  | S fuel' =>
      if fst st >=? modulus
      then reduce_high fuel' modulus (fst st mod modulus, snd st + 1)
      else st
  end.

(** [while value < 0: value += modulus; extra -= 1]. *)
Fixpoint raise_low (fuel : nat) (modulus : Z) (st : Z * Z) : Z * Z :=
  match fuel with
  | O => st
  | S fuel' =>
      if fst st <? 0
      then raise_low fuel' modulus (fst st + modulus, snd st - 1)
      else st
  end.

(** Both loops one after the other; the first needs one pass, the second at
    most [- value] passes ([reduce_high_done], [raise_low_done]). *)
Definition normalise (modulus value : Z) : Z * Z :=
  let st := reduce_high 1 modulus (value, 0) in
  raise_low (Z.to_nat (- fst st)) modulus st.

(** [new_days.append(new_days.pop(0))], once per day to move. *)
Fixpoint rotate_up (n : nat) (days : list bool) : list bool :=
  match n with
  | O => days
  | S n' =>
      match days with
      | [] => days
      | d :: rest => rotate_up n' (rest ++ [d])
      end
  end.

(** Where a slice bound [k] lands in a list of length [len]. *)
Definition slice_bound (len : nat) (k : Z) : nat :=
  if k <? 0 then Z.to_nat (Z.max (Z.of_nat len + k) 0)
  else Nat.min (Z.to_nat k) len.

Definition rotate_days (extra_days : Z) (days : list bool) : list bool :=
  if extra_days <? 0 then rotate_up (Z.to_nat (- extra_days)) days
  else if extra_days >? 0 then
    let cut := slice_bound (length days) (Z.of_nat (length days) - extra_days) in
    drop cut days ++ take cut days
  else days.

Definition show_id (o : option Z) : string :=
  match o with Some n => show_int n | None => "None" end.

Definition diff_alarm (min_difference : pyval) (a : AlarmItem)
  : outcome (option AlarmItem) :=
  if negb (isinstance_int min_difference) then Returned None
  else
    let d := int_value min_difference in
    if negb ((-60 <? d) && (d <? 60)) then Returned None
    else
      let '(new_minute, extra_hours) := normalise 60 (minute a + d) in
      let '(new_hour, extra_days) := normalise 24 (hour a + extra_hours) in
      let new_days := rotate_days extra_days (get_repeat a) in
      let new_label :=
        String.append (label a)
          (String.append " (Alarm "
             (String.append (show_id (id_ a))
                (String.append " " (String.append (show_signed d) "min)")))) in
      AlarmItem_new (PyInt new_hour) (PyInt new_minute)
        (PyTuple (map PyBool new_days)) (PyBool (enabled a)) (PyStr new_label)
        PyNone PyNone PyNone.

(** Records as the accessors accept them. *)
Definition valid_time (a : AlarmItem) : Prop :=
  0 <= hour a < 24 /\ 0 <= minute a < 60.

(** The instants of the week at which an alarm fires: one per flagged day,
    in minutes after Monday 00:00. *)
Definition fires_at (a : AlarmItem) (t : Z) : Prop :=
  exists day : Z,
    0 <= day <= 6
    /\ tuple_index (get_repeat a) day = Some true
    /\ t = day * one_day_minutes + hour a * 60 + minute a.

Definition an_alarm (h m : Z) (mo tu we th fr sa su en : bool) : AlarmItem :=
  mkAlarmItem None h m mo tu we th fr sa su en "" None None.

(** ** AlarmDb: the alarms table

    The [dataset] package is an external collaborator. Of its table only
    this is used: rows are kept in insertion order, [find_one(id=k)] gives
    the first row with that key, and [update(dict(id=k, col=v), ['id'])]
    sets the named columns of the rows with that key and reports whether
    there was such a row. *)
Module AlarmDb.

Record Row : Type := mkRow {
  row_id : Z;
  row_hour : Z;
  row_minute : Z;
  row_monday : bool;
  row_tuesday : bool;
  row_wednesday : bool;
  row_thursday : bool;
  row_friday : bool;
  row_saturday : bool;
  row_sunday : bool;
  row_enabled : bool;
  row_label : string;
  row_timestamp : Z;
  row_station_id : option Z
}.

Record Db : Type := mkDb {
  alarms_table : list Row;
  offset_alert_time : Z
}.

Definition has_id (alarm_id : Z) (r : Row) : bool := row_id r =? alarm_id.

Definition find_one (alarm_id : Z) (t : list Row) : option Row :=
  find (has_id alarm_id) t.

Definition update (alarm_id : Z) (write : Row -> Row) (t : list Row)
  : list Row * bool :=
  (map (fun r => if has_id alarm_id r then write r else r) t,
   existsb (has_id alarm_id) t).

Definition write_hour (i : AlarmItem) (r : Row) : Row :=
  mkRow (row_id r) (hour i) (row_minute r) (row_monday r) (row_tuesday r)
    (row_wednesday r) (row_thursday r) (row_friday r) (row_saturday r)
    (row_sunday r) (row_enabled r) (row_label r) (row_timestamp r)
    (row_station_id r).

Definition write_minute (i : AlarmItem) (r : Row) : Row :=
  mkRow (row_id r) (row_hour r) (minute i) (row_monday r) (row_tuesday r)
    (row_wednesday r) (row_thursday r) (row_friday r) (row_saturday r)
    (row_sunday r) (row_enabled r) (row_label r) (row_timestamp r)
    (row_station_id r).

Definition write_days (i : AlarmItem) (r : Row) : Row :=
  mkRow (row_id r) (row_hour r) (row_minute r) (monday i) (tuesday i)
    (wednesday i) (thursday i) (friday i) (saturday i) (sunday i)
    (row_enabled r) (row_label r) (row_timestamp r) (row_station_id r).

Definition write_enabled (i : AlarmItem) (r : Row) : Row :=
  mkRow (row_id r) (row_hour r) (row_minute r) (row_monday r) (row_tuesday r)
    (row_wednesday r) (row_thursday r) (row_friday r) (row_saturday r)
    (row_sunday r) (enabled i) (row_label r) (row_timestamp r)
    (row_station_id r).

Definition write_label (i : AlarmItem) (r : Row) : Row :=
  mkRow (row_id r) (row_hour r) (row_minute r) (row_monday r) (row_tuesday r)
    (row_wednesday r) (row_thursday r) (row_friday r) (row_saturday r)
    (row_sunday r) (row_enabled r) (label i) (row_timestamp r)
    (row_station_id r).

Definition write_station_id (i : AlarmItem) (r : Row) : Row :=
  mkRow (row_id r) (row_hour r) (row_minute r) (row_monday r) (row_tuesday r)
    (row_wednesday r) (row_thursday r) (row_friday r) (row_saturday r)
    (row_sunday r) (row_enabled r) (row_label r) (row_timestamp r)
    (station_id i).

Definition write_timestamp (new_timestamp : Z) (r : Row) : Row :=
  mkRow (row_id r) (row_hour r) (row_minute r) (row_monday r) (row_tuesday r)
    (row_wednesday r) (row_thursday r) (row_friday r) (row_saturday r)
    (row_sunday r) (row_enabled r) (row_label r) new_timestamp
    (row_station_id r).

(** The throw-away instances [edit_alarm] builds to sanitise one argument
    each; the other parameters of [AlarmItem] take their defaults. *)
Definition probe_hour (v : pyval) : outcome (option AlarmItem) :=
  AlarmItem_new v (PyInt 0) default_days (PyBool true) (PyStr "")
    PyNone PyNone PyNone.

Definition probe_minute (v : pyval) : outcome (option AlarmItem) :=
  AlarmItem_new (PyInt 0) v default_days (PyBool true) (PyStr "")
    PyNone PyNone PyNone.

Definition probe_days (v : pyval) : outcome (option AlarmItem) :=
  AlarmItem_new (PyInt 0) (PyInt 0) v (PyBool true) (PyStr "")
    PyNone PyNone PyNone.

Definition probe_enabled (v : pyval) : outcome (option AlarmItem) :=
  AlarmItem_new (PyInt 0) (PyInt 0) default_days v (PyStr "")
    PyNone PyNone PyNone.

Definition probe_label (v : pyval) : outcome (option AlarmItem) :=
  AlarmItem_new (PyInt 0) (PyInt 0) default_days (PyBool true) v
    PyNone PyNone PyNone.

Definition probe_station_id (v : pyval) : outcome (option AlarmItem) :=
  AlarmItem_new (PyInt 0) (PyInt 0) default_days (PyBool true) (PyStr "")
    PyNone PyNone v.

(** One [if value is not None: ...] block of [edit_alarm]. The state is the
    table and what the method has come to so far: [Returned success], or
    the exception that already left it. *)
Definition edit_field (alarm_id : Z) (value : pyval)
    (probe : pyval -> outcome (option AlarmItem))
    (write : AlarmItem -> Row -> Row)
    (st : list Row * outcome bool) : list Row * outcome bool :=
  match st with
  | (t, Returned success) =>
      if is_none value then st
      else
        match probe value with
        | Returned (Some alarm_item) =>
            let '(t', individual_success) :=
              update alarm_id (write alarm_item) t in
            (t', Returned (if negb individual_success then false else success))
        | Returned None => (t, Returned false)
        | Raised e => (t, Raised e)
        | OutOfFuel => (t, OutOfFuel)
        end
  | _ => st
  end.

(** The closing block: the timestamp is applied only if [success is True]. *)
Definition stamp (alarm_id : Z) (new_timestamp : Z)
    (st : list Row * outcome bool) : list Row * outcome bool :=
  match st with
  | (t, Returned true) =>
      let '(t', individual_success) :=
        update alarm_id (write_timestamp new_timestamp) t in
      (t', Returned (if negb individual_success then false else true))
  | _ => st
  end.

(** [edit_alarm]; [now] is [int(round(time.time()))]. *)
Definition edit_alarm (now : Z) (alarm_id : Z)
    (hour_ minute_ days enabled_ label_ station_id_ : pyval)
    (t : list Row) : list Row * outcome bool :=
  stamp alarm_id now
    (edit_field alarm_id station_id_ probe_station_id write_station_id
    (edit_field alarm_id label_ probe_label write_label
    (edit_field alarm_id enabled_ probe_enabled write_enabled
    (edit_field alarm_id days probe_days write_days
    (edit_field alarm_id minute_ probe_minute write_minute
    (edit_field alarm_id hour_ probe_hour write_hour
       (t, Returned true))))))).

(** The [AlarmItem(...)] call that turns a row back into an instance. *)
Definition item_of_row (r : Row) : outcome (option AlarmItem) :=
  AlarmItem_new (PyInt (row_hour r)) (PyInt (row_minute r))
    (PyTuple [PyBool (row_monday r); PyBool (row_tuesday r);
              PyBool (row_wednesday r); PyBool (row_thursday r);
              PyBool (row_friday r); PyBool (row_saturday r);
              PyBool (row_sunday r)])
    (PyBool (row_enabled r)) (PyStr (row_label r))
    (PyInt (row_timestamp r)) (PyInt (row_id r))
    (opt_int (row_station_id r)).

Definition get_alarm (alarm_id : Z) (t : list Row)
  : outcome (option AlarmItem) :=
  match find_one alarm_id t with
  | None => Returned None
  | Some alarm_dict => item_of_row alarm_dict
  end.

(** [get_all_alarms]: a list with one entry per row, each an instance or
    the [None] a refused row gives. *)
Fixpoint get_all_alarms (t : list Row) : outcome (list (option AlarmItem)) :=
  match t with
  | [] => Returned []
  | alarm :: rest =>
      match item_of_row alarm with
      | Returned entry =>
          match get_all_alarms rest with
          | Returned alarm_list => Returned (entry :: alarm_list)
          | Raised e => Raised e
          | OutOfFuel => OutOfFuel
          end
      | Raised e => Raised e
      | OutOfFuel => OutOfFuel
      end
  end.

(** Rows as [add_alarm] and [edit_alarm] write them. *)
Definition row_ok (r : Row) : Prop :=
  0 <= row_id r /\ 0 <= row_hour r < 24 /\ 0 <= row_minute r < 60
  /\ 0 <= row_timestamp r
  /\ match row_station_id r with Some s => 0 <= s | None => True end.

Definition item_of (r : Row) : AlarmItem :=
  mkAlarmItem (Some (row_id r)) (row_hour r) (row_minute r) (row_monday r)
    (row_tuesday r) (row_wednesday r) (row_thursday r) (row_friday r)
    (row_saturday r) (row_sunday r) (row_enabled r) (row_label r)
    (Some (row_timestamp r)) (row_station_id r).

End AlarmDb.

(** ** AlarmThread

    Modelled from the spec: [AlarmThread.py] is not among the sources. The
    design document gives the timer a held record snapshot, [get_id],
    [is_alive], an [edit] that replaces the snapshot without touching the
    running schedule, and a cooperative [stop]: the request is noticed at
    the timer's next poll, and a timer may take longer than any bound the
    manager is prepared to wait. A thread object is told apart from every
    other by [th_ident], which no method changes. [th_lag] counts the 10 ms
    sleeps of the manager the thread still survives once it has been asked
    to stop. *)
Module AlarmThread.

Record Thread : Type := mkThread {
  th_ident : nat;
  th_alarm : AlarmItem;
  th_offset : Z;
  th_alive : bool;
  th_run : bool;
  th_lag : nat
}.

Definition create (ident : nat) (alarm : AlarmItem) (offset_alarm_time : Z)
    (lag : nat) : Thread :=
  mkThread ident alarm offset_alarm_time false true lag.

Definition start (t : Thread) : Thread :=
  mkThread (th_ident t) (th_alarm t) (th_offset t) true (th_run t) (th_lag t).

Definition stop (t : Thread) : Thread :=
  mkThread (th_ident t) (th_alarm t) (th_offset t) (th_alive t) false (th_lag t).

Definition edit_alarm (new_alarm : AlarmItem) (t : Thread) : Thread :=
  mkThread (th_ident t) new_alarm (th_offset t) (th_alive t) (th_run t)
    (th_lag t).

Definition isAlive (t : Thread) : bool := th_alive t.

Definition get_id (t : Thread) : option Z := id_ (th_alarm t).

(** What 10 ms of [time.sleep] in the manager do to a thread: one that was
    asked to stop uses up its lag and then ends. *)
Definition sleep_10ms (t : Thread) : Thread :=
  if th_alive t && negb (th_run t) then
    match th_lag t with
    | O => mkThread (th_ident t) (th_alarm t) (th_offset t) false false O
    | S lag => mkThread (th_ident t) (th_alarm t) (th_offset t) true false lag
    end
  else t.

End AlarmThread.

(** ** AlarmManager: the thread list *)
Module AlarmManager.
Import AlarmThread.

(** The manager with the database it is bound to. [created] counts the
    thread objects made so far and names the next one; [lag_of] tells how
    slowly the thread of a given name will react to [stop]. *)
Record Manager : Type := mkManager {
  alarmdb : AlarmDb.Db;
  alarm_threads : list Thread;
  created : nat;
  lag_of : nat -> nat
}.

Definition with_threads (l : list Thread) (m : Manager) : Manager :=
  mkManager (alarmdb m) l (created m) (lag_of m).

Definition with_db (db : AlarmDb.Db) (m : Manager) : Manager :=
  mkManager db (alarm_threads m) (created m) (lag_of m).

(** [==] on alarm ids, which are integers or [None]. *)
Definition id_eq (x y : option Z) : bool :=
  match x, y with
  | Some a, Some b => a =? b
  | None, None => true
  | _, _ => false
  end.

Definition get_offset_alert_time (m : Manager) : Z :=
  AlarmDb.offset_alert_time (alarmdb m).

(** [AlarmThread(alarm, ...)] followed by [start()]: a new object. *)
Definition launch (alarm : AlarmItem) (m : Manager) : Thread :=
  start (create (created m) alarm (get_offset_alert_time m)
           (lag_of m (created m))).

(** [list.remove(x)]: the first entry that is the object [x] goes. *)
Fixpoint remove_thread (ident : nat) (l : list Thread) : list Thread :=
  match l with
  | [] => []
  | t :: rest =>
      if (th_ident t =? ident)%nat then rest
      else t :: remove_thread ident rest
  end.

(** [while alarm_thread.isAlive() and (milliseconds_passed < 3000)], for
    the thread at position [i]; every pass sleeps 10 ms, during which all
    threads run on. *)
Fixpoint wait_stopped (fuel : nat) (i : nat) (milliseconds_passed : Z)
    (l : list Thread) : list Thread :=
  match fuel with
  | O => l
  | S fuel' =>
      match l !! i with
      | Some alarm_thread =>
          if isAlive alarm_thread && (milliseconds_passed <? 3000)
          then wait_stopped fuel' i (milliseconds_passed + 10)
                 (map sleep_10ms l)
          else l
      | None => l
      end
  end.

(** 3000 ms in steps of 10 ms: the waiting loop makes at most 300 passes. *)
Definition stop_polls : nat := 300.

(** The [for alarm_thread in self.__alarm_threads] loop of
    [__stop_alarm_thread]. A Python list iterator is a position: each step
    takes the entry at [i], if there is one, and moves on to [i + 1],
    whatever the body did to the list in between. *)
Fixpoint stop_loop (fuel : nat) (alarm_id : option Z) (i : nat)
    (success : bool) (l : list Thread) : bool * list Thread :=
  match fuel with
  | O => (success, l)
  | S fuel' =>
      match l !! i with
      | None => (success, l)
      | Some alarm_thread =>
          if id_eq alarm_id (get_id alarm_thread) then
            let l1 := <[i := stop alarm_thread]> l in
            let l2 := wait_stopped stop_polls i 0 l1 in
            let success' :=
              match l2 !! i with
              | Some t => negb (isAlive t)
              | None => true
              end in
            let l3 := if success' then remove_thread (th_ident alarm_thread) l2
                      else l2 in
            stop_loop fuel' alarm_id (S i) success' l3
          else stop_loop fuel' alarm_id (S i) success l
      end
  end.

(** [__stop_alarm_thread]. The list never grows inside the loop, so its
    length bounds the number of steps. *)
Definition stop_alarm_thread (alarm_id : option Z) (m : Manager)
  : bool * Manager :=
  let '(success, l) :=
    stop_loop (length (alarm_threads m)) alarm_id 0 false (alarm_threads m) in
  (success, with_threads l m).

(** The search [for i, alarm_thread in enumerate(...)] makes up to its
    [break]: the first thread with the alarm's id and its position. *)
Fixpoint find_thread (alarm_id : option Z) (i : nat) (l : list Thread)
  : option (nat * Thread) :=
  match l with
  | [] => None
  | t :: rest =>
      if id_eq alarm_id (get_id t) then Some (i, t)
      else find_thread alarm_id (S i) rest
  end.

(** [__set_alarm_thread]. *)
Definition set_alarm_thread (alarm : AlarmItem) (m : Manager)
  : bool * Manager :=
  match find_thread (id_ alarm) 0 (alarm_threads m) with
  | Some (i, alarm_thread) =>
      (* Already set as launched, check if should be stopped or edited *)
      if negb (is_active alarm) then
        (false, snd (stop_alarm_thread (id_ alarm) m))
      else
        let alarm_thread := edit_alarm alarm alarm_thread in
        let m1 := with_threads (<[i := alarm_thread]> (alarm_threads m)) m in
        if negb (isAlive alarm_thread) then
          (isAlive alarm_thread,
           mkManager (alarmdb m1)
             (<[i := launch alarm m1]> (alarm_threads m1))
             (S (created m1)) (lag_of m1))
        else (isAlive alarm_thread, m1)
  | None =>
      (* Before thread is launched, check if the alarm is active *)
      if is_active alarm then
        let alarm_thread := launch alarm m in
        (isAlive alarm_thread,
         mkManager (alarmdb m) (alarm_threads m ++ [alarm_thread])
           (S (created m)) (lag_of m))
      else (false, m)
  end.

Fixpoint running (alarm_id : option Z) (l : list Thread) : bool :=
  match l with
  | [] => false
  | alarm_thread :: rest =>
      if id_eq (get_id alarm_thread) alarm_id then isAlive alarm_thread
      else running alarm_id rest
  end.

Definition is_alarm_running (alarm_id : option Z) (m : Manager) : bool :=
  running alarm_id (alarm_threads m).

(** First loop of [check_threads_state]; an entry that is [None] has no
    [is_active] and ends the call with [AttributeError]. *)
Fixpoint check_alarms (all_alarms : list (option AlarmItem))
    (previously_correct : bool) (running_counter : Z) (m : Manager)
  : outcome (bool * Z) * Manager :=
  match all_alarms with
  | [] => (Returned (previously_correct, running_counter), m)
  | None :: _ => (Raised AttributeError, m)
  | Some alarm :: rest =>
      if is_active alarm then
        (* This alarm should be running *)
        let running_counter := running_counter + 1 in
        if negb (is_alarm_running (id_ alarm) m)
        then check_alarms rest false running_counter
               (snd (set_alarm_thread alarm m))
        else check_alarms rest previously_correct running_counter m
      else
        (* This alarm should not be running *)
        if is_alarm_running (id_ alarm) m
        then check_alarms rest false running_counter
               (snd (stop_alarm_thread (id_ alarm) m))
        else check_alarms rest previously_correct running_counter m
  end.

(** The inner [for alarm in all_alarms: ... break / else] test: does some
    stored alarm carry this thread's id? *)
Definition has_record (all_alarms : list AlarmItem) (alarm_thread : Thread)
  : bool :=
  existsb (fun alarm => id_eq (id_ alarm) (get_id alarm_thread)) all_alarms.

(** The recovery loop [for alarm_thread in self.__alarm_threads], again an
    iteration by position over a list the body shortens. *)
Fixpoint stop_orphans (fuel : nat) (all_alarms : list AlarmItem) (i : nat)
    (m : Manager) : Manager :=
  match fuel with
  | O => m
  | S fuel' =>
      match alarm_threads m !! i with
      | None => m
      | Some alarm_thread =>
          if has_record all_alarms alarm_thread
          then stop_orphans fuel' all_alarms (S i) m
          else stop_orphans fuel' all_alarms (S i)
                 (snd (stop_alarm_thread (get_id alarm_thread) m))
      end
  end.

(** The instances in a list none of whose entries is [None]. *)
Definition instances (all_alarms : list (option AlarmItem)) : list AlarmItem :=
  omap id all_alarms.

(** [check_threads_state]; the message printed when the count still does
    not match is not part of the state. *)
Definition check_threads_state (m : Manager) : outcome bool * Manager :=
  match AlarmDb.get_all_alarms (AlarmDb.alarms_table (alarmdb m)) with
  | Returned all_alarms =>
      match check_alarms all_alarms true 0 m with
      | (Returned (previously_correct, running_counter), m1) =>
          (* Check we have as many threads as expected *)
          if negb (Z.of_nat (length (alarm_threads m1)) =? running_counter)
          then
            (Returned false,
             stop_orphans (length (alarm_threads m1)) (instances all_alarms)
               0 m1)
          else (Returned previously_correct, m1)
      | (Raised e, m1) => (Raised e, m1)
      | (OutOfFuel, m1) => (OutOfFuel, m1)
      end
  | Raised e => (Raised e, m)
  | OutOfFuel => (OutOfFuel, m)
  end.

(** [AlarmManager.edit_alarm]: the database edit, then, if it succeeded,
    the thread of the stored alarm is brought in line. *)
Definition edit_alarm (now : Z) (alarm_id : Z)
    (hour_ minute_ days enabled_ label_ station_id_ : pyval) (m : Manager)
  : outcome bool * Manager :=
  let db := alarmdb m in
  let '(t, success) :=
    AlarmDb.edit_alarm now alarm_id hour_ minute_ days enabled_ label_
      station_id_ (AlarmDb.alarms_table db) in
  let m1 := with_db (AlarmDb.mkDb t (AlarmDb.offset_alert_time db)) m in
  match success with
  | Returned true =>
      match AlarmDb.get_alarm alarm_id t with
      | Returned (Some alarm) => (Returned true, snd (set_alarm_thread alarm m1))
      | Returned None => (Raised AttributeError, m1)
      | Raised e => (Raised e, m1)
      | OutOfFuel => (OutOfFuel, m1)
      end
  | _ => (success, m1)
  end.

(** The states the manager keeps its list in: one thread object per entry
    and one entry per alarm id. *)
Definition distinct_threads (l : list Thread) : Prop :=
  NoDup (map th_ident l) /\ NoDup (map get_id l).

End AlarmManager.

(** ** Notions the properties are stated with *)

(** A value supplied to [edit_alarm] is refused when the throw-away
    instance built from it comes back as [None]. *)
Definition refused (probe : pyval -> outcome (option AlarmItem)) (v : pyval)
  : Prop :=
  v <> PyNone /\ probe v = Returned None.

Definition some_field_refused (hour_ minute_ days enabled_ label_ station_id_ : pyval)
  : Prop :=
  refused AlarmDb.probe_hour hour_ \/ refused AlarmDb.probe_minute minute_
  \/ refused AlarmDb.probe_days days \/ refused AlarmDb.probe_enabled enabled_
  \/ refused AlarmDb.probe_label label_
  \/ refused AlarmDb.probe_station_id station_id_.

(** "No subset of the supplied fields is written": a call with a refused
    value fails and leaves the table as it was. *)
Definition edits_all_or_nothing : Prop :=
  forall (now alarm_id : Z) (h m d e l s : pyval) (t : list AlarmDb.Row),
    some_field_refused h m d e l s ->
    AlarmDb.edit_alarm now alarm_id h m d e l s t = (t, Returned false).

(** What one block of [edit_alarm] does to a row with the edited key: a
    value that was supplied and accepted is written, any other leaves the
    row alone. *)
Definition written (probe : pyval -> outcome (option AlarmItem))
    (write : AlarmItem -> AlarmDb.Row -> AlarmDb.Row) (v : pyval)
    (r : AlarmDb.Row) : AlarmDb.Row :=
  if is_none v then r
  else match probe v with
       | Returned (Some alarm_item) => write alarm_item r
       | _ => r
       end.

(** The row after all six blocks. *)
Definition edited_row (h m d e l s : pyval) (r : AlarmDb.Row) : AlarmDb.Row :=
  written AlarmDb.probe_station_id AlarmDb.write_station_id s
    (written AlarmDb.probe_label AlarmDb.write_label l
       (written AlarmDb.probe_enabled AlarmDb.write_enabled e
          (written AlarmDb.probe_days AlarmDb.write_days d
             (written AlarmDb.probe_minute AlarmDb.write_minute m
                (written AlarmDb.probe_hour AlarmDb.write_hour h r))))).

Definition edited_table (alarm_id : Z) (h m d e l s : pyval)
    (t : list AlarmDb.Row) : list AlarmDb.Row :=
  map (fun r => if AlarmDb.has_id alarm_id r then edited_row h m d e l s r else r) t.

(** The [days] argument can be measured by [len]: it is absent or a
    sequence. *)
Definition sized_or_none (v : pyval) : Prop :=
  v = PyNone \/ exists items, py_items v = Some items.

(** [n] sleeps of 10 ms in a row, seen from one thread. *)
Definition ticks (n : nat) (t : AlarmThread.Thread) : AlarmThread.Thread :=
  Nat.iter n AlarmThread.sleep_10ms t.

(** "Editing an active alarm produces a different timer instance": where a
    live thread of the alarm stood, another object stands afterwards. *)
Definition edit_replaces_live_thread : Prop :=
  forall (alarm : AlarmItem) (m : AlarmManager.Manager) (i : nat)
         (old : AlarmThread.Thread),
    AlarmManager.find_thread (id_ alarm) 0 (AlarmManager.alarm_threads m)
    = Some (i, old) ->
    is_active alarm = true ->
    AlarmThread.isAlive old = true ->
    exists new,
      AlarmManager.alarm_threads (snd (AlarmManager.set_alarm_thread alarm m)) !! i
      = Some new
      /\ AlarmThread.th_ident new <> AlarmThread.th_ident old
      /\ AlarmThread.isAlive new = true.

(** "Reconciling an inactive record always leaves no running timer". *)
Definition inactive_never_running : Prop :=
  forall (alarm : AlarmItem) (m : AlarmManager.Manager),
    is_active alarm = false ->
    AlarmManager.is_alarm_running (id_ alarm)
      (snd (AlarmManager.set_alarm_thread alarm m)) = false.

(** "The second of two calls in a row returns true". *)
Definition second_check_true : Prop :=
  forall m : AlarmManager.Manager,
    fst (AlarmManager.check_threads_state
           (snd (AlarmManager.check_threads_state m))) = Returned true.

(** Sample data for the closed statements. *)
Definition sample_alarm (alarm_id h : Z) (enabled_ : bool) : AlarmItem :=
  mkAlarmItem (Some alarm_id) h 0 true false false false false false false
    enabled_ "" (Some 0) None.

Definition sample_row (alarm_id : Z) (enabled_ : bool) : AlarmDb.Row :=
  AlarmDb.mkRow alarm_id 7 0 true false false false false false false
    enabled_ "" 0 None.

Definition sample_thread (ident : nat) (alarm_id : Z) (alive : bool)
    (lag : nat) : AlarmThread.Thread :=
  AlarmThread.mkThread ident (sample_alarm alarm_id 7 true) (-15) alive true lag.

Definition sample_manager (rows : list AlarmDb.Row)
    (threads : list AlarmThread.Thread) : AlarmManager.Manager :=
  AlarmManager.mkManager (AlarmDb.mkDb rows (-15)) threads (length threads)
    (fun _ => O).

(** The alarms [get_all_alarms] hands to [check_threads_state] when every
    row is well formed. *)
Definition stored_alarms (m : AlarmManager.Manager) : list AlarmItem :=
  map AlarmDb.item_of (AlarmDb.alarms_table (AlarmManager.alarmdb m)).

(** States [check_threads_state] is able to repair in one call: the table
    is well formed with one row per key; no two list entries are the same
    thread or serve the same alarm; thread names are older than the next
    one to be given out; no thread has a stop request pending; and every
    thread belongs to a stored alarm, being alive and quick enough to stop
    within the waiting time if that alarm is not active. *)
Definition repairable (m : AlarmManager.Manager) : Prop :=
  Forall AlarmDb.row_ok (AlarmDb.alarms_table (AlarmManager.alarmdb m))
  /\ NoDup (map AlarmDb.row_id (AlarmDb.alarms_table (AlarmManager.alarmdb m)))
  /\ AlarmManager.distinct_threads (AlarmManager.alarm_threads m)
  /\ (forall t, In t (AlarmManager.alarm_threads m) ->
        (AlarmThread.th_ident t < AlarmManager.created m)%nat
        /\ AlarmThread.th_run t = true
        /\ exists a, In a (stored_alarms m)
             /\ id_ a = AlarmThread.get_id t
             /\ (is_active a = false ->
                 AlarmThread.isAlive t = true
                 /\ (AlarmThread.th_lag t < AlarmManager.stop_polls)%nat)).

Definition count_active (alarms : list AlarmItem) : Z :=
  Z.of_nat (length (List.filter is_active alarms)).

(** What holds between two steps of the first loop of
    [check_threads_state], with the alarms already looked at in [done] and
    the others in [todo]. *)
Definition thread_ok (done todo : list AlarmItem) (next : nat)
    (t : AlarmThread.Thread) : Prop :=
  (AlarmThread.th_ident t < next)%nat
  /\ AlarmThread.th_run t = true
  /\ exists a, In a (done ++ todo)
       /\ id_ a = AlarmThread.get_id t
       /\ (is_active a = false ->
           In a todo /\ AlarmThread.isAlive t = true
           /\ (AlarmThread.th_lag t < AlarmManager.stop_polls)%nat).

Definition check_invariant (done todo : list AlarmItem)
    (m : AlarmManager.Manager) : Prop :=
  AlarmManager.distinct_threads (AlarmManager.alarm_threads m)
  /\ (forall t, In t (AlarmManager.alarm_threads m) ->
                thread_ok done todo (AlarmManager.created m) t)
  /\ (forall a, In a done -> is_active a = true ->
                AlarmManager.is_alarm_running (id_ a) m = true).

(** One pass of that loop on the manager. *)
Definition check_one (alarm : AlarmItem) (m : AlarmManager.Manager)
  : AlarmManager.Manager :=
  if is_active alarm then
    if negb (AlarmManager.is_alarm_running (id_ alarm) m)
    then snd (AlarmManager.set_alarm_thread alarm m)
    else m
  else
    if AlarmManager.is_alarm_running (id_ alarm) m
    then snd (AlarmManager.stop_alarm_thread (id_ alarm) m)
    else m.

(** [update] with the write [W], as a map over the table. *)
Definition upd (alarm_id : Z) (W : AlarmDb.Row -> AlarmDb.Row)
    (t : list AlarmDb.Row) : list AlarmDb.Row :=
  map (fun r => if AlarmDb.has_id alarm_id r then W r else r) t.

Definition keeps_id (W : AlarmDb.Row -> AlarmDb.Row) : Prop :=
  forall r, AlarmDb.row_id (W r) = AlarmDb.row_id r.

(** Whether a block of [edit_alarm] leaves [success] as it found it. *)
Definition block_ok (alarm_id : Z)
    (probe : pyval -> outcome (option AlarmItem)) (v : pyval)
    (t : list AlarmDb.Row) : bool :=
  is_none v
  || match probe v with
     | Returned (Some _) => existsb (AlarmDb.has_id alarm_id) t
     | _ => false
     end.

(** The alarm of [test_edit_alarm], stored under key 1. *)
Definition the_row : AlarmDb.Row :=
  AlarmDb.mkRow 1 13 35 false false true false false true false true "" 0 None.

(** What the manager keeps true of its list: no thread object and no alarm
    id occurs twice, and the names of the threads are older than the next
    one to be given out. *)
Definition well_kept (m : AlarmManager.Manager) : Prop :=
  AlarmManager.distinct_threads (AlarmManager.alarm_threads m)
  /\ forall t, In t (AlarmManager.alarm_threads m) ->
               (AlarmThread.th_ident t < AlarmManager.created m)%nat.

(** ** Further parts of the sources *)

(** *** StationItem *)
Module StationItem.

Record Station : Type := mkStation {
  st_id : option Z;
  st_name : string;
  st_url : string
}.

Definition set_id (new_id : pyval) (s : Station) : Station :=
  if isinstance_int new_id && (0 <=? int_value new_id)
  then mkStation (Some (int_value new_id)) (st_name s) (st_url s)
  else s.

Definition set_name (new_name : pyval) (s : Station) : Station :=
  mkStation (st_id s) (py_str new_name) (st_url s).

Definition set_url (new_url : pyval) (s : Station) : Station :=
  mkStation (st_id s) (st_name s) (py_str new_url).

(** [StationItem.__new__]; [None] is the Python [None] handed back for
    invalid data. *)
Definition StationItem_new (name url station_id : pyval) : option Station :=
  let i1 := set_name name (mkStation None "" "") in
  let i2 := set_url url i1 in
  let inst := if is_none station_id then i2 else set_id station_id i2 in
  let invalid :=
    py_ne (PyStr (st_name inst)) name
    || py_ne (PyStr (st_url inst)) url
    || (negb (is_none station_id) && py_ne (opt_int (st_id inst)) station_id) in
  if invalid then None else Some inst.

End StationItem.

(** *** AlarmItem: the accessors of single weekdays *)

Definition set_monday (v : pyval) (a : AlarmItem) : AlarmItem :=
  if isinstance_bool v
  then with_days (bool_value v) (tuesday a) (wednesday a) (thursday a)
         (friday a) (saturday a) (sunday a) a
  else a.

Definition set_tuesday (v : pyval) (a : AlarmItem) : AlarmItem :=
  if isinstance_bool v
  then with_days (monday a) (bool_value v) (wednesday a) (thursday a)
         (friday a) (saturday a) (sunday a) a
  else a.

Definition set_wednesday (v : pyval) (a : AlarmItem) : AlarmItem :=
  if isinstance_bool v
  then with_days (monday a) (tuesday a) (bool_value v) (thursday a)
         (friday a) (saturday a) (sunday a) a
  else a.

Definition set_thursday (v : pyval) (a : AlarmItem) : AlarmItem :=
  if isinstance_bool v
  then with_days (monday a) (tuesday a) (wednesday a) (bool_value v)
         (friday a) (saturday a) (sunday a) a
  else a.

Definition set_friday (v : pyval) (a : AlarmItem) : AlarmItem :=
  if isinstance_bool v
  then with_days (monday a) (tuesday a) (wednesday a) (thursday a)
         (bool_value v) (saturday a) (sunday a) a
  else a.

Definition set_saturday (v : pyval) (a : AlarmItem) : AlarmItem :=
  if isinstance_bool v
  then with_days (monday a) (tuesday a) (wednesday a) (thursday a)
         (friday a) (bool_value v) (sunday a) a
  else a.

Definition set_sunday (v : pyval) (a : AlarmItem) : AlarmItem :=
  if isinstance_bool v
  then with_days (monday a) (tuesday a) (wednesday a) (thursday a)
         (friday a) (saturday a) (bool_value v) a
  else a.

(** The data invariant of an instance: time of day in range, and the
    optional numbers not negative. *)
Definition opt_nonneg (o : option Z) : Prop :=
  match o with Some n => 0 <= n | None => True end.

Definition item_ok (a : AlarmItem) : Prop :=
  valid_time a /\ opt_nonneg (id_ a) /\ opt_nonneg (timestamp a)
  /\ opt_nonneg (station_id a).


(** The minute of the week of a reference time. *)
Definition week_minute (hour_ minute_ weekday : Z) : Z :=
  weekday * one_day_minutes + hour_ * 60 + minute_.

(** *** AlarmDb: the other operations on the alarms table

    As before, [dataset] and the SQLite file behind it are external. A new
    row gets the key after the largest one in the table, 1 in an empty
    table (the test suite counts on ids 1..5 after [delete_all_alarms]);
    [delete] reports whether it removed a row. *)
Module AlarmDbOps.
Import AlarmDb.

Definition next_key (t : list Row) : Z :=
  match map row_id t with
  | [] => 1
  | k :: ks => 1 + fold_left Z.max ks k
  end.

Definition get_number_of_alarms (t : list Row) : Z := Z.of_nat (length t).

(** [add_alarm]; [now] is [int(round(time.time()))], seconds since 1970.
    The instance comes back with its timestamp filled in, next to the table
    and the key of the new row. *)
Definition add_alarm (now : N) (alarm_item : AlarmItem) (t : list Row)
  : AlarmItem * list Row * Z :=
  let alarm_item :=
    match timestamp alarm_item with
    | None => set_timestamp (PyInt (Z.of_N now)) alarm_item
    | Some _ => alarm_item
    end in
  let key := next_key t in
  (alarm_item,
   t ++ [mkRow key (hour alarm_item) (minute alarm_item) (monday alarm_item)
           (tuesday alarm_item) (wednesday alarm_item) (thursday alarm_item)
           (friday alarm_item) (saturday alarm_item) (sunday alarm_item)
           (enabled alarm_item) (label alarm_item)
           (match timestamp alarm_item with Some ts => ts | None => 0 end)
           (station_id alarm_item)],
   key).

(** [get_all_enabled_alarms] and [get_all_disabled_alarms]: the loop of
    [get_all_alarms] over the rows [find(enabled=...)] yields. *)
Definition get_all_enabled_alarms (t : list Row)
  : outcome (list (option AlarmItem)) :=
  get_all_alarms (List.filter row_enabled t).

Definition get_all_disabled_alarms (t : list Row)
  : outcome (list (option AlarmItem)) :=
  get_all_alarms (List.filter (fun r => negb (row_enabled r)) t).

(** The columns [update_alarm] writes: all but the key and the station. *)
Definition write_alarm (i : AlarmItem) (new_timestamp : Z) (r : Row) : Row :=
  mkRow (row_id r) (hour i) (minute i) (monday i) (tuesday i) (wednesday i)
    (thursday i) (friday i) (saturday i) (sunday i) (enabled i) (label i)
    new_timestamp (row_station_id r).

(** [update_alarm]: the instance gets the new timestamp, the row with the
    instance's id gets the instance's data. An instance without id matches
    no row. *)
Definition update_alarm (now : N) (alarm : AlarmItem) (t : list Row)
  : AlarmItem * list Row * bool :=
  let alarm := set_timestamp (PyInt (Z.of_N now)) alarm in
  match id_ alarm with
  | Some k =>
      let new_timestamp :=
        match timestamp alarm with Some ts => ts | None => 0 end in
      let '(t', success) := update k (write_alarm alarm new_timestamp) t in
      (alarm, t', success)
  | None => (alarm, t, false)
  end.

Definition delete_alarm (alarm_id : Z) (t : list Row) : list Row * bool :=
  (List.filter (fun r => negb (has_id alarm_id r)) t,
   existsb (has_id alarm_id) t).

Definition delete_all_alarms (t : list Row) : list Row * bool :=
  ([], negb (length t =? 0)%nat).

End AlarmDbOps.

(** The number [minutes_to_alert] returns, where it returns one. *)
Definition minutes_of (hour_ minute_ weekday : Z) (a : AlarmItem) : Z :=
  match minutes_to_alert a hour_ minute_ weekday with
  | Returned (Some n) => n
  | _ => 0
  end.

(** The stored alarms that are active, in the order of the table. *)
Definition active_alarms_of (db : AlarmDb.Db) : list AlarmItem :=
  List.filter is_active (map AlarmDb.item_of (AlarmDb.alarms_table db)).

(** *** Notions for the edits that succeed *)

(** A value supplied to [edit_alarm] is accepted when it is absent or the
    throw-away instance built from it is handed back. *)
Definition accepted (probe : pyval -> outcome (option AlarmItem)) (v : pyval)
  : Prop :=
  v = PyNone \/ exists alarm_item, probe v = Returned (Some alarm_item).

Definition all_accepted (hour_ minute_ days enabled_ label_ station_id_ : pyval)
  : Prop :=
  accepted AlarmDb.probe_hour hour_ /\ accepted AlarmDb.probe_minute minute_
  /\ accepted AlarmDb.probe_days days /\ accepted AlarmDb.probe_enabled enabled_
  /\ accepted AlarmDb.probe_label label_
  /\ accepted AlarmDb.probe_station_id station_id_.

(** The table after an edit in which every block wrote its value and the
    timestamp was applied. *)
Definition stamped_table (now alarm_id : Z) (h m d e l s : pyval)
    (t : list AlarmDb.Row) : list AlarmDb.Row :=
  map (fun r => if AlarmDb.has_id alarm_id r
                then AlarmDb.write_timestamp now (edited_row h m d e l s r)
                else r) t.



(** All six blocks of [edit_alarm] leave [success] alone. *)
Definition blocks_ok (alarm_id : Z) (h m d e l s : pyval)
    (t : list AlarmDb.Row) : bool :=
  block_ok alarm_id AlarmDb.probe_hour h t
  && block_ok alarm_id AlarmDb.probe_minute m t
  && block_ok alarm_id AlarmDb.probe_days d t
  && block_ok alarm_id AlarmDb.probe_enabled e t
  && block_ok alarm_id AlarmDb.probe_label l t
  && block_ok alarm_id AlarmDb.probe_station_id s t.

(** *** AlarmManager: the other operations *)
Module AlarmManagerOps.
Import AlarmThread AlarmManager.

(** The loop [for i in xrange(len(active_alarms) - 1, -1, -1)] of
    [get_all_active_alarms], from index [n - 1] down to 0: an alarm without
    repeat day is deleted from the list. *)
Fixpoint drop_dayless (n : nat) (active_alarms : list (option AlarmItem))
  : outcome (list (option AlarmItem)) :=
  match n with
  | O => Returned active_alarms
  | S i =>
      match active_alarms !! i with
      | Some (Some alarm) =>
          if negb (any_day_enabled alarm)
          then drop_dayless i (delete i active_alarms)
          else drop_dayless i active_alarms
      | Some None => Raised AttributeError
      | None => Raised IndexError
      end
  end.

Definition get_all_active_alarms (db : AlarmDb.Db)
  : outcome (list (option AlarmItem)) :=
  match AlarmDbOps.get_all_enabled_alarms (AlarmDb.alarms_table db) with
  | Returned active_alarms =>
      match active_alarms with
      | [] => Returned []
      | _ => drop_dayless (length active_alarms) active_alarms
      end
  | r => r
  end.

(** [alarm.next_alert = alarm.minutes_to_alert(...)] for every alarm: the
    alarms paired with the value attached to them. *)
Fixpoint attach_next_alert (hour_ minute_ weekday : Z)
    (all_alarms : list (option AlarmItem))
  : outcome (list (AlarmItem * option Z)) :=
  match all_alarms with
  | [] => Returned []
  | None :: _ => Raised AttributeError
  | Some alarm :: rest =>
      match minutes_to_alert alarm hour_ minute_ weekday with
      | Returned next_alert =>
          match attach_next_alert hour_ minute_ weekday rest with
          | Returned l => Returned ((alarm, next_alert) :: l)
          | Raised e => Raised e
          | OutOfFuel => OutOfFuel
          end
      | Raised e => Raised e
      | OutOfFuel => OutOfFuel
      end
  end.

(** [<] on the sort keys, which are integers or [None]; Python 2 puts
    [None] before every number. *)
Definition key_lt (x y : option Z) : bool :=
  match x, y with
  | None, Some _ => true
  | Some a, Some b => a <? b
  | _, _ => false
  end.

(** The builtin [sorted(..., key=...)] by its contract, an ascending sort
    that keeps entries with equal keys in their order. *)
Fixpoint insert_by_key (x : AlarmItem * option Z)
    (l : list (AlarmItem * option Z)) : list (AlarmItem * option Z) :=
  match l with
  | [] => [x]
  | y :: rest =>
      if key_lt (snd y) (snd x) then y :: insert_by_key x rest
      else x :: y :: rest
  end.

Definition sorted_by_key (l : list (AlarmItem * option Z))
  : list (AlarmItem * option Z) :=
  fold_right insert_by_key [] l.

(** [get_next_alarm]; the three numbers are [tm_hour], [tm_min] and
    [tm_wday] of the current local time. *)
Definition get_next_alarm (hour_ minute_ weekday : Z) (db : AlarmDb.Db)
  : outcome (option AlarmItem) :=
  match get_all_active_alarms db with
  | Returned all_alarms =>
      if (0 <? length all_alarms)%nat then
        match attach_next_alert hour_ minute_ weekday all_alarms with
        | Returned keyed =>
            match sorted_by_key keyed with
            | first :: _ => Returned (Some (fst first))
            | [] => Raised IndexError
            end
        | Raised e => Raised e
        | OutOfFuel => OutOfFuel
        end
      else Returned None
  | Raised e => Raised e
  | OutOfFuel => OutOfFuel
  end.

(** [add_alarm]: build the instance, store it, take the key as its id and
    hand it to [__set_alarm_thread]. *)
Definition add_alarm (now : N)
    (hour_ minute_ days enabled_ label_ timestamp_ station_id_ : pyval)
    (m : Manager) : outcome (option Z) * Manager :=
  match AlarmItem_new hour_ minute_ days enabled_ label_ timestamp_ PyNone
          station_id_ with
  | Returned (Some alarm) =>
      let db := alarmdb m in
      let '(alarm, t, key) :=
        AlarmDbOps.add_alarm now alarm (AlarmDb.alarms_table db) in
      let m1 := with_db (AlarmDb.mkDb t (AlarmDb.offset_alert_time db)) m in
      let alarm := set_id (PyInt key) alarm in
      match id_ alarm with
      | Some k => (Returned (Some k), snd (set_alarm_thread alarm m1))
      | None => (Returned None, m1)
      end
  | Returned None => (Returned None, m)
  | Raised e => (Raised e, m)
  | OutOfFuel => (OutOfFuel, m)
  end.

(** [load_dummy_alarms]: two alarms that are not enabled; [now] and [now']
    are the times of the two calls. [add_alarm]'s default station is 1. *)
Definition load_dummy_alarms (now now' : N) (m : Manager) : Manager :=
  let m1 :=
    snd (add_alarm now (PyInt 7) (PyInt 10)
           (PyTuple [PyBool true; PyBool true; PyBool true; PyBool true;
                     PyBool true; PyBool false; PyBool false])
           (PyBool false) (PyStr "one") PyNone (PyInt 1) m) in
  snd (add_alarm now' (PyInt 10) (PyInt 30)
         (PyTuple [PyBool false; PyBool false; PyBool false; PyBool false;
                   PyBool false; PyBool true; PyBool true])
         (PyBool false) (PyStr "two") PyNone (PyInt 1) m1).

(** The loop [for alarm in alarms: self.__set_alarm_thread(alarm)]; an
    entry that is [None] has no [id_]. *)
Fixpoint set_each (alarms : list (option AlarmItem)) (m : Manager)
  : outcome Manager :=
  match alarms with
  | [] => Returned m
  | None :: _ => Raised AttributeError
  | Some alarm :: rest => set_each rest (snd (set_alarm_thread alarm m))
  end.

(** [__init__], for the database the class is bound to: an empty thread
    list, the dummy alarms if the table is empty, then a thread for every
    active alarm. *)
Definition init (now now' : N) (db : AlarmDb.Db) (lag : nat -> nat)
  : outcome Manager :=
  let m := mkManager db [] 0 lag in
  let m :=
    if AlarmDbOps.get_number_of_alarms (AlarmDb.alarms_table (alarmdb m)) =? 0
    then load_dummy_alarms now now' m
    else m in
  match get_all_active_alarms (alarmdb m) with
  | Returned alarms => set_each alarms m
  | Raised e => Raised e
  | OutOfFuel => OutOfFuel
  end.

(** [delete_alarm]: the thread is asked to stop first; the row is deleted
    whatever came of that. *)
Definition delete_alarm (alarm_id : Z) (m : Manager) : bool * Manager :=
  let m1 := snd (stop_alarm_thread (Some alarm_id) m) in
  let db := alarmdb m1 in
  let '(t, success) :=
    AlarmDbOps.delete_alarm alarm_id (AlarmDb.alarms_table db) in
  (success, with_db (AlarmDb.mkDb t (AlarmDb.offset_alert_time db)) m1).

(** One pass [for i in xrange(len(self.__alarm_threads) - 1, -1, -1)] of
    [__stop_all_alarm_threads]: threads that have ended are deleted, a live
    one sets [continue_trying]. *)
Fixpoint reap (n : nat) (continue_trying : bool) (l : list Thread)
  : bool * list Thread :=
  match n with
  | O => (continue_trying, l)
  | S i =>
      match l !! i with
      | Some t =>
          if isAlive t then reap i true l
          else reap i continue_trying (delete i l)
      | None => (continue_trying, l)
      end
  end.

(** 15000 ms in steps of 10 ms. *)
Definition stop_all_polls : nat := 1500.

(** [while continue_trying and (milliseconds_passed < 15000)]. *)
Fixpoint reap_until (fuel : nat) (continue_trying : bool)
    (milliseconds_passed : Z) (l : list Thread) : list Thread :=
  match fuel with
  | O => l
  | S fuel' =>
      if continue_trying && (milliseconds_passed <? 15000) then
        let '(continue_trying, l) := reap (length l) false l in
        reap_until fuel' continue_trying (milliseconds_passed + 10)
          (map sleep_10ms l)
      else l
  end.

(** [__stop_all_alarm_threads]: every thread is asked to stop, then the
    list is swept until it is empty or 15 s have passed. *)
Definition stop_all_alarm_threads (m : Manager) : bool * Manager :=
  let l := reap_until stop_all_polls true 0 (map stop (alarm_threads m)) in
  (match l with [] => true | _ => false end, with_threads l m).

(** [delete_all_alarms]: the table is emptied whatever came of stopping
    the threads. *)
Definition delete_all_alarms (m : Manager) : bool * Manager :=
  let '(thread_success, m1) := stop_all_alarm_threads m in
  let db := alarmdb m1 in
  let '(t, db_success) :=
    AlarmDbOps.delete_all_alarms (AlarmDb.alarms_table db) in
  (if thread_success && db_success then true else false,
   with_db (AlarmDb.mkDb t (AlarmDb.offset_alert_time db)) m1).

(** [get_running_alarms]: after the self test, the stored alarm of every
    registered thread ([None] where there is none). *)
Fixpoint alarms_of_threads (t : list AlarmDb.Row) (l : list Thread)
  : outcome (list (option AlarmItem)) :=
  match l with
  | [] => Returned []
  | alarm_thread :: rest =>
      match
        match get_id alarm_thread with
        | Some k => AlarmDb.get_alarm k t
        | None => Returned None
        end
      with
      | Returned entry =>
          match alarms_of_threads t rest with
          | Returned alarm_list => Returned (entry :: alarm_list)
          | Raised e => Raised e
          | OutOfFuel => OutOfFuel
          end
      | Raised e => Raised e
      | OutOfFuel => OutOfFuel
      end
  end.

Definition get_running_alarms (m : Manager)
  : outcome (list (option AlarmItem)) * Manager :=
  match check_threads_state m with
  | (Returned _, m1) =>
      (alarms_of_threads (AlarmDb.alarms_table (alarmdb m1)) (alarm_threads m1),
       m1)
  | (Raised e, m1) => (Raised e, m1)
  | (OutOfFuel, m1) => (OutOfFuel, m1)
  end.

End AlarmManagerOps.

(** * Properties *)

(** ** Next alert *)

Lemma any_day_enabled_false (a : AlarmItem) :
  any_day_enabled a = false ->
  get_repeat a = [false; false; false; false; false; false; false].
Proof.
  destruct a as [i h m mo tu we th fr sa su en l ts st].
  unfold any_day_enabled, get_repeat; simpl.
  destruct mo, tu, we, th, fr, sa, su; simpl; congruence.
Qed.

Lemma weekday_cases (wd : Z) :
  0 <= wd <= 6 -> wd = 0 \/ wd = 1 \/ wd = 2 \/ wd = 3 \/ wd = 4 \/ wd = 5 \/ wd = 6.
Proof. lia. Qed.

Ltac each_weekday H :=
  apply weekday_cases in H;
  destruct H as [H | [H | [H | [H | [H | [H | H]]]]]]; subst.

(** C7: for an alarm none of whose seven repeat flags is set,
    [minutes_to_alert] returns [None] from every reference weekday 0..6,
    whatever the alarm's time and the reference hour and minute are. *)
Theorem minutes_to_alert_no_day (a : AlarmItem) (h m wd : Z) :
  any_day_enabled a = false -> 0 <= wd <= 6 ->
  minutes_to_alert a h m wd = Returned None.
Proof.
  intros Hnone Hwd. apply any_day_enabled_false in Hnone.
  destruct a as [i ah am mo tu we th fr sa su en l ts st].
  unfold get_repeat in Hnone; simpl in Hnone.
  injection Hnone as -> -> -> -> -> -> ->.
  each_weekday Hwd; reflexivity.
Qed.

Lemma minutes_to_alert_no_day_witness :
  minutes_to_alert
    (an_alarm 7 0 false false false false false false false true) 7 1 0
  = Returned None.
Proof.
  apply (minutes_to_alert_no_day
           (an_alarm 7 0 false false false false false false false true) 7 1 0);
    [reflexivity | lia].
Defined.

Ltac split_if :=
  match goal with
  | |- context [if ?b && _ then _ else _] => is_var b; destruct b; simpl
  | |- context [if ?b then _ else _] => is_var b; destruct b; simpl
  | |- context [if ?x >=? ?y then _ else _] =>
      destruct (Z.geb_spec x y); simpl
  | |- context [if ?x >? ?y then _ else _] =>
      destruct (Z.gtb_spec x y); simpl
  end.

(** C1: for an alarm with hour in 0..23, minute in 0..59 and at least one
    repeat flag set, and a reference hour in 0..23, minute in 0..59 and
    weekday in 0..6, [minutes_to_alert] returns an integer between 0 and
    10079 (7 * 1440 - 1). *)
Theorem minutes_to_alert_range (a : AlarmItem) (h m wd : Z) :
  valid_time a -> any_day_enabled a = true ->
  0 <= h <= 23 -> 0 <= m <= 59 -> 0 <= wd <= 6 ->
  exists n, minutes_to_alert a h m wd = Returned (Some n) /\ 0 <= n <= 10079.
Proof.
  intros [Hh Hm] Hany Hrh Hrm Hwd.
  destruct a as [i ah am mo tu we th fr sa su en l ts st].
  unfold any_day_enabled, get_repeat in Hany. simpl in *.
  unfold minutes_to_alert, minutes_to_alert_fuel, one_day_minutes, get_repeat.
  each_weekday Hwd; simpl;
    repeat split_if; try discriminate;
    unfold one_day_minutes;
    first [ exfalso; lia | eexists; (split; [reflexivity | lia]) ].
Qed.

Lemma minutes_to_alert_range_witness :
  exists n,
    minutes_to_alert
      (an_alarm 7 0 true false false false false false false true) 7 1 0
    = Returned (Some n)
    /\ 0 <= n <= 10079.
Proof.
  apply (minutes_to_alert_range
           (an_alarm 7 0 true false false false false false false true) 7 1 0);
    [unfold valid_time; simpl; lia | reflexivity | lia | lia | lia].
Defined.

(** C8: the boundary values. An alarm at 07:00 repeating on Monday only
    is 0 minutes away from Monday 07:00 and 10079 minutes away from Monday
    07:01; an alarm at 00:00 repeating on Monday only is 1 minute away from
    Sunday (weekday 6) 23:59. *)
Theorem minutes_to_alert_boundaries :
  let monday_only h := an_alarm h 0 true false false false false false false true in
  minutes_to_alert (monday_only 7) 7 0 0 = Returned (Some 0)
  /\ minutes_to_alert (monday_only 7) 7 1 0 = Returned (Some 10079)
  /\ minutes_to_alert (monday_only 0) 23 59 6 = Returned (Some 1).
Proof. repeat split. Qed.

Lemma week_scan_more_fuel (fuel : nat) (a : AlarmItem) (adm rdm wd day c : Z) (r : option Z) :
  week_scan fuel a adm rdm wd day c = Returned r ->
  week_scan (S fuel) a adm rdm wd day c = Returned r.
Proof.
  revert day c. induction fuel as [|fuel IH]; intros day c; [discriminate|].
  intros H. simpl in H. change (week_scan (S (S fuel)) a adm rdm wd day c) with
    (if day =? wd then Returned None
      else match tuple_index (get_repeat a) day with
        | None => Raised IndexError
        | Some true =>
            let minutes_difference := c * one_day_minutes in
            if adm >=? rdm
            then Returned (Some (minutes_difference + (adm - rdm)))
            else Returned (Some (minutes_difference - (rdm - adm)))
        | Some false =>
            week_scan (S fuel) a adm rdm wd (if day + 1 >? 6 then 0 else day + 1) (c + 1)
        end).
  destruct (day =? wd); [exact H|].
  destruct (tuple_index (get_repeat a) day) as [[|]|]; try exact H.
  apply IH. exact H.
Qed.

(** A reference weekday counted from the end of the tuple is accepted by
    the indexing, but the scan then never comes back to it. *)
Lemma week_scan_negative_weekday (fuel : nat) (a : AlarmItem) (adm rdm wd day c : Z) :
  any_day_enabled a = false -> wd < 0 -> 0 <= day <= 6 ->
  week_scan fuel a adm rdm wd day c = OutOfFuel.
Proof.
  intros Hnone Hwd. apply any_day_enabled_false in Hnone.
  revert day c. induction fuel as [|fuel IH]; intros day c Hday; [reflexivity|].
  simpl. destruct (Z.eqb_spec day wd); [lia|].
  rewrite Hnone.
  assert (Hnext : 0 <= (if day + 1 >? 6 then 0 else day + 1) <= 6)
    by (destruct (Z.gtb_spec (day + 1) 6); lia).
  each_weekday Hday; simpl; apply IH; simpl; lia.
Qed.

(** ** Shifted alarms *)

Lemma reduce_high_done (modulus : Z) (st : Z * Z) :
  0 < modulus -> fst (reduce_high 1 modulus st) < modulus.
Proof.
  intros Hm. simpl. destruct (Z.geb_spec (fst st) modulus); simpl.
  - apply Z.mod_pos_bound; lia.
  - lia.
Qed.

Lemma raise_low_done (fuel : nat) (modulus : Z) (st : Z * Z) :
  0 < modulus -> (Z.to_nat (- fst st) <= fuel)%nat ->
  0 <= fst (raise_low fuel modulus st).
Proof.
  intros Hm. revert st. induction fuel as [|fuel IH]; intros st Hf; simpl.
  - lia.
  - destruct (Z.ltb_spec (fst st) 0); [|lia].
    apply IH. simpl. lia.
Qed.

Lemma normalise_div_mod (modulus value : Z) :
  0 < modulus -> - modulus <= value < 2 * modulus ->
  normalise modulus value = (value mod modulus, value / modulus).
Proof.
  intros Hm Hv. unfold normalise. simpl reduce_high.
  destruct (Z.geb_spec value modulus) as [Hge | Hlt]; simpl fst.
  - assert (Hq : value / modulus = 1) by (symmetry; apply Z.div_unique with (value - modulus); lia).
    pose proof (Z.mod_pos_bound value modulus Hm) as Hb.
    replace (Z.to_nat (- (value mod modulus))) with O by lia.
    simpl. now rewrite Hq.
  - destruct (Z.ltb_spec value 0) as [Hneg | Hpos].
    + assert (Hq : value / modulus = -1)
        by (symmetry; apply Z.div_unique with (value + modulus); lia).
      assert (Hr : value mod modulus = value + modulus)
        by (symmetry; apply Z.mod_unique with (-1); lia).
      destruct (Z.to_nat (- value)) as [|n] eqn:En; [lia|].
      simpl. destruct (Z.ltb_spec value 0); [|lia]. simpl.
      rewrite Hq, Hr.
      destruct n; simpl; [reflexivity|].
      destruct (Z.ltb_spec (value + modulus) 0); [lia | reflexivity].
    + replace (Z.to_nat (- value)) with O by lia. simpl.
      rewrite Z.mod_small, Z.div_small by lia. reflexivity.
Qed.

Lemma eqb_bool_refl (b : bool) : Bool.eqb b b = true.
Proof. now destruct b. Qed.

(** The constructor on arguments of the right types and ranges builds the
    instance with exactly these fields. *)
Lemma AlarmItem_new_plain (h m : Z) (mo tu we th fr sa su en : bool) (l : string) :
  0 <= h < 24 -> 0 <= m < 60 ->
  AlarmItem_new (PyInt h) (PyInt m)
    (PyTuple (map PyBool [mo; tu; we; th; fr; sa; su])) (PyBool en) (PyStr l)
    PyNone PyNone PyNone
  = Returned (Some (mkAlarmItem None h m mo tu we th fr sa su en l None None)).
Proof.
  intros Hh Hm. unfold AlarmItem_new, set_hour, set_minute, set_repeat. simpl.
  assert (E1 : (0 <=? h) && (h <? 24) = true) by lia.
  assert (E2 : (0 <=? m) && (m <? 60) = true) by lia.
  rewrite E1, E2. simpl.
  unfold py_ne; simpl.
  rewrite !Z.eqb_refl, !eqb_bool_refl, String.eqb_refl. reflexivity.
Qed.

Lemma AlarmItem_new_typed (h m : Z) (mo tu we th fr sa su en : bool) (l : string) :
  0 <= h < 24 -> 0 <= m < 60 ->
  AlarmItem_new (PyInt h) (PyInt m)
    (PyTuple [PyBool mo; PyBool tu; PyBool we; PyBool th; PyBool fr;
              PyBool sa; PyBool su]) (PyBool en) (PyStr l)
    PyNone PyNone PyNone
  = Returned (Some (mkAlarmItem None h m mo tu we th fr sa su en l None None)).
Proof. apply AlarmItem_new_plain. Qed.

Ltac flag_of H := cbn in H; injection H as H; subst.

Ltac shifted_by q :=
  match goal with
  | |- _ = _ mod _ => idtac
  | |- _ mod _ = _ => symmetry
  end;
  apply Z.mod_unique with q; unfold one_day_minutes; lia.

Ltac on_day x Hf :=
  exists x; split; [lia | split; [cbn; first [exact Hf | reflexivity] | reflexivity]].

Ltac some_day tac :=
  first [tac 0 | tac 1 | tac 2 | tac 3 | tac 4 | tac 5 | tac 6].

(** C10: for a valid alarm and an integer [min_difference] between -59
    and 59, [diff_alarm] returns a valid alarm whose weekly trigger instants
    are those of the original moved by [min_difference] minutes modulo
    10080, with the same enabled state and with id and timestamp unset; for
    a value that is no integer or lies outside -59..59 it returns [None]. *)
Theorem diff_alarm_shifts_week (a : AlarmItem) (v : pyval) :
  valid_time a ->
  (isinstance_int v = true /\ -59 <= int_value v <= 59 ->
   exists a',
     diff_alarm v a = Returned (Some a')
     /\ valid_time a'
     /\ (forall t, fires_at a' t <->
                   exists t0, fires_at a t0 /\ t = (t0 + int_value v) mod 10080)
     /\ enabled a' = enabled a /\ id_ a' = None /\ timestamp a' = None)
  /\ (isinstance_int v = false \/ int_value v < -59 \/ 59 < int_value v ->
      diff_alarm v a = Returned None).
Proof.
  intros [Hh Hm]. split.
  - intros [Hint Hd]. unfold diff_alarm. rewrite Hint. simpl negb.
    assert (Hrange : (-60 <? int_value v) && (int_value v <? 60) = true) by lia.
    rewrite Hrange. simpl negb. cbv iota.
    set (d := int_value v) in *.
    rewrite (normalise_div_mod 60) by lia.
    pose proof (Z.div_mod (minute a + d) 60 ltac:(lia)) as Em.
    pose proof (Z.mod_pos_bound (minute a + d) 60 ltac:(lia)) as Bm.
    set (e := (minute a + d) / 60) in *.
    set (nm := (minute a + d) mod 60) in *.
    rewrite (normalise_div_mod 24) by lia.
    pose proof (Z.div_mod (hour a + e) 24 ltac:(lia)) as Eh.
    pose proof (Z.mod_pos_bound (hour a + e) 24 ltac:(lia)) as Bh.
    set (k := (hour a + e) / 24) in *.
    set (nh := (hour a + e) mod 24) in *.
    clearbody d e nm k nh.
    destruct a as [i h m mo tu we th fr sa su en l ts st].
    simpl in *.
    assert (Hk : k = -1 \/ k = 0 \/ k = 1) by lia.
    destruct Hk as [-> | [-> | ->]];
      unfold rotate_days, get_repeat; simpl;
      rewrite AlarmItem_new_typed by lia;
      (eexists; split; [reflexivity|]);
      (split; [unfold valid_time; simpl; lia|]);
      (split; [|simpl; auto]);
      intros t; unfold fires_at, get_repeat; simpl;
      (split;
       [ intros (day & Hday & Hf & ->); each_weekday Hday; flag_of Hf;
         some_day ltac:(fun x =>
           exists (x * one_day_minutes + h * 60 + m);
           split; [on_day x (eq_refl (Some true))
                  | first [shifted_by 0 | shifted_by 1 | shifted_by (-1)]])
       | intros (t0 & (day & Hday & Hf & ->) & ->); each_weekday Hday;
         flag_of Hf;
         some_day ltac:(fun x =>
           exists x; split; [lia | split; [cbn; reflexivity|]];
           first [shifted_by 0 | shifted_by 1 | shifted_by (-1)]) ]).
  - intros Hbad. unfold diff_alarm.
    destruct (isinstance_int v); simpl; [|reflexivity].
    destruct Hbad as [Hbad | Hbad]; [discriminate|].
    assert (Hrange : (-60 <? int_value v) && (int_value v <? 60) = false) by lia.
    now rewrite Hrange.
Qed.

Lemma diff_alarm_shifts_week_witness :
  let a := an_alarm 23 30 true false false false false false true true in
  (exists a',
     diff_alarm (PyInt 45) a = Returned (Some a')
     /\ valid_time a'
     /\ (forall t, fires_at a' t <->
                   exists t0, fires_at a t0 /\ t = (t0 + 45) mod 10080)
     /\ enabled a' = enabled a /\ id_ a' = None /\ timestamp a' = None)
  /\ diff_alarm (PyInt 60) a = Returned None.
Proof.
  intros a.
  assert (Hvalid : valid_time a) by (unfold valid_time; simpl; lia).
  split.
  - apply (proj1 (diff_alarm_shifts_week a (PyInt 45) Hvalid)).
    split; [reflexivity | simpl; lia].
  - apply (proj2 (diff_alarm_shifts_week a (PyInt 60) Hvalid)).
    right; right; simpl; lia.
Defined.

(** ** Construction and storage edits *)

(** *** Accessors *)

Lemma set_hour_refuses (v : pyval) (a : AlarmItem) :
  isinstance_int v = false \/ int_value v < 0 \/ 24 <= int_value v ->
  set_hour v a = a.
Proof.
  intros H. unfold set_hour. destruct (isinstance_int v); [|reflexivity].
  destruct H as [H|H]; [discriminate|].
  assert (E : (0 <=? int_value v) && (int_value v <? 24) = false) by lia.
  now rewrite E.
Qed.

Lemma set_minute_refuses (v : pyval) (a : AlarmItem) :
  isinstance_int v = false \/ int_value v < 0 \/ 60 <= int_value v ->
  set_minute v a = a.
Proof.
  intros H. unfold set_minute. destruct (isinstance_int v); [|reflexivity].
  destruct H as [H|H]; [discriminate|].
  assert (E : (0 <=? int_value v) && (int_value v <? 60) = false) by lia.
  now rewrite E.
Qed.

Lemma set_enabled_refuses (v : pyval) (a : AlarmItem) :
  isinstance_bool v = false -> set_enabled v a = a.
Proof. intros H. unfold set_enabled. now rewrite H. Qed.

Lemma set_repeat_refuses (items : list pyval) (a : AlarmItem) :
  length items <> 7%nat \/ forallb isinstance_bool items = false ->
  set_repeat (PyTuple items) a = Returned a.
Proof.
  intros H. unfold set_repeat. simpl.
  destruct (Nat.eqb_spec (length items) 7) as [E|E]; [|reflexivity].
  destruct H as [H|H]; [contradiction|]. now rewrite H.
Qed.

(** C9: a refused value leaves the field as it was, and the constructor is
    documented to return [None] for invalid data. It does not always:
    [__new__] recognises a refused argument by comparing the field with it
    afterwards, and [enabled=0] is refused by the accessor (it is no bool)
    yet equal to the [False] the field started with, so [AlarmItem(0, 0,
    enabled=0)] returns an instance. *)
Theorem new_returns_instance_for_refused_enabled :
  (forall a, set_enabled (PyInt 0) a = a)
  /\ AlarmItem_new (PyInt 0) (PyInt 0) default_days (PyInt 0) (PyStr "")
       PyNone PyNone PyNone
     = Returned (Some blank).
Proof. split; reflexivity. Qed.

(** The same happens for repeat days given as seven zeros, and [days=None]
    does not reach the comparison at all. *)
Lemma new_other_refused_arguments :
  AlarmItem_new (PyInt 0) (PyInt 0)
    (PyTuple [PyInt 0; PyInt 0; PyInt 0; PyInt 0; PyInt 0; PyInt 0; PyInt 0])
    (PyBool false) (PyStr "") PyNone PyNone PyNone
  = Returned (Some blank)
  /\ AlarmItem_new (PyInt 0) (PyInt 0) PyNone (PyBool true) (PyStr "")
       PyNone PyNone PyNone
     = Raised TypeError.
Proof. split; reflexivity. Qed.

(** *** edit_alarm *)

(** C5, as stated, fails: [edit_alarm(1, hour=11, minute=99)] on the stored
    alarm 13:35 reports failure, but hour 11 has been written. *)
Lemma edit_alarm_not_all_or_nothing : ~ edits_all_or_nothing.
Proof.
  intros H.
  specialize (H 100 1 (PyInt 11) (PyInt 99) PyNone PyNone PyNone PyNone [the_row]).
  assert (Href : some_field_refused (PyInt 11) (PyInt 99) PyNone PyNone PyNone PyNone).
  { right; left. split; [discriminate | reflexivity]. }
  specialize (H Href). vm_compute in H. discriminate.
Qed.

Lemma set_repeat_returns (d : pyval) (a : AlarmItem) :
  (exists items, py_items d = Some items) ->
  exists a', set_repeat d a = Returned a'.
Proof.
  intros [items Hi]. unfold set_repeat. rewrite Hi.
  destruct (length items =? 7)%nat; [|eauto].
  destruct (forallb isinstance_bool items); [|eauto].
  destruct (map bool_value items) as [|? [|? [|? [|? [|? [|? [|? [|? ?]]]]]]]];
    eauto.
Qed.

Lemma AlarmItem_new_returns (h m d e l ts i s : pyval) :
  (exists items, py_items d = Some items) ->
  exists o, AlarmItem_new h m d e l ts i s = Returned o.
Proof.
  intros Hd. unfold AlarmItem_new.
  destruct (set_repeat_returns d (set_minute m (set_hour h blank)) Hd) as [a' ->].
  match goal with |- context [if ?c then _ else _] => destruct c end; eauto.
Qed.

Lemma default_days_sized : exists items, py_items default_days = Some items.
Proof. eexists; reflexivity. Qed.


Section EditField.
Import AlarmDb.
Variable alarm_id : Z.

Lemma upd_same (t : list Row) : upd alarm_id (fun r => r) t = t.
Proof.
  unfold upd. induction t as [|r t IH]; simpl; [reflexivity|].
  rewrite IH. now destruct (has_id alarm_id r).
Qed.

Lemma upd_upd (W1 W2 : Row -> Row) (t : list Row) :
  keeps_id W1 -> upd alarm_id W2 (upd alarm_id W1 t) = upd alarm_id (fun r => W2 (W1 r)) t.
Proof.
  intros K. unfold upd. rewrite map_map. apply map_ext. intros r.
  destruct (has_id alarm_id r) eqn:E; [|now rewrite E].
  unfold has_id in *. now rewrite K, E.
Qed.

Lemma existsb_upd (W : Row -> Row) (t : list Row) :
  keeps_id W -> existsb (has_id alarm_id) (upd alarm_id W t) = existsb (has_id alarm_id) t.
Proof.
  intros K. unfold upd. induction t as [|r t IH]; simpl; [reflexivity|].
  rewrite IH. f_equal. unfold has_id.
  destruct (row_id r =? alarm_id) eqn:E; [now rewrite K, E | now rewrite E].
Qed.

Lemma written_keeps_id probe write v :
  (forall i, keeps_id (write i)) -> keeps_id (written probe write v).
Proof.
  intros K r. unfold written. destruct (is_none v); [reflexivity|].
  destruct (probe v) as [[i|]| |]; try reflexivity. apply K.
Qed.

Lemma edit_field_returned probe write v t success :
  v = PyNone \/ (exists o, probe v = Returned o) ->
  edit_field alarm_id v probe write (t, Returned success)
  = (upd alarm_id (written probe write v) t, Returned (success && block_ok alarm_id probe v t)).
Proof.
  intros Hv. unfold edit_field, block_ok, written.
  destruct (is_none v) eqn:En.
  - rewrite upd_same. now rewrite andb_true_r.
  - destruct Hv as [-> | [o Ho]]; [discriminate|]. rewrite Ho.
    destruct o as [i|]; simpl.
    + unfold update. fold (upd alarm_id (write i) t).
      destruct (existsb (has_id alarm_id) t), success; reflexivity.
    + rewrite upd_same. now rewrite andb_false_r.
Qed.

Lemma refused_block probe v t : refused probe v -> block_ok alarm_id probe v t = false.
Proof.
  intros [Hn Hp]. unfold block_ok. rewrite Hp.
  destruct v; try reflexivity. contradiction.
Qed.


End EditField.

Lemma some_refused_block (alarm_id : Z) (h m d e l s : pyval) (t1 t2 t3 t4 t5 t6 : list AlarmDb.Row) :
  some_field_refused h m d e l s ->
  true && block_ok alarm_id AlarmDb.probe_hour h t1
  && block_ok alarm_id AlarmDb.probe_minute m t2
  && block_ok alarm_id AlarmDb.probe_days d t3
  && block_ok alarm_id AlarmDb.probe_enabled e t4
  && block_ok alarm_id AlarmDb.probe_label l t5
  && block_ok alarm_id AlarmDb.probe_station_id s t6 = false.
Proof.
  intros [H | [H | [H | [H | [H | H]]]]];
    rewrite (refused_block alarm_id _ _ _ H);
    rewrite ?andb_false_r, ?andb_false_l; reflexivity.
Qed.

Lemma written_keeps_timestamp probe write v r :
  (forall i r, AlarmDb.row_timestamp (write i r) = AlarmDb.row_timestamp r) ->
  AlarmDb.row_timestamp (written probe write v r) = AlarmDb.row_timestamp r.
Proof.
  intros K. unfold written. destruct (is_none v); [reflexivity|].
  destruct (probe v) as [[i|]| |]; try reflexivity. apply K.
Qed.

Lemma edited_row_timestamp (h m d e l s : pyval) (r : AlarmDb.Row) :
  AlarmDb.row_timestamp (edited_row h m d e l s r) = AlarmDb.row_timestamp r.
Proof.
  unfold edited_row.
  rewrite !written_keeps_timestamp by reflexivity. reflexivity.
Qed.

Lemma edit_alarm_refused (now alarm_id : Z) (h m d e l s : pyval)
    (t : list AlarmDb.Row) :
  sized_or_none d ->
  some_field_refused h m d e l s ->
  AlarmDb.edit_alarm now alarm_id h m d e l s t
  = (edited_table alarm_id h m d e l s t, Returned false).
Proof.
  intros Hd Href. unfold AlarmDb.edit_alarm.
  rewrite edit_field_returned
    by (right; apply AlarmItem_new_returns, default_days_sized).
  rewrite edit_field_returned
    by (right; apply AlarmItem_new_returns, default_days_sized).
  rewrite edit_field_returned
    by (destruct Hd as [-> | Hd]; [now left | right; now apply AlarmItem_new_returns]).
  rewrite edit_field_returned
    by (right; apply AlarmItem_new_returns, default_days_sized).
  rewrite edit_field_returned
    by (right; apply AlarmItem_new_returns, default_days_sized).
  rewrite edit_field_returned
    by (right; apply AlarmItem_new_returns, default_days_sized).
  rewrite (some_refused_block alarm_id h m d e l s) by exact Href.
  unfold AlarmDb.stamp.
  rewrite upd_upd by (apply written_keeps_id; intros ? ?; reflexivity).
  rewrite upd_upd
    by (intros r; rewrite !written_keeps_id; try reflexivity;
        intros ? ?; reflexivity).
  rewrite upd_upd
    by (intros r; rewrite !written_keeps_id; try reflexivity;
        intros ? ?; reflexivity).
  rewrite upd_upd
    by (intros r; rewrite !written_keeps_id; try reflexivity;
        intros ? ?; reflexivity).
  rewrite upd_upd
    by (intros r; rewrite !written_keeps_id; try reflexivity;
        intros ? ?; reflexivity).
  reflexivity.
Qed.

Lemma written_refused probe write v r :
  refused probe v -> written probe write v r = r.
Proof.
  intros [Hn Hp]. unfold written. rewrite Hp. now destruct (is_none v).
Qed.

(** C5 (amended): when at least one supplied value is refused by the
    [AlarmItem] constructor (and [days], if supplied, is a sequence),
    [edit_alarm] returns [False] and leaves the timestamp and the columns
    of every refused value as they were; but each supplied value that
    passes is written to the row, so part of the supplied fields may
    persist. The manager's [edit_alarm] passes this result on and leaves
    the thread list alone. *)
Theorem edit_alarm_refused_writes_accepted_fields
    (now alarm_id : Z) (h m d e l s : pyval) (mgr : AlarmManager.Manager) :
  sized_or_none d ->
  some_field_refused h m d e l s ->
  let t := AlarmDb.alarms_table (AlarmManager.alarmdb mgr) in
  AlarmDb.edit_alarm now alarm_id h m d e l s t
  = (edited_table alarm_id h m d e l s t, Returned false)
  /\ (forall r, AlarmDb.row_timestamp (edited_row h m d e l s r)
                = AlarmDb.row_timestamp r)
  /\ (forall probe write v r, refused probe v -> written probe write v r = r)
  /\ AlarmManager.edit_alarm now alarm_id h m d e l s mgr
     = (Returned false,
        AlarmManager.with_db
          (AlarmDb.mkDb (edited_table alarm_id h m d e l s t)
             (AlarmDb.offset_alert_time (AlarmManager.alarmdb mgr))) mgr).
Proof.
  intros Hd Href t.
  pose proof (edit_alarm_refused now alarm_id h m d e l s t Hd Href) as Hedit.
  split; [exact Hedit|]. split; [apply edited_row_timestamp|].
  split; [apply written_refused|].
  unfold AlarmManager.edit_alarm. fold t. rewrite Hedit. reflexivity.
Qed.

Lemma edit_alarm_refused_witness :
  let mgr := sample_manager [the_row] [] in
  AlarmDb.edit_alarm 100 1 (PyInt 11) (PyInt 99) PyNone PyNone PyNone PyNone
    [the_row]
  = (edited_table 1 (PyInt 11) (PyInt 99) PyNone PyNone PyNone PyNone [the_row],
     Returned false)
  /\ AlarmManager.edit_alarm 100 1 (PyInt 11) (PyInt 99) PyNone PyNone PyNone
       PyNone mgr
     = (Returned false,
        AlarmManager.with_db
          (AlarmDb.mkDb
             (edited_table 1 (PyInt 11) (PyInt 99) PyNone PyNone PyNone PyNone
                [the_row]) (-15)) mgr).
Proof.
  intros mgr.
  destruct (edit_alarm_refused_writes_accepted_fields 100 1 (PyInt 11)
              (PyInt 99) PyNone PyNone PyNone PyNone mgr)
    as (Hdb & _ & _ & Hmgr).
  - left. reflexivity.
  - right. left. split; [discriminate | reflexivity].
  - split; [exact Hdb | exact Hmgr].
Defined.

(** ** The thread list *)

Import AlarmThread AlarmManager.

Local Opaque stop_polls.

Lemma stop_polls_value : stop_polls = 300%nat.
Proof. reflexivity. Qed.

(** *** Threads under the manager's sleeps *)

Lemma id_eq_true (x y : option Z) : id_eq x y = true <-> x = y.
Proof.
  destruct x as [a|], y as [b|]; simpl; split; intros H;
    try discriminate; try reflexivity.
  - apply Z.eqb_eq in H. now subst.
  - injection H as ->. apply Z.eqb_refl.
Qed.

Lemma id_eq_sym (x y : option Z) : id_eq x y = id_eq y x.
Proof. destruct x, y; simpl; try reflexivity. apply Z.eqb_sym. Qed.

Lemma ticks_succ (n : nat) (t : Thread) : ticks (S n) t = ticks n (sleep_10ms t).
Proof. unfold ticks. apply Nat.iter_succ_r. Qed.

Lemma sleep_ident (t : Thread) : th_ident (sleep_10ms t) = th_ident t.
Proof.
  unfold sleep_10ms. destruct (th_alive t && negb (th_run t)); [|reflexivity].
  now destruct (th_lag t).
Qed.

Lemma sleep_alarm (t : Thread) : th_alarm (sleep_10ms t) = th_alarm t.
Proof.
  unfold sleep_10ms. destruct (th_alive t && negb (th_run t)); [|reflexivity].
  now destruct (th_lag t).
Qed.

Lemma ticks_ident (n : nat) (t : Thread) : th_ident (ticks n t) = th_ident t.
Proof.
  revert t. induction n as [|n IH]; intros t; [reflexivity|].
  now rewrite ticks_succ, IH, sleep_ident.
Qed.

Lemma ticks_alarm (n : nat) (t : Thread) : th_alarm (ticks n t) = th_alarm t.
Proof.
  revert t. induction n as [|n IH]; intros t; [reflexivity|].
  now rewrite ticks_succ, IH, sleep_alarm.
Qed.

Lemma ticks_get_id (n : nat) (t : Thread) : get_id (ticks n t) = get_id t.
Proof. unfold get_id. now rewrite ticks_alarm. Qed.

(** A thread nobody asked to stop, or one that has ended, does not change
    while the manager sleeps. *)
Lemma sleep_untouched (t : Thread) :
  th_run t = true \/ th_alive t = false -> sleep_10ms t = t.
Proof.
  intros [H | H]; unfold sleep_10ms; rewrite H; simpl;
    [now rewrite andb_false_r | reflexivity].
Qed.

Lemma ticks_untouched (n : nat) (t : Thread) :
  th_run t = true \/ th_alive t = false -> ticks n t = t.
Proof.
  intros H. induction n as [|n IH]; [reflexivity|].
  now rewrite ticks_succ, sleep_untouched.
Qed.

(** A thread asked to stop has ended once its lag is used up. *)
Lemma ticks_ended (n : nat) (t : Thread) :
  th_run t = false -> isAlive t = false \/ (th_lag t < n)%nat ->
  isAlive (ticks n t) = false.
Proof.
  revert t. induction n as [|n IH]; intros t Hrun Hend.
  - destruct Hend as [H | H]; [exact H | lia].
  - rewrite ticks_succ. unfold isAlive in *.
    destruct (th_alive t) eqn:Ea.
    + destruct Hend as [H | H]; [discriminate|].
      unfold sleep_10ms. rewrite Ea, Hrun. simpl.
      destruct (th_lag t) as [|lag] eqn:El.
      * apply IH; simpl; auto.
      * apply IH; simpl; [reflexivity | right; lia].
    + rewrite sleep_untouched by auto. apply IH; auto.
Qed.

(** The waiting loop lets some number of sleeps pass; if the thread is
    still alive afterwards, the whole 3 s were waited. *)
Lemma wait_stopped_ticks (fuel i : nat) (ms : Z) (l : list Thread) :
  exists n : nat,
    (n <= fuel)%nat
    /\ wait_stopped fuel i ms l = map (ticks n) l
    /\ (forall t, l !! i = Some t -> isAlive (ticks n t) = true ->
                  n = fuel \/ 3000 <= ms + 10 * Z.of_nat n).
Proof.
  revert ms l. induction fuel as [|fuel IH]; intros ms l.
  - exists O. split; [lia|]. split; [now rewrite map_id | auto].
  - simpl. destruct (l !! i) as [t|] eqn:Et.
    + destruct (isAlive t && (ms <? 3000)) eqn:Ec.
      * destruct (IH (ms + 10) (map sleep_10ms l)) as (n & Hn & Hw & Hal).
        exists (S n). split; [lia|]. split.
        -- rewrite Hw, map_map. apply map_ext. intros u.
           now rewrite ticks_succ.
        -- intros t' Ht' Halive. injection Ht' as <-.
           rewrite ticks_succ in Halive.
           assert (Hs : map sleep_10ms l !! i = Some (sleep_10ms t))
             by (now rewrite list_lookup_fmap, Et).
           destruct (Hal _ Hs Halive) as [-> | H]; [now left | right; lia].
      * exists O. split; [lia|]. split; [now rewrite map_id|].
        intros t' Ht' Halive. injection Ht' as <-. simpl in Halive.
        rewrite Halive in Ec. simpl in Ec. right. lia.
    + exists O. split; [lia|]. split; [now rewrite map_id|].
      intros t' Ht'. discriminate.
Qed.

Arguments wait_stopped : simpl never.

(** *** Searching and removing in the thread list *)

Lemma find_thread_none (alarm_id : option Z) (k : nat) (l : list Thread) :
  find_thread alarm_id k l = None ->
  forall u, In u l -> id_eq alarm_id (get_id u) = false.
Proof.
  revert k. induction l as [|t l IH]; intros k H u Hu; [contradiction|].
  simpl in H. destruct (id_eq alarm_id (get_id t)) eqn:E; [discriminate|].
  destruct Hu as [<- | Hu]; [exact E | eapply IH; eauto].
Qed.

Lemma find_thread_some (alarm_id : option Z) (k i : nat) (l : list Thread)
    (t : Thread) :
  find_thread alarm_id k l = Some (i, t) ->
  exists l1 l2,
    l = l1 ++ t :: l2 /\ i = (k + length l1)%nat
    /\ id_eq alarm_id (get_id t) = true
    /\ (forall u, In u l1 -> id_eq alarm_id (get_id u) = false).
Proof.
  revert k. induction l as [|x l IH]; intros k H; [discriminate|].
  simpl in H. destruct (id_eq alarm_id (get_id x)) eqn:E.
  - injection H as <- <-. exists [], l. simpl.
    split; [reflexivity|]. split; [lia|]. split; [exact E|]. intros u [].
  - destruct (IH _ H) as (l1 & l2 & -> & -> & Ht & Hl1).
    exists (x :: l1), l2. simpl.
    split; [reflexivity|]. split; [lia|]. split; [exact Ht|].
    intros u [<- | Hu]; auto.
Qed.

Lemma running_no_match (alarm_id : option Z) (l : list Thread) :
  (forall u, In u l -> id_eq alarm_id (get_id u) = false) ->
  running alarm_id l = false.
Proof.
  induction l as [|t l IH]; intros H; [reflexivity|]. simpl.
  rewrite id_eq_sym, (H t) by now left. apply IH. intros u Hu. apply H. now right.
Qed.

Lemma remove_thread_middle (l1 l2 : list Thread) (t : Thread) (ident : nat) :
  th_ident t = ident ->
  (forall u, In u l1 -> th_ident u <> ident) ->
  remove_thread ident (l1 ++ t :: l2) = l1 ++ l2.
Proof.
  intros Ht. induction l1 as [|x l1 IH]; intros H; simpl.
  - now rewrite Ht, Nat.eqb_refl.
  - destruct (Nat.eqb_spec (th_ident x) ident) as [E|E].
    + exfalso. apply (H x); auto. now left.
    + rewrite IH; auto. intros u Hu. apply H. now right.
Qed.

Lemma NoDup_ident_middle (l1 l2 : list Thread) (t : Thread) :
  NoDup (map th_ident (l1 ++ t :: l2)) ->
  forall u, In u l1 -> th_ident u <> th_ident t.
Proof.
  intros Hnd u Hu E. rewrite map_app in Hnd. simpl in Hnd.
  apply NoDup_ListNoDup, NoDup_remove_2 in Hnd. apply Hnd. apply in_or_app. left.
  rewrite <- E. now apply in_map.
Qed.

Lemma NoDup_id_middle (l1 l2 : list Thread) (t : Thread) :
  NoDup (map get_id (l1 ++ t :: l2)) ->
  forall u, In u (l1 ++ l2) -> id_eq (get_id t) (get_id u) = false.
Proof.
  intros Hnd u Hu. rewrite map_app in Hnd. simpl in Hnd.
  apply NoDup_ListNoDup, NoDup_remove_2 in Hnd.
  destruct (id_eq (get_id t) (get_id u)) eqn:E; [|reflexivity].
  apply id_eq_true in E. exfalso. apply Hnd. rewrite E, <- map_app.
  now apply in_map.
Qed.

(** *** The stopping loop *)

Lemma stop_loop_no_match (fuel : nat) (alarm_id : option Z) (i : nat)
    (success : bool) (l : list Thread) :
  (forall j u, (i <= j)%nat -> l !! j = Some u ->
               id_eq alarm_id (get_id u) = false) ->
  stop_loop fuel alarm_id i success l = (success, l).
Proof.
  revert i. induction fuel as [|fuel IH]; intros i H; [reflexivity|].
  simpl. destruct (l !! i) as [u|] eqn:Eu; [|reflexivity].
  rewrite (H i u) by (auto; lia). apply IH. intros j v Hj. apply H. lia.
Qed.

(** Whatever the thread does, the loop ends in one of two ways: the thread
    has ended and is off the list, or it has outlasted the wait and is
    kept, asked to stop. *)
Lemma stop_loop_unique (fuel : nat) (alarm_id : option Z) (i : nat)
    (success : bool) (l1 l2 : list Thread) (t : Thread) :
  (i <= length l1)%nat -> (length l1 - i < fuel)%nat ->
  NoDup (map th_ident (l1 ++ t :: l2)) ->
  id_eq alarm_id (get_id t) = true ->
  (forall u, In u l1 -> id_eq alarm_id (get_id u) = false) ->
  (forall u, In u l2 -> id_eq alarm_id (get_id u) = false) ->
  exists n,
    (isAlive (ticks n (stop t)) = false
     /\ stop_loop fuel alarm_id i success (l1 ++ t :: l2)
        = (true, map (ticks n) (l1 ++ l2)))
    \/ (isAlive (ticks n (stop t)) = true /\ (stop_polls <= n)%nat
        /\ stop_loop fuel alarm_id i success (l1 ++ t :: l2)
           = (false, map (ticks n) (l1 ++ stop t :: l2))).
Proof.
  intros Hi Hfuel Hnd Ht Hl1 Hl2.
  revert i success Hi Hfuel.
  induction fuel as [|fuel IH]; intros i success Hi Hfuel; [lia|].
  simpl. destruct (Nat.eq_dec i (length l1)) as [-> | Hne].
  - rewrite list_lookup_middle by reflexivity. rewrite Ht.
    rewrite insert_app_r_alt by lia. rewrite Nat.sub_diag. simpl.
    destruct (wait_stopped_ticks stop_polls (length l1) 0 (l1 ++ stop t :: l2))
      as (n & Hn & -> & Hal).
    exists n. rewrite map_app. simpl.
    rewrite list_lookup_middle by (now rewrite length_map).
    destruct (isAlive (ticks n (stop t))) eqn:Ea; simpl.
    + right. split; [reflexivity|]. split.
      { destruct (Hal (stop t)) as [-> | H]; auto.
        - now rewrite list_lookup_middle.
        - rewrite stop_polls_value. lia. }
      apply stop_loop_no_match.
      intros j u Hj Hu. rewrite lookup_app_r in Hu
        by (rewrite length_map; lia).
      rewrite length_map in Hu.
      destruct (j - length l1)%nat as [|k] eqn:Ek; [lia|]. simpl in Hu.
      rewrite list_lookup_fmap in Hu.
      destruct (l2 !! k) as [v|] eqn:Ev; [|discriminate].
      injection Hu as <-. rewrite ticks_get_id. apply Hl2.
      apply list_elem_of_In. eapply list_elem_of_lookup_2; eauto.
    + left. split; [reflexivity|].
      rewrite remove_thread_middle.
      * rewrite (map_app (ticks n) l1 l2). apply stop_loop_no_match.
        intros j u Hj Hu. rewrite lookup_app_r in Hu
          by (rewrite length_map; lia).
        rewrite list_lookup_fmap in Hu.
        destruct (l2 !! _) as [v|] eqn:Ev; [|discriminate].
        injection Hu as <-. rewrite ticks_get_id. apply Hl2.
        apply list_elem_of_In. eapply list_elem_of_lookup_2; eauto.
      * now rewrite ticks_ident.
      * intros u Hu. apply in_map_iff in Hu. destruct Hu as (v & <- & Hv).
        rewrite ticks_ident. eapply NoDup_ident_middle; eauto.
  - assert (Hlt : (i < length l1)%nat) by lia.
    rewrite lookup_app_l by exact Hlt.
    destruct (lookup_lt_is_Some_2 l1 i Hlt) as [u Hu]. rewrite Hu.
    rewrite Hl1 by (apply list_elem_of_In; eapply list_elem_of_lookup_2; eauto).
    apply IH; lia.
Qed.

(** The thread with the wanted id, if it ends within the 3 s, is taken
    off the list; the others only grow older by the sleeps in between. *)
Lemma stop_loop_removes (fuel : nat) (alarm_id : option Z) (i : nat)
    (success : bool) (l1 l2 : list Thread) (t : Thread) :
  (i <= length l1)%nat -> (length l1 - i < fuel)%nat ->
  NoDup (map th_ident (l1 ++ t :: l2)) ->
  id_eq alarm_id (get_id t) = true ->
  (forall u, In u l1 -> id_eq alarm_id (get_id u) = false) ->
  (forall u, In u l2 -> id_eq alarm_id (get_id u) = false) ->
  isAlive t = false \/ (th_lag t < stop_polls)%nat ->
  exists n, stop_loop fuel alarm_id i success (l1 ++ t :: l2)
            = (true, map (ticks n) (l1 ++ l2)).
Proof.
  intros Hi Hfuel Hnd Ht Hl1 Hl2 Hend.
  destruct (stop_loop_unique fuel alarm_id i success l1 l2 t)
    as [n [(_ & H) | (Halive & Hn & _)]]; auto.
  - now exists n.
  - rewrite ticks_ended in Halive; [discriminate | reflexivity |].
    destruct Hend as [H | H]; [now left | right; simpl; lia].
Qed.

Lemma stop_alarm_thread_removes (alarm_id : option Z) (m : Manager)
    (l1 l2 : list Thread) (t : Thread) :
  alarm_threads m = l1 ++ t :: l2 ->
  NoDup (map th_ident (l1 ++ t :: l2)) ->
  id_eq alarm_id (get_id t) = true ->
  (forall u, In u (l1 ++ l2) -> id_eq alarm_id (get_id u) = false) ->
  isAlive t = false \/ (th_lag t < stop_polls)%nat ->
  exists n, stop_alarm_thread alarm_id m
            = (true, with_threads (map (ticks n) (l1 ++ l2)) m).
Proof.
  intros El Hnd Ht Hothers Hend. unfold stop_alarm_thread. rewrite El.
  destruct (stop_loop_removes (length (l1 ++ t :: l2)) alarm_id 0 false l1 l2 t)
    as [n Hn]; auto; try lia.
  - rewrite length_app. simpl. lia.
  - intros u Hu. apply Hothers, in_or_app. now left.
  - intros u Hu. apply Hothers, in_or_app. now right.
  - exists n. now rewrite Hn.
Qed.

Lemma stop_alarm_thread_no_match (alarm_id : option Z) (m : Manager) :
  (forall u, In u (alarm_threads m) -> id_eq alarm_id (get_id u) = false) ->
  stop_alarm_thread alarm_id m = (false, with_threads (alarm_threads m) m).
Proof.
  intros H. unfold stop_alarm_thread. rewrite stop_loop_no_match; [reflexivity|].
  intros j u _ Hu. apply H, list_elem_of_In. eapply list_elem_of_lookup_2; eauto.
Qed.

(** *** Reconciling one alarm *)

(** C2, as stated, fails: after the edit of an active alarm whose thread is
    alive, the thread registered for it is the same object as before. *)
Lemma edit_keeps_live_thread_object : ~ edit_replaces_live_thread.
Proof.
  intros H.
  destruct (H (sample_alarm 1 8 true)
              (sample_manager [] [sample_thread 0 1 true 0]) 0%nat
              (sample_thread 0 1 true 0) eq_refl eq_refl eq_refl)
    as (new & Hnew & Hident & _).
  vm_compute in Hnew. injection Hnew as <-. now apply Hident.
Qed.

(** C2 (amended): when [__set_alarm_thread] is given an edited alarm that
    is still active and whose thread is alive, the thread is kept: the same
    object stays registered at its position and alive, it is not asked to
    stop, no thread is created, and its held alarm is replaced in place by
    [edit_alarm]. Only a thread found not alive is replaced, by a newly
    created and started thread at the same position. *)
Theorem set_alarm_thread_edits_live_thread_in_place
    (alarm : AlarmItem) (m : Manager) (i : nat) (old : Thread) :
  find_thread (id_ alarm) 0 (alarm_threads m) = Some (i, old) ->
  is_active alarm = true ->
  (isAlive old = true ->
   set_alarm_thread alarm m
   = (true, with_threads (<[i := AlarmThread.edit_alarm alarm old]> (alarm_threads m)) m)
   /\ alarm_threads (snd (set_alarm_thread alarm m)) !! i
      = Some (AlarmThread.edit_alarm alarm old)
   /\ th_ident (AlarmThread.edit_alarm alarm old) = th_ident old
   /\ isAlive (AlarmThread.edit_alarm alarm old) = true
   /\ th_run (AlarmThread.edit_alarm alarm old) = th_run old
   /\ th_alarm (AlarmThread.edit_alarm alarm old) = alarm
   /\ created (snd (set_alarm_thread alarm m)) = created m)
  /\ (isAlive old = false ->
      alarm_threads (snd (set_alarm_thread alarm m))
      = <[i := launch alarm m]> (alarm_threads m)
      /\ th_ident (launch alarm m) = created m
      /\ isAlive (launch alarm m) = true
      /\ created (snd (set_alarm_thread alarm m)) = S (created m)).
Proof.
  intros Hfind Hact.
  destruct (find_thread_some _ _ _ _ _ Hfind) as (l1 & l2 & El & Ei & Hid & Hl1).
  simpl in Ei. subst i.
  split; intros Halive.
  - assert (Hres : set_alarm_thread alarm m
                   = (true, with_threads
                              (<[length l1 := AlarmThread.edit_alarm alarm old]>
                                 (alarm_threads m)) m)).
    { unfold set_alarm_thread. rewrite Hfind, Hact. simpl.
      unfold isAlive in Halive. now rewrite Halive. }
    rewrite Hres. simpl.
    split; [reflexivity|]. split; [|repeat split; exact Halive].
    rewrite El. apply list_lookup_insert_eq.
    rewrite length_app. simpl. lia.
  - assert (Hres : set_alarm_thread alarm m
                   = (false, mkManager (alarmdb m)
                               (<[length l1 := launch alarm m]> (alarm_threads m))
                               (S (created m)) (lag_of m))).
    { unfold set_alarm_thread. rewrite Hfind, Hact. simpl.
      unfold isAlive in Halive. rewrite Halive. simpl.
      now rewrite list_insert_insert_eq. }
    rewrite Hres. simpl. repeat split.
Qed.

Lemma set_alarm_thread_edits_in_place_witness :
  let alarm := sample_alarm 1 8 true in
  let old := sample_thread 0 1 true 0 in
  let m := sample_manager [] [old] in
  set_alarm_thread alarm m
  = (true, with_threads (<[0%nat := AlarmThread.edit_alarm alarm old]>
                           (alarm_threads m)) m).
Proof.
  intros alarm old m.
  apply (proj1 (set_alarm_thread_edits_live_thread_in_place alarm m 0%nat old
                  eq_refl eq_refl)).
  reflexivity.
Defined.

(** C6, as stated, fails: a thread that outlasts the 3 s
    [__stop_alarm_thread] waits for it is still registered and alive when
    [__set_alarm_thread] returns for the now inactive alarm. *)
Lemma inactive_alarm_may_keep_running : ~ inactive_never_running.
Proof.
  intros H.
  specialize (H (sample_alarm 1 7 false)
                (sample_manager [] [sample_thread 0 1 true 300]) eq_refl).
  vm_compute in H. discriminate.
Qed.

(** C6 (amended): in a thread list without repeated threads or ids, after
    [__set_alarm_thread] returns for an alarm that is not active,
    [is_alarm_running] is false for its id, provided the alarm's thread, if
    there is a live one, ends within the 3 s the manager waits after asking
    it to stop. *)
Theorem set_alarm_thread_inactive_not_running (alarm : AlarmItem) (m : Manager) :
  distinct_threads (alarm_threads m) ->
  is_active alarm = false ->
  (forall t, In t (alarm_threads m) -> get_id t = id_ alarm ->
             isAlive t = true -> (th_lag t < stop_polls)%nat) ->
  is_alarm_running (id_ alarm) (snd (set_alarm_thread alarm m)) = false.
Proof.
  intros [Hident Hids] Hact Hlag.
  unfold set_alarm_thread, is_alarm_running.
  destruct (find_thread (id_ alarm) 0 (alarm_threads m)) as [[i t]|] eqn:Hfind.
  - rewrite Hact. simpl negb. cbv iota. simpl snd.
    destruct (find_thread_some _ _ _ _ _ Hfind) as (l1 & l2 & El & _ & Hid & Hl1).
    rewrite El in Hident, Hids.
    assert (Hothers : forall u, In u (l1 ++ l2) ->
                                id_eq (id_ alarm) (get_id u) = false).
    { intros u Hu. apply id_eq_true in Hid. rewrite Hid.
      eapply NoDup_id_middle; eauto. }
    destruct (stop_alarm_thread_removes (id_ alarm) m l1 l2 t El Hident Hid Hothers)
      as [n Hn].
    { destruct (isAlive t) eqn:Ea; [right | now left].
      apply Hlag; auto.
      - rewrite El. apply in_or_app. right. now left.
      - symmetry. now apply id_eq_true. }
    rewrite Hn. simpl. apply running_no_match.
    intros u Hu. apply in_map_iff in Hu. destruct Hu as (v & <- & Hv).
    rewrite ticks_get_id. now apply Hothers.
  - rewrite Hact. simpl. apply running_no_match.
    now apply (find_thread_none _ _ _ Hfind).
Qed.

Lemma set_alarm_thread_inactive_witness :
  is_alarm_running (Some 1)
    (snd (set_alarm_thread (sample_alarm 1 7 false)
            (sample_manager [] [sample_thread 0 1 true 299])))
  = false.
Proof.
  apply (set_alarm_thread_inactive_not_running (sample_alarm 1 7 false)
           (sample_manager [] [sample_thread 0 1 true 299])).
  - split; apply NoDup_ListNoDup; repeat constructor; simpl; tauto.
  - reflexivity.
  - intros t [<- | []] _ _. rewrite stop_polls_value. simpl. lia.
Defined.

(** *** The consistency check *)

(** C3: every thread without a stored alarm should be stopped and removed
    by one call. With two such threads next to each other in the list
    (ids 10 and 11, neither stored) the recovery loop stops the first,
    which shortens the list it is iterating over, and steps over the
    second: after the call thread 11 is still registered and alive. *)
Theorem check_threads_state_steps_over_orphan :
  let m := sample_manager [sample_row 1 true]
             [sample_thread 0 1 true 0; sample_thread 1 10 true 0;
              sample_thread 2 11 true 0] in
  let m' := snd (check_threads_state m) in
  AlarmDb.get_alarm 10 (AlarmDb.alarms_table (alarmdb m)) = Returned None
  /\ AlarmDb.get_alarm 11 (AlarmDb.alarms_table (alarmdb m)) = Returned None
  /\ fst (check_threads_state m) = Returned false
  /\ map get_id (alarm_threads m') = [Some 1; Some 11]
  /\ is_alarm_running (Some 10) m' = false
  /\ is_alarm_running (Some 11) m' = true.
Proof. vm_compute. repeat split. Qed.

(** C4, as stated, fails: a thread that has ended but belongs to a stored,
    inactive alarm is neither restarted nor treated as an orphan, so the
    thread count stays off and the second call returns false again. *)
Lemma second_check_may_fail : ~ second_check_true.
Proof.
  intros H.
  specialize (H (sample_manager [sample_row 2 false] [sample_thread 0 2 false 0])).
  vm_compute in H. discriminate.
Qed.


Lemma item_of_row_ok (r : AlarmDb.Row) :
  AlarmDb.row_ok r ->
  AlarmDb.item_of_row r = Returned (Some (AlarmDb.item_of r)).
Proof.
  intros (Hid & Hh & Hm & Hts & Hst).
  destruct r as [i h m mo tu we th fr sa su en l ts st]. simpl in *.
  unfold AlarmDb.item_of_row, AlarmDb.item_of, AlarmItem_new, set_hour,
    set_minute, set_repeat; simpl.
  assert (E1 : (0 <=? h) && (h <? 24) = true) by lia.
  assert (E2 : (0 <=? m) && (m <? 60) = true) by lia.
  assert (E3 : (0 <=? ts) = true) by lia.
  assert (E4 : (0 <=? i) = true) by lia.
  rewrite E1, E2. simpl. unfold set_timestamp, set_id. simpl.
  rewrite E3, E4. simpl.
  destruct st as [s|]; simpl.
  - unfold set_station_id. simpl.
    assert (E5 : (0 <=? s) = true) by lia. rewrite E5. simpl.
    unfold py_ne. simpl.
    rewrite !Z.eqb_refl, !eqb_bool_refl, String.eqb_refl. reflexivity.
  - unfold py_ne. simpl.
    rewrite !Z.eqb_refl, !eqb_bool_refl, String.eqb_refl. reflexivity.
Qed.

Lemma get_all_alarms_ok (t : list AlarmDb.Row) :
  Forall AlarmDb.row_ok t ->
  AlarmDb.get_all_alarms t = Returned (map Some (map AlarmDb.item_of t)).
Proof.
  induction 1 as [|r t Hr _ IH]; [reflexivity|].
  simpl. now rewrite (item_of_row_ok r Hr), IH.
Qed.

Lemma instances_some (items : list AlarmItem) : instances (map Some items) = items.
Proof.
  unfold instances. induction items as [|a items IH]; [reflexivity|].
  simpl. f_equal. exact IH.
Qed.

(** *** Facts about [running] *)

Lemma running_first (alarm_id : option Z) (l1 l2 : list Thread) (t : Thread) :
  id_eq alarm_id (get_id t) = true ->
  (forall u, In u l1 -> id_eq alarm_id (get_id u) = false) ->
  running alarm_id (l1 ++ t :: l2) = isAlive t.
Proof.
  intros Ht. induction l1 as [|x l1 IH]; intros H; simpl.
  - now rewrite id_eq_sym, Ht.
  - rewrite id_eq_sym, (H x) by now left. apply IH. intros u Hu. apply H. now right.
Qed.

Lemma running_skip (alarm_id : option Z) (l1 l2 : list Thread) (t : Thread) :
  id_eq alarm_id (get_id t) = false ->
  running alarm_id (l1 ++ t :: l2) = running alarm_id (l1 ++ l2).
Proof.
  intros Ht. induction l1 as [|x l1 IH]; simpl.
  - now rewrite id_eq_sym, Ht.
  - now rewrite IH.
Qed.

Lemma running_swap (alarm_id : option Z) (l1 l2 : list Thread) (t t' : Thread) :
  id_eq alarm_id (get_id t) = false -> id_eq alarm_id (get_id t') = false ->
  running alarm_id (l1 ++ t' :: l2) = running alarm_id (l1 ++ t :: l2).
Proof. intros H H'. now rewrite !running_skip. Qed.

Lemma running_true_split (alarm_id : option Z) (l : list Thread) :
  running alarm_id l = true ->
  exists l1 t l2, l = l1 ++ t :: l2 /\ id_eq alarm_id (get_id t) = true
                  /\ isAlive t = true
                  /\ (forall u, In u l1 -> id_eq alarm_id (get_id u) = false).
Proof.
  induction l as [|x l IH]; intros H; [discriminate|].
  simpl in H. destruct (id_eq (get_id x) alarm_id) eqn:E.
  - exists [], x, l. simpl. rewrite id_eq_sym. repeat split; auto. intros u [].
  - destruct (IH H) as (l1 & t & l2 & -> & Ht & Ha & Hl1).
    exists (x :: l1), t, l2. simpl. repeat split; auto.
    intros u [<- | Hu]; auto. now rewrite id_eq_sym.
Qed.

Lemma find_thread_running (alarm_id : option Z) (k i : nat) (l : list Thread)
    (t : Thread) :
  find_thread alarm_id k l = Some (i, t) -> running alarm_id l = isAlive t.
Proof.
  intros H. destruct (find_thread_some _ _ _ _ _ H) as (l1 & l2 & -> & _ & Ht & Hl1).
  now apply running_first.
Qed.

(** *** Lists without repetition *)

Lemma NoDup_mid {A : Type} (a : A) (l1 l2 : list A) :
  NoDup (l1 ++ a :: l2) <-> NoDup (l1 ++ l2) /\ ~ In a (l1 ++ l2).
Proof. rewrite !NoDup_ListNoDup. apply (NoDup_Add (Add_app a l1 l2)). Qed.

Lemma NoDup_map_inj {A B : Type} (f : A -> B) (l : list A) (x y : A) :
  NoDup (map f l) -> In x l -> In y l -> f x = f y -> x = y.
Proof.
  induction l as [|z l IH]; intros Hnd Hx Hy E; [contradiction|].
  simpl in Hnd. apply NoDup_cons in Hnd. destruct Hnd as [Hz Hnd].
  rewrite list_elem_of_In in Hz.
  destruct Hx as [-> | Hx], Hy as [-> | Hy]; auto.
  - exfalso. apply Hz. rewrite E. now apply in_map.
  - exfalso. apply Hz. rewrite <- E. now apply in_map.
Qed.

Lemma NoDup_map_filter {A B : Type} (f : A -> B) (p : A -> bool) (l : list A) :
  NoDup (map f l) -> NoDup (map f (List.filter p l)).
Proof.
  induction l as [|z l IH]; intros Hnd; [exact Hnd|].
  simpl in Hnd. apply NoDup_cons in Hnd. destruct Hnd as [Hz Hnd].
  simpl. destruct (p z); [|auto]. simpl. apply NoDup_cons. split; [|auto].
  rewrite list_elem_of_In in *. intros Hin. apply Hz.
  apply in_map_iff in Hin. destruct Hin as (x & <- & Hx).
  apply filter_In in Hx. apply in_map. tauto.
Qed.

(** *** One pass of the first loop *)

Lemma check_alarms_step (alarm : AlarmItem) (rest : list (option AlarmItem))
    (pc : bool) (rc : Z) (m : Manager) :
  exists pc',
    check_alarms (Some alarm :: rest) pc rc m
    = check_alarms rest pc' (rc + (if is_active alarm then 1 else 0))
        (check_one alarm m).
Proof.
  simpl. unfold check_one. destruct (is_active alarm).
  - destruct (negb (is_alarm_running (id_ alarm) m)); eauto.
  - rewrite Z.add_0_r. destruct (is_alarm_running (id_ alarm) m); eauto.
Qed.

Lemma in_middle {A : Type} (x a : A) (l1 l2 : list A) :
  In x (l1 ++ a :: l2) <-> x = a \/ In x (l1 ++ l2).
Proof. rewrite !in_app_iff. simpl. intuition auto. Qed.

Lemma thread_ok_next (done todo : list AlarmItem) (a : AlarmItem)
    (next next' : nat) (t : Thread) :
  (next <= next')%nat ->
  (is_active a = false -> id_ a <> get_id t) ->
  NoDup (map id_ (done ++ a :: todo)) ->
  thread_ok done (a :: todo) next t ->
  thread_ok (done ++ [a]) todo next' t.
Proof.
  intros Hle Hne Hnd (Hident & Hrun & a0 & Hin & Hid & Hinact).
  split; [lia|]. split; [exact Hrun|].
  exists a0. rewrite <- app_assoc. simpl. split; [exact Hin|]. split; [exact Hid|].
  intros Ha0. destruct (Hinact Ha0) as ([<- | Htodo] & Halive & Hlag).
  - exfalso. now apply Hne.
  - auto.
Qed.

Lemma id_eq_false (x y : option Z) : id_eq x y = false <-> x <> y.
Proof.
  rewrite <- id_eq_true. destruct (id_eq x y); split; congruence.
Qed.

Lemma running_unique (alarm_id : option Z) (l : list Thread) (u : Thread) :
  NoDup (map get_id l) -> In u l -> get_id u = alarm_id ->
  running alarm_id l = isAlive u.
Proof.
  intros Hnd Hu Hid. apply in_split in Hu. destruct Hu as (l1 & l2 & ->).
  apply running_first.
  - apply id_eq_true. now symmetry.
  - intros v Hv. subst alarm_id. eapply NoDup_id_middle; eauto.
    apply in_or_app. now left.
Qed.

Lemma earlier_alarm_other_id (done todo : list AlarmItem) (a a' : AlarmItem) :
  NoDup (map id_ (done ++ a :: todo)) -> In a' done -> id_ a' <> id_ a.
Proof.
  intros Hnd Hin E. rewrite map_app in Hnd. simpl in Hnd.
  apply NoDup_mid in Hnd. destruct Hnd as [_ Hnot]. apply Hnot.
  apply in_or_app. left. rewrite <- E. now apply in_map.
Qed.

Lemma ticks_all_untouched (n : nat) (l : list Thread) :
  (forall u, In u l -> th_run u = true) -> map (ticks n) l = l.
Proof.
  intros H. induction l as [|u l IH]; [reflexivity|]. simpl.
  rewrite ticks_untouched by (left; apply H; now left).
  f_equal. apply IH. intros v Hv. apply H. now right.
Qed.

Lemma launch_facts (alarm : AlarmItem) (m : Manager) :
  th_ident (launch alarm m) = created m
  /\ th_run (launch alarm m) = true
  /\ isAlive (launch alarm m) = true
  /\ get_id (launch alarm m) = id_ alarm.
Proof. repeat split. Qed.

Lemma set_alarm_thread_dead (alarm : AlarmItem) (m : Manager)
    (l1 l2 : list Thread) (t : Thread) :
  find_thread (id_ alarm) 0 (alarm_threads m) = Some (length l1, t) ->
  alarm_threads m = l1 ++ t :: l2 ->
  is_active alarm = true -> isAlive t = false ->
  snd (set_alarm_thread alarm m)
  = mkManager (alarmdb m) (l1 ++ launch alarm m :: l2) (S (created m)) (lag_of m).
Proof.
  intros Hfind El Hact Hdead. unfold set_alarm_thread.
  rewrite Hfind, Hact. simpl. unfold isAlive in Hdead. rewrite Hdead. simpl.
  rewrite list_insert_insert_eq, El, insert_app_r_alt by lia.
  now rewrite Nat.sub_diag.
Qed.

Lemma set_alarm_thread_new (alarm : AlarmItem) (m : Manager) :
  find_thread (id_ alarm) 0 (alarm_threads m) = None ->
  is_active alarm = true ->
  snd (set_alarm_thread alarm m)
  = mkManager (alarmdb m) (alarm_threads m ++ [launch alarm m])
      (S (created m)) (lag_of m).
Proof.
  intros Hfind Hact. unfold set_alarm_thread. now rewrite Hfind, Hact.
Qed.

Lemma stop_alarm_thread_db (alarm_id : option Z) (m : Manager) :
  alarmdb (snd (stop_alarm_thread alarm_id m)) = alarmdb m.
Proof. unfold stop_alarm_thread. now destruct (stop_loop _ _ _ _ _). Qed.

Lemma set_alarm_thread_db (alarm : AlarmItem) (m : Manager) :
  alarmdb (snd (set_alarm_thread alarm m)) = alarmdb m.
Proof.
  unfold set_alarm_thread.
  destruct (find_thread (id_ alarm) 0 (alarm_threads m)) as [[i t]|];
    destruct (is_active alarm); simpl; try reflexivity.
  - now destruct (th_alive t).
  - apply stop_alarm_thread_db.
Qed.

Section CheckOne.
Variables (done todo : list AlarmItem) (a : AlarmItem) (m : Manager).
Hypothesis Hnd : NoDup (map id_ (done ++ a :: todo)).
Hypothesis Hinv : check_invariant done (a :: todo) m.

Let Hident : NoDup (map th_ident (alarm_threads m)) := proj1 (proj1 Hinv).
Let Hids : NoDup (map get_id (alarm_threads m)) := proj2 (proj1 Hinv).
Let Hok := proj1 (proj2 Hinv).
Let Hrun := proj2 (proj2 Hinv).

Lemma check_one_running :
  is_active a = true -> is_alarm_running (id_ a) m = true ->
  check_invariant (done ++ [a]) todo m.
Proof using Hnd Hinv.
  intros Hact Er. split; [exact (proj1 Hinv)|]. split.
  - intros t Ht. eapply thread_ok_next; eauto. congruence.
  - intros a' Ha' Hact'. apply in_app_iff in Ha'.
    destruct Ha' as [Ha' | [<- | []]]; auto.
Qed.

Lemma check_one_idle :
  is_active a = false -> is_alarm_running (id_ a) m = false ->
  check_invariant (done ++ [a]) todo m.
Proof using Hnd Hinv.
  intros Hact Er. split; [exact (proj1 Hinv)|]. split.
  - intros t Ht. eapply thread_ok_next; eauto.
    intros _ E.
    destruct (Hok t Ht) as (_ & _ & a0 & Hin & Hid & Hinact).
    assert (a0 = a).
    { eapply NoDup_map_inj; eauto; [|congruence].
      apply in_or_app. right. now left. }
    subst a0. destruct (Hinact Hact) as (_ & Halive & _).
    unfold is_alarm_running in Er.
    rewrite (running_unique (id_ a) _ t Hids Ht) in Er by congruence.
    congruence.
  - intros a' Ha' Hact'. apply in_app_iff in Ha'.
    destruct Ha' as [Ha' | [<- | []]]; auto. congruence.
Qed.

Lemma check_one_launch :
  is_active a = true -> is_alarm_running (id_ a) m = false ->
  check_invariant (done ++ [a]) todo (snd (set_alarm_thread a m)).
Proof using Hnd Hinv.
  intros Hact Er. unfold is_alarm_running in Er.
  destruct (launch_facts a m) as (Lident & Lrun & Lalive & Lid).
  assert (Hfresh : forall u, In u (alarm_threads m) ->
                             th_ident u <> th_ident (launch a m)).
  { intros u Hu. destruct (Hok u Hu) as (Hlt & _). rewrite Lident. lia. }
  assert (Hnew_ok : thread_ok (done ++ [a]) todo (S (created m)) (launch a m)).
  { split; [rewrite Lident; lia|]. split; [exact Lrun|].
    exists a. split; [|split; [now rewrite Lid | congruence]].
    apply in_or_app. left. apply in_or_app. right. now left. }
  destruct (find_thread (id_ a) 0 (alarm_threads m)) as [[i t]|] eqn:Hfind.
  - destruct (find_thread_some _ _ _ _ _ Hfind) as (l1 & l2 & El & Ei & Hid & Hl1).
    simpl in Ei. subst i.
    assert (Hdead : isAlive t = false)
      by (now rewrite <- (find_thread_running _ _ _ _ _ Hfind)).
    rewrite (set_alarm_thread_dead a m l1 l2 t Hfind El Hact Hdead).
    apply id_eq_true in Hid.
    assert (Hident' := Hident). assert (Hids' := Hids).
    rewrite El, map_app in Hident', Hids'. simpl in Hident', Hids'.
    apply NoDup_mid in Hident'. destruct Hident' as [Hident' _].
    split; [split|split]; simpl.
    + rewrite map_app. simpl. apply NoDup_mid. split; [exact Hident'|].
      rewrite <- map_app. intros Hin. apply in_map_iff in Hin.
      destruct Hin as (u & Eu & Hu). apply (Hfresh u); auto.
      rewrite El. apply in_middle. now right.
    + rewrite map_app. simpl. now rewrite Lid, Hid.
    + intros u Hu. apply in_middle in Hu. destruct Hu as [-> | Hu]; auto.
      apply thread_ok_next with (next := created m); auto; [congruence|].
      apply Hok. rewrite El. apply in_middle. now right.
    + intros a' Ha' Hact'. unfold is_alarm_running. simpl.
      apply in_app_iff in Ha'. destruct Ha' as [Ha' | [<- | []]].
      * rewrite (running_swap (id_ a') l1 l2 t).
        -- rewrite <- El. now apply Hrun.
        -- apply id_eq_false. rewrite <- Hid.
           eapply earlier_alarm_other_id; eauto.
        -- apply id_eq_false. rewrite Lid.
           eapply earlier_alarm_other_id; eauto.
      * rewrite running_first; auto. apply id_eq_true. now rewrite Lid.
  - rewrite (set_alarm_thread_new a m Hfind Hact).
    pose proof (find_thread_none _ _ _ Hfind) as Hnone.
    split; [split|split]; simpl.
    + rewrite map_app. simpl. apply NoDup_mid. rewrite app_nil_r.
      split; [exact Hident|]. intros Hin. apply in_map_iff in Hin.
      destruct Hin as (u & Eu & Hu). now apply (Hfresh u).
    + rewrite map_app. simpl. apply NoDup_mid. rewrite app_nil_r.
      split; [exact Hids|]. intros Hin. apply in_map_iff in Hin.
      destruct Hin as (u & Eu & Hu).
      specialize (Hnone u Hu). apply id_eq_false in Hnone. congruence.
    + intros u Hu. apply in_app_iff in Hu. destruct Hu as [Hu | [<- | []]]; auto.
      apply thread_ok_next with (next := created m); auto. congruence.
    + intros a' Ha' Hact'. unfold is_alarm_running. simpl.
      apply in_app_iff in Ha'. destruct Ha' as [Ha' | [<- | []]].
      * rewrite running_skip, app_nil_r; [now apply Hrun|].
        apply id_eq_false. rewrite Lid. eapply earlier_alarm_other_id; eauto.
      * rewrite running_first; auto. apply id_eq_true. now rewrite Lid.
Qed.

Lemma check_one_stop :
  is_active a = false -> is_alarm_running (id_ a) m = true ->
  check_invariant (done ++ [a]) todo (snd (stop_alarm_thread (id_ a) m)).
Proof using Hnd Hinv.
  intros Hact Er. unfold is_alarm_running in Er.
  destruct (running_true_split _ _ Er) as (l1 & t & l2 & El & Hid & Halive & Hl1).
  apply id_eq_true in Hid.
  assert (Ht : In t (alarm_threads m)) by (rewrite El; apply in_middle; now left).
  assert (Hothers : forall u, In u (l1 ++ l2) -> id_ a <> get_id u).
  { intros u Hu. rewrite Hid. apply id_eq_false.
    eapply NoDup_id_middle; eauto. rewrite <- El. exact Hids. }
  assert (Hlag : (th_lag t < stop_polls)%nat).
  { destruct (Hok t Ht) as (_ & _ & a0 & Hin & Hid0 & Hinact).
    assert (a0 = a).
    { eapply NoDup_map_inj; eauto; [|congruence].
      apply in_or_app. right. now left. }
    subst a0. now destruct (Hinact Hact) as (_ & _ & Hlag). }
  destruct (stop_alarm_thread_removes (id_ a) m l1 l2 t El) as [n Hn].
  { rewrite <- El. exact Hident. }
  { now apply id_eq_true. }
  { intros u Hu. apply id_eq_false. now apply Hothers. }
  { now right. }
  rewrite Hn. simpl.
  rewrite ticks_all_untouched.
  2:{ intros u Hu. apply Hok. rewrite El. apply in_middle. now right. }
  assert (Hident' := Hident). assert (Hids' := Hids).
  rewrite El, map_app in Hident', Hids'. simpl in Hident', Hids'.
  apply NoDup_mid in Hident'. apply NoDup_mid in Hids'.
  rewrite <- map_app in Hident', Hids'.
  split; [split|split]; simpl; try tauto.
  - intros u Hu. apply thread_ok_next with (next := created m); auto.
    apply Hok. rewrite El. apply in_middle. now right.
  - intros a' Ha' Hact'. unfold is_alarm_running. simpl.
    apply in_app_iff in Ha'. destruct Ha' as [Ha' | [<- | []]]; [|congruence].
    rewrite <- (running_skip (id_ a') l1 l2 t).
    + rewrite <- El. now apply Hrun.
    + apply id_eq_false. rewrite <- Hid. eapply earlier_alarm_other_id; eauto.
Qed.

Lemma check_one_invariant :
  check_invariant (done ++ [a]) todo (check_one a m)
  /\ alarmdb (check_one a m) = alarmdb m.
Proof using Hnd Hinv.
  unfold check_one.
  destruct (is_active a) eqn:Hact,
           (is_alarm_running (id_ a) m) eqn:Er; simpl.
  - split; [now apply check_one_running | reflexivity].
  - split; [now apply check_one_launch | apply set_alarm_thread_db].
  - split; [now apply check_one_stop | apply stop_alarm_thread_db].
  - split; [now apply check_one_idle | reflexivity].
Qed.
End CheckOne.

(** *** The whole first loop *)

Lemma count_active_cons (a : AlarmItem) (l : list AlarmItem) :
  count_active (a :: l) = (if is_active a then 1 else 0) + count_active l.
Proof.
  unfold count_active. simpl. destruct (is_active a); simpl length; lia.
Qed.

Lemma check_alarms_invariant (todo done : list AlarmItem) (m : Manager)
    (pc : bool) (rc : Z) :
  NoDup (map id_ (done ++ todo)) ->
  check_invariant done todo m ->
  exists pc' m1,
    check_alarms (map Some todo) pc rc m
    = (Returned (pc', rc + count_active todo), m1)
    /\ check_invariant (done ++ todo) [] m1
    /\ alarmdb m1 = alarmdb m.
Proof.
  revert done m pc rc. induction todo as [|a todo IH]; intros done m pc rc Hnd Hinv.
  - exists pc, m. simpl. unfold count_active. simpl.
    rewrite Z.add_0_r, app_nil_r. auto.
  - destruct (check_one_invariant done todo a m Hnd Hinv) as [Hinv' Hdb].
    destruct (check_alarms_step a (map Some todo) pc rc m) as [pc1 Hstep].
    destruct (IH (done ++ [a]) (check_one a m) pc1
                 (rc + (if is_active a then 1 else 0)))
      as (pc' & m1 & Hrun & Hfin & Hdb1); auto.
    { now rewrite <- app_assoc. }
    exists pc', m1. simpl map. rewrite Hstep, Hrun.
    rewrite count_active_cons, <- app_assoc in *. simpl in *.
    split; [f_equal; f_equal; f_equal; lia|]. split; [exact Hfin | congruence].
Qed.

(** A list that already agrees with the stored alarms is left alone. *)
Lemma check_alarms_consistent (items : list AlarmItem) (pc : bool) (rc : Z)
    (m : Manager) :
  (forall a, In a items -> is_alarm_running (id_ a) m = is_active a) ->
  check_alarms (map Some items) pc rc m
  = (Returned (pc, rc + count_active items), m).
Proof.
  revert rc. induction items as [|a items IH]; intros rc H.
  - simpl. unfold count_active. simpl. now rewrite Z.add_0_r.
  - simpl map. simpl check_alarms. rewrite (H a) by now left.
    rewrite count_active_cons.
    destruct (is_active a); simpl; rewrite IH by (intros; apply H; now right);
      f_equal; f_equal; f_equal; lia.
Qed.

Lemma invariant_end (items : list AlarmItem) (m : Manager) :
  NoDup (map id_ items) ->
  check_invariant items [] m ->
  (forall a, In a items -> is_alarm_running (id_ a) m = is_active a)
  /\ Z.of_nat (length (alarm_threads m)) = count_active items.
Proof.
  intros Hnd ((Hident & Hids) & Hok & Hrun).
  assert (Hrecord : forall u, In u (alarm_threads m) ->
            exists a, In a items /\ id_ a = get_id u /\ is_active a = true).
  { intros u Hu. destruct (Hok u Hu) as (_ & _ & a & Hin & Hid & Hinact).
    rewrite app_nil_r in Hin. exists a. split; [exact Hin|]. split; [exact Hid|].
    destruct (is_active a); [reflexivity|]. now destruct Hinact. }
  split.
  - intros a Ha. destruct (is_active a) eqn:Hact; [now apply Hrun|].
    apply running_no_match. intros u Hu. apply id_eq_false. intros E.
    destruct (Hrecord u Hu) as (a0 & Hin0 & Hid0 & Hact0).
    assert (a0 = a) by (eapply NoDup_map_inj; eauto; congruence).
    congruence.
  - unfold count_active. f_equal.
    rewrite <- (length_map get_id), <- (length_map id_ (List.filter _ _)).
    apply Permutation_length, NoDup_Permutation; auto.
    + now apply NoDup_map_filter.
    + intros x. rewrite !list_elem_of_In, !in_map_iff. split.
      * intros (u & <- & Hu). destruct (Hrecord u Hu) as (a & Hin & Hid & Hact).
        exists a. split; [exact Hid|]. apply filter_In. auto.
      * intros (a & <- & Ha). apply filter_In in Ha. destruct Ha as [Ha Hact].
        specialize (Hrun a Ha Hact). unfold is_alarm_running in Hrun.
        destruct (running_true_split _ _ Hrun) as (l1 & t & l2 & El & Hid & _).
        exists t. split; [symmetry; now apply id_eq_true|].
        rewrite El. apply in_middle. now left.
Qed.

Lemma stored_ids_distinct (rows : list AlarmDb.Row) :
  NoDup (map AlarmDb.row_id rows) ->
  NoDup (map id_ (map AlarmDb.item_of rows)).
Proof.
  induction rows as [|r rows IH]; intros H; [constructor|].
  simpl in *. apply NoDup_cons in H. destruct H as [Hr H].
  rewrite list_elem_of_In in Hr.
  apply NoDup_cons. split; [|auto].
  rewrite list_elem_of_In, map_map. intros Hin. apply Hr.
  apply in_map_iff in Hin. destruct Hin as (x & E & Hx). simpl in E.
  injection E as E. rewrite <- E. now apply in_map.
Qed.

(** C4 (amended): from a state that is [repairable] (well-formed table
    with one row per key, no repeated thread or id in the list, no stop
    request pending, every thread belonging to a stored alarm and, where
    that alarm is not active, alive and ending within the 3 s wait),
    [check_threads_state] returns, and a second call right after it returns
    true and changes nothing. *)
Theorem check_threads_state_twice (m : Manager) :
  repairable m ->
  exists b m1,
    check_threads_state m = (Returned b, m1)
    /\ check_threads_state m1 = (Returned true, m1).
Proof.
  intros (Hrows & Hkeys & Hdist & Hthreads).
  pose proof (stored_ids_distinct _ Hkeys) as Hnd.
  assert (Hinit : check_invariant [] (stored_alarms m) m).
  { split; [exact Hdist|]. split; [|intros a []].
    intros t Ht. destruct (Hthreads t Ht) as (Hlt & Hrun & a & Hin & Hid & Hinact).
    split; [exact Hlt|]. split; [exact Hrun|]. exists a. simpl. tauto. }
  destruct (check_alarms_invariant (stored_alarms m) [] m true 0 Hnd Hinit)
    as (pc & m1 & Hloop & Hfin & Hdb).
  simpl in Hfin. destruct (invariant_end _ _ Hnd Hfin) as [Hcons Hlen].
  exists pc, m1. split.
  - unfold check_threads_state. rewrite (get_all_alarms_ok _ Hrows).
    fold (stored_alarms m). rewrite Hloop. simpl.
    now rewrite Hlen, Z.eqb_refl.
  - unfold check_threads_state. rewrite Hdb, (get_all_alarms_ok _ Hrows).
    fold (stored_alarms m). rewrite (check_alarms_consistent _ _ _ _ Hcons).
    simpl. now rewrite Hlen, Z.eqb_refl.
Qed.

Lemma check_threads_state_twice_witness :
  let m := sample_manager
             [sample_row 1 true; sample_row 2 false; sample_row 3 true]
             [sample_thread 0 2 true 0; sample_thread 1 3 false 0] in
  exists b m1,
    check_threads_state m = (Returned b, m1)
    /\ check_threads_state m1 = (Returned true, m1).
Proof.
  intros m. apply (check_threads_state_twice m).
  split; [|split; [|split]].
  - repeat (constructor; [unfold AlarmDb.row_ok; simpl; lia|]). constructor.
  - apply NoDup_ListNoDup. repeat constructor; simpl; intuition discriminate.
  - split; apply NoDup_ListNoDup; repeat constructor; simpl;
      intuition discriminate.
  - intros t [<- | [<- | []]]; simpl.
    + split; [lia|]. split; [reflexivity|].
      exists (AlarmDb.item_of (sample_row 2 false)).
      split; [right; left; reflexivity|]. split; [reflexivity|].
      intros _. split; [reflexivity|]. rewrite stop_polls_value. lia.
    + split; [lia|]. split; [reflexivity|].
      exists (AlarmDb.item_of (sample_row 3 true)).
      split; [right; right; left; reflexivity|]. split; [reflexivity|].
      intros H. discriminate H.
Defined.

(** *** The list stays free of repetitions *)

Lemma aged_idents (n : nat) (l : list Thread) :
  map th_ident (map (ticks n) l) = map th_ident l.
Proof. rewrite map_map. apply map_ext. intros t. apply ticks_ident. Qed.

Lemma aged_ids (n : nat) (l : list Thread) :
  map get_id (map (ticks n) l) = map get_id l.
Proof. rewrite map_map. apply map_ext. intros t. apply ticks_get_id. Qed.

Lemma aged_bound (n next : nat) (l : list Thread) :
  (forall t, In t l -> (th_ident t < next)%nat) ->
  forall t, In t (map (ticks n) l) -> (th_ident t < next)%nat.
Proof.
  intros H t Ht. apply in_map_iff in Ht. destruct Ht as (u & <- & Hu).
  rewrite ticks_ident. now apply H.
Qed.

(** The manager's own operations keep the list free of repeated threads
    and repeated ids, whatever the threads do. *)
Lemma stop_alarm_thread_well_kept (alarm_id : option Z) (m : Manager) :
  well_kept m -> well_kept (snd (stop_alarm_thread alarm_id m)).
Proof.
  intros ((Hident & Hids) & Hlt).
  destruct (find_thread alarm_id 0 (alarm_threads m)) as [[i t]|] eqn:Hfind.
  - destruct (find_thread_some _ _ _ _ _ Hfind) as (l1 & l2 & El & _ & Ht & Hl1).
    rewrite El in Hident, Hids, Hlt.
    assert (Hl2 : forall u, In u l2 -> id_eq alarm_id (get_id u) = false).
    { intros u Hu. apply id_eq_true in Ht. rewrite Ht.
      eapply NoDup_id_middle; eauto. apply in_or_app. now right. }
    unfold stop_alarm_thread. rewrite El.
    destruct (stop_loop_unique (length (l1 ++ t :: l2)) alarm_id 0 false l1 l2 t)
      as [n [(_ & ->) | (_ & _ & ->)]]; auto; try lia.
    + rewrite length_app. simpl. lia.
    + split; [split|]; simpl.
      * rewrite aged_idents. rewrite map_app in *. simpl in Hident.
        now apply NoDup_mid in Hident.
      * rewrite aged_ids. rewrite map_app in *. simpl in Hids.
        now apply NoDup_mid in Hids.
      * apply aged_bound. intros u Hu. apply Hlt. apply in_middle. now right.
    + split; [split|]; simpl.
      * rewrite aged_idents. rewrite map_app in *. exact Hident.
      * rewrite aged_ids. rewrite map_app in *. exact Hids.
      * apply aged_bound. intros u Hu. apply in_middle in Hu.
        destruct Hu as [-> | Hu]; [|apply Hlt, in_middle; now right].
        apply (Hlt t). apply in_middle. now left.
  - rewrite stop_alarm_thread_no_match by (now apply (find_thread_none _ _ _ Hfind)).
    split; [split|]; simpl; assumption.
Qed.

Lemma set_alarm_thread_alive (alarm : AlarmItem) (m : Manager)
    (l1 l2 : list Thread) (t : Thread) :
  find_thread (id_ alarm) 0 (alarm_threads m) = Some (length l1, t) ->
  alarm_threads m = l1 ++ t :: l2 ->
  is_active alarm = true -> isAlive t = true ->
  snd (set_alarm_thread alarm m)
  = with_threads (l1 ++ AlarmThread.edit_alarm alarm t :: l2) m.
Proof.
  intros Hfind El Hact Halive. unfold set_alarm_thread.
  rewrite Hfind, Hact. simpl. unfold isAlive in Halive. rewrite Halive. simpl.
  rewrite El, insert_app_r_alt by lia. now rewrite Nat.sub_diag.
Qed.

Lemma set_alarm_thread_well_kept (alarm : AlarmItem) (m : Manager) :
  well_kept m -> well_kept (snd (set_alarm_thread alarm m)).
Proof.
  intros Hwk. pose proof Hwk as ((Hident & Hids) & Hlt).
  destruct (find_thread (id_ alarm) 0 (alarm_threads m)) as [[i t]|] eqn:Hfind.
  - destruct (is_active alarm) eqn:Hact.
    2:{ unfold set_alarm_thread. rewrite Hfind, Hact. simpl.
        now apply stop_alarm_thread_well_kept. }
    destruct (find_thread_some _ _ _ _ _ Hfind) as (l1 & l2 & El & Ei & Ht & Hl1).
    simpl in Ei. subst i. apply id_eq_true in Ht.
    rewrite El in Hident, Hids, Hlt.
    rewrite map_app in Hident, Hids. simpl in Hident, Hids.
    destruct (isAlive t) eqn:Ea.
    + rewrite (set_alarm_thread_alive alarm m l1 l2 t Hfind El Hact Ea).
      split; [split|]; simpl.
      * rewrite map_app. exact Hident.
      * rewrite map_app. simpl. unfold get_id at 2. simpl. now rewrite Ht.
      * intros u Hu. apply in_middle in Hu. destruct Hu as [-> | Hu]; simpl.
        -- apply (Hlt t), in_middle. now left.
        -- apply Hlt, in_middle. now right.
    + rewrite (set_alarm_thread_dead alarm m l1 l2 t Hfind El Hact Ea).
      split; [split|]; simpl.
      * rewrite map_app. simpl. apply NoDup_mid. apply NoDup_mid in Hident.
        split; [tauto|]. rewrite <- map_app. intros Hin.
        apply in_map_iff in Hin. destruct Hin as (u & Eu & Hu).
        assert ((th_ident u < created m)%nat)
          by (apply Hlt, in_middle; now right).
        lia.
      * rewrite map_app. simpl. unfold get_id at 2. simpl. now rewrite Ht.
      * intros u Hu. apply in_middle in Hu. destruct Hu as [-> | Hu]; simpl.
        -- lia.
        -- assert ((th_ident u < created m)%nat)
             by (apply Hlt, in_middle; now right).
           lia.
  - destruct (is_active alarm) eqn:Hact.
    2:{ unfold set_alarm_thread. now rewrite Hfind, Hact. }
    rewrite (set_alarm_thread_new alarm m Hfind Hact).
    pose proof (find_thread_none _ _ _ Hfind) as Hnone.
    split; [split|]; simpl.
    + rewrite map_app. simpl. apply NoDup_mid. rewrite app_nil_r.
      split; [exact Hident|]. intros Hin. apply in_map_iff in Hin.
      destruct Hin as (u & Eu & Hu). specialize (Hlt u Hu). lia.
    + rewrite map_app. simpl. apply NoDup_mid. rewrite app_nil_r.
      split; [exact Hids|]. intros Hin. apply in_map_iff in Hin.
      destruct Hin as (u & Eu & Hu).
      specialize (Hnone u Hu). apply id_eq_false in Hnone. now apply Hnone.
    + intros u Hu. apply in_app_iff in Hu. destruct Hu as [Hu | [<- | []]].
      * specialize (Hlt u Hu). lia.
      * simpl. lia.
Qed.

Lemma check_alarms_well_kept (all_alarms : list (option AlarmItem))
    (pc : bool) (rc : Z) (m : Manager) :
  well_kept m -> well_kept (snd (check_alarms all_alarms pc rc m)).
Proof.
  revert pc rc m. induction all_alarms as [|[a|] rest IH]; intros pc rc m Hwk;
    simpl; auto.
  destruct (is_active a).
  - destruct (negb (is_alarm_running (id_ a) m)); apply IH; auto.
    now apply set_alarm_thread_well_kept.
  - destruct (is_alarm_running (id_ a) m); apply IH; auto.
    now apply stop_alarm_thread_well_kept.
Qed.

Lemma stop_orphans_well_kept (fuel : nat) (all_alarms : list AlarmItem)
    (i : nat) (m : Manager) :
  well_kept m -> well_kept (stop_orphans fuel all_alarms i m).
Proof.
  revert i m. induction fuel as [|fuel IH]; intros i m Hwk; simpl; auto.
  destruct (alarm_threads m !! i) as [t|]; auto.
  destruct (has_record all_alarms t); apply IH; auto.
  now apply stop_alarm_thread_well_kept.
Qed.

Lemma check_threads_state_well_kept (m : Manager) :
  well_kept m -> well_kept (snd (check_threads_state m)).
Proof.
  intros Hwk. unfold check_threads_state.
  destruct (AlarmDb.get_all_alarms _) as [all_alarms| |]; auto.
  pose proof (check_alarms_well_kept all_alarms true 0 m Hwk) as H.
  destruct (check_alarms all_alarms true 0 m) as [[[pc rc]| |] m1]; auto.
  simpl in H.
  destruct (negb (Z.of_nat (length (alarm_threads m1)) =? rc)); simpl; auto.
  now apply stop_orphans_well_kept.
Qed.
(** ** Further properties of the alarm record *)

Lemma week_wrap (x t : Z) :
  0 <= x < 20160 -> 0 <= t < 10080 ->
  x mod 10080 = t -> x = t \/ x = t + 10080.
Proof.
  intros Hx Ht E.
  pose proof (Z.div_mod x 10080 ltac:(lia)) as D.
  pose proof (Z.mod_pos_bound x 10080 ltac:(lia)) as B.
  rewrite E in D. lia.
Qed.

Lemma next_firing (a : AlarmItem) (h m wd : Z) :
  valid_time a -> any_day_enabled a = true ->
  0 <= h <= 23 -> 0 <= m <= 59 -> 0 <= wd <= 6 ->
  exists n,
    minutes_to_alert a h m wd = Returned (Some n)
    /\ fires_at a ((week_minute h m wd + n) mod 10080)
    /\ forall k, 0 <= k < n ->
                 ~ fires_at a ((week_minute h m wd + k) mod 10080).
Proof.
  intros [Hh Hm] Hany Hrh Hrm Hwd.
  destruct a as [i ah am mo tu we th fr sa su en l ts st].
  unfold any_day_enabled, get_repeat in Hany. simpl in *.
  unfold minutes_to_alert, minutes_to_alert_fuel, week_minute, fires_at,
    get_repeat.
  each_weekday Hwd; simpl;
    repeat split_if; try discriminate;
    unfold one_day_minutes;
    try (exfalso; lia);
    (eexists; split; [reflexivity|]; split;
     [ some_day ltac:(fun x =>
         exists x; split; [lia | split; [reflexivity|]];
         first [shifted_by 0 | shifted_by 1])
     | intros k Hk (day & Hday & Hf & E);
       apply week_wrap in E; [|lia|unfold one_day_minutes; lia];
       unfold one_day_minutes in E;
       each_weekday Hday; first [discriminate Hf | lia] ]).
Qed.



Lemma set_repeat_item_ok (v : pyval) (a a' : AlarmItem) :
  item_ok a -> set_repeat v a = Returned a' -> item_ok a'.
Proof.
  intros Hok. unfold set_repeat.
  destruct (py_items v) as [items|]; [|discriminate].
  destruct (length items =? 7)%nat; [|intros [= <-]; exact Hok].
  destruct (forallb isinstance_bool items); [|intros [= <-]; exact Hok].
  destruct (map bool_value items) as [|mo [|tu [|we [|th [|fr [|sa [|su [|x r]]]]]]]];
    intros [= <-]; exact Hok.
Qed.

Lemma set_hour_item_ok (v : pyval) (a : AlarmItem) :
  item_ok a -> item_ok (set_hour v a).
Proof.
  intros Hok. unfold set_hour.
  destruct (isinstance_int v); [|exact Hok].
  destruct ((0 <=? int_value v) && (int_value v <? 24)) eqn:E; [|exact Hok].
  destruct Hok as ([Hh Hm] & Hrest). split; [|exact Hrest].
  split; simpl; lia.
Qed.

Lemma set_minute_item_ok (v : pyval) (a : AlarmItem) :
  item_ok a -> item_ok (set_minute v a).
Proof.
  intros Hok. unfold set_minute.
  destruct (isinstance_int v); [|exact Hok].
  destruct ((0 <=? int_value v) && (int_value v <? 60)) eqn:E; [|exact Hok].
  destruct Hok as ([Hh Hm] & Hrest). split; [|exact Hrest].
  split; simpl; lia.
Qed.

Lemma set_id_item_ok (v : pyval) (a : AlarmItem) :
  item_ok a -> item_ok (set_id v a).
Proof.
  intros Hok. unfold set_id.
  destruct (isinstance_int v && (0 <=? int_value v)) eqn:E; [|exact Hok].
  destruct Hok as (Ht & Hi & Hts & Hs). repeat split; try apply Ht; auto.
  simpl. lia.
Qed.

Lemma set_timestamp_item_ok (v : pyval) (a : AlarmItem) :
  item_ok a -> item_ok (set_timestamp v a).
Proof.
  intros Hok. unfold set_timestamp.
  destruct (isinstance_int v && (0 <=? int_value v)) eqn:E; [|exact Hok].
  destruct Hok as (Ht & Hi & Hts & Hs). repeat split; try apply Ht; auto.
  simpl. lia.
Qed.

Lemma set_station_id_item_ok (v : pyval) (a : AlarmItem) :
  item_ok a -> item_ok (set_station_id v a).
Proof.
  intros Hok. unfold set_station_id.
  destruct (isinstance_int v && (0 <=? int_value v)) eqn:E; [|exact Hok].
  destruct Hok as (Ht & Hi & Hts & Hs). repeat split; try apply Ht; auto.
  simpl. lia.
Qed.

Lemma set_enabled_item_ok (v : pyval) (a : AlarmItem) :
  item_ok a -> item_ok (set_enabled v a).
Proof. intros Hok. unfold set_enabled. now destruct (isinstance_bool v). Qed.

Lemma blank_item_ok : item_ok blank.
Proof. unfold item_ok, valid_time; simpl. lia. Qed.

(** X2: the accessors keep the record's data in range. Whatever value is
    assigned through a setter, an instance with hour in 0..23, minute in
    0..59 and non-negative id, timestamp and station id (where set) is such
    an instance afterwards. *)
Theorem setters_keep_item_ok (v : pyval) (a : AlarmItem) :
  item_ok a ->
  item_ok (set_id v a) /\ item_ok (set_hour v a) /\ item_ok (set_minute v a)
  /\ item_ok (set_enabled v a) /\ item_ok (set_label v a)
  /\ item_ok (set_timestamp v a) /\ item_ok (set_station_id v a)
  /\ (forall a', set_repeat v a = Returned a' -> item_ok a')
  /\ item_ok (set_monday v a) /\ item_ok (set_tuesday v a)
  /\ item_ok (set_wednesday v a) /\ item_ok (set_thursday v a)
  /\ item_ok (set_friday v a) /\ item_ok (set_saturday v a)
  /\ item_ok (set_sunday v a).
Proof.
  intros Hok.
  split; [now apply set_id_item_ok|].
  split; [now apply set_hour_item_ok|].
  split; [now apply set_minute_item_ok|].
  split; [now apply set_enabled_item_ok|].
  split; [exact Hok|].
  split; [now apply set_timestamp_item_ok|].
  split; [now apply set_station_id_item_ok|].
  split; [intros a'; now apply set_repeat_item_ok|].
  unfold set_monday, set_tuesday, set_wednesday, set_thursday, set_friday,
    set_saturday, set_sunday.
  destruct (isinstance_bool v); repeat split; apply Hok.
Qed.

Lemma setters_keep_item_ok_witness :
  item_ok (set_hour (PyInt 25) blank) /\ item_ok (set_minute (PyInt 59) blank).
Proof.
  split.
  - exact (proj1 (proj2 (setters_keep_item_ok (PyInt 25) blank blank_item_ok))).
  - exact (proj1 (proj2 (proj2
             (setters_keep_item_ok (PyInt 59) blank blank_item_ok)))).
Defined.

Lemma new_item_ok (h m d e l ts i s : pyval) (a : AlarmItem) :
  AlarmItem_new h m d e l ts i s = Returned (Some a) -> item_ok a.
Proof.
  unfold AlarmItem_new.
  destruct (set_repeat d (set_minute m (set_hour h blank))) as [i3| |] eqn:E3;
    try discriminate.
  assert (H3 : item_ok i3).
  { apply (set_repeat_item_ok d (set_minute m (set_hour h blank)) i3);
      [|exact E3].
    apply (set_minute_item_ok m), (set_hour_item_ok h), blank_item_ok. }
  cbv zeta.
  match goal with |- (if ?c then _ else _) = _ -> _ => destruct c end;
    [discriminate|].
  intros [= <-].
  assert (H5 : item_ok (set_label l (set_enabled e i3)))
    by (apply (set_enabled_item_ok e) in H3; exact H3).
  destruct (is_none ts), (is_none i), (is_none s);
    repeat first [apply (set_station_id_item_ok s) | apply (set_id_item_ok i)
                 | apply (set_timestamp_item_ok ts)]; exact H5.
Qed.

(** X3: every instance the constructor hands back is in range, for
    arguments of any type: hour in 0..23, minute in 0..59, and id, timestamp
    and station id either unset or non-negative. *)
Theorem AlarmItem_new_item_ok (h m d e l ts i s : pyval) (a : AlarmItem) :
  AlarmItem_new h m d e l ts i s = Returned (Some a) -> item_ok a.
Proof. apply new_item_ok. Qed.

Lemma AlarmItem_new_item_ok_witness :
  item_ok (mkAlarmItem (Some 3) 23 59 true false false false false false
             true true "up" (Some 10) (Some 1)).
Proof.
  apply (AlarmItem_new_item_ok (PyInt 23) (PyInt 59)
           (PyTuple [PyBool true; PyBool false; PyBool false; PyBool false;
                     PyBool false; PyBool false; PyBool true])
           (PyBool true) (PyStr "up") (PyInt 10) (PyInt 3) (PyInt 1)).
  reflexivity.
Defined.

(** *** What the constructor's comparison accepts *)

Lemma py_eq_int (x : Z) (v : pyval) :
  py_eq (PyInt x) v = true -> isinstance_int v = true /\ int_value v = x.
Proof.
  destruct v; simpl; try discriminate; intros H; split; try reflexivity; lia.
Qed.

Lemma py_eq_opt_int (o : option Z) (v : pyval) :
  v <> PyNone -> py_eq (opt_int o) v = true ->
  exists n, o = Some n /\ isinstance_int v = true /\ int_value v = n.
Proof.
  intros Hv. destruct o as [n|]; simpl.
  - intros H. exists n. split; [reflexivity|]. now apply py_eq_int.
  - destruct v; try discriminate. congruence.
Qed.

Lemma py_eq_str (x : string) (v : pyval) : py_eq (PyStr x) v = true -> v = PyStr x.
Proof.
  destruct v; simpl; try discriminate. intros H.
  apply String.eqb_eq in H. now subst.
Qed.

Lemma is_none_false (v : pyval) : is_none v = false <-> v <> PyNone.
Proof. destruct v; simpl; split; congruence. Qed.

Lemma is_none_true (v : pyval) : is_none v = true <-> v = PyNone.
Proof. destruct v; simpl; split; congruence. Qed.























Lemma check_passed (v x y : pyval) :
  negb (is_none v) && py_ne x y = false -> v = PyNone \/ py_eq x y = true.
Proof.
  intros H. apply andb_false_iff in H as [H | H].
  - left. now apply negb_false_iff, is_none_true in H.
  - right. now apply negb_false_iff in H.
Qed.






(** ** Stations *)

(** X5: the station constructor hands back an instance exactly when the
    name and the url are strings and the id is [None] or a non-negative
    integer; the instance then holds that name, url and id. For every other
    combination of arguments it returns [None]. *)
Theorem StationItem_new_accepts (name url station_id : pyval)
    (st : StationItem.Station) :
  StationItem.StationItem_new name url station_id = Some st
  <-> name = PyStr (StationItem.st_name st)
      /\ url = PyStr (StationItem.st_url st)
      /\ (station_id = PyNone /\ StationItem.st_id st = None
          \/ isinstance_int station_id = true
             /\ 0 <= int_value station_id
             /\ StationItem.st_id st = Some (int_value station_id)).
Proof.
  unfold StationItem.StationItem_new, StationItem.set_name, StationItem.set_url,
    StationItem.set_id.
  split.
  - cbv zeta.
    match goal with
    | |- (if ?c then _ else _) = _ -> _ => destruct c eqn:Einv
    end; [discriminate|].
    intros [= <-].
    repeat (apply orb_false_iff in Einv; destruct Einv as [Einv ?]).
    apply negb_false_iff in Einv.
    match goal with H : py_ne _ url = false |- _ =>
      apply negb_false_iff in H; rename H into Hurl end.
    match goal with H : _ && _ = false |- _ =>
      apply check_passed in H; rename H into Hid end.
    destruct (is_none station_id) eqn:Hnone; simpl in *.
    + apply py_eq_str in Einv. apply py_eq_str in Hurl.
      apply is_none_true in Hnone. repeat split; auto.
    + apply is_none_false in Hnone. destruct Hid as [Hid | Hid]; [contradiction|].
      destruct (isinstance_int station_id && (0 <=? int_value station_id)) eqn:Hok;
        simpl in *.
      * apply py_eq_str in Einv. apply py_eq_str in Hurl.
        apply andb_true_iff in Hok as [Hint Hpos].
        repeat split; auto. right. repeat split; auto. lia.
      * destruct station_id; discriminate || congruence.
  - destruct st as [sid n u]. simpl. intros (-> & -> & Hid). simpl.
    destruct Hid as [[-> ->] | (Hint & Hpos & ->)]; simpl.
    + unfold py_ne; simpl. now rewrite !String.eqb_refl.
    + assert (Hn : is_none station_id = false) by (destruct station_id; auto; discriminate).
      rewrite Hn, Hint. simpl.
      assert (Hp : (0 <=? int_value station_id) = true) by lia.
      rewrite Hp. simpl. unfold py_ne; simpl. rewrite !String.eqb_refl. simpl.
      destruct station_id; try discriminate; simpl.
      * destruct b; reflexivity.
      * now rewrite Z.eqb_refl.
Qed.

(** ** Shifting back *)

(** X6: shifting an alarm by [d] minutes and the result by [-d] minutes
    gives back the original time and repeat days: for a valid alarm and
    [d] in -59..59 both calls of [diff_alarm] return an instance, and the
    second has the hour, the minute, the seven repeat flags and the enabled
    state of the alarm the first was called on. *)
Theorem diff_alarm_round_trip (a : AlarmItem) (v : pyval) :
  valid_time a -> isinstance_int v = true -> -59 <= int_value v <= 59 ->
  exists a1 a2,
    diff_alarm v a = Returned (Some a1)
    /\ diff_alarm (PyInt (- int_value v)) a1 = Returned (Some a2)
    /\ hour a2 = hour a /\ minute a2 = minute a
    /\ get_repeat a2 = get_repeat a /\ enabled a2 = enabled a.
Proof.
  intros [Hh Hm] Hint Hd. unfold diff_alarm. rewrite Hint. simpl negb.
  assert (Hrange : (-60 <? int_value v) && (int_value v <? 60) = true) by lia.
  rewrite Hrange. simpl negb. cbv iota.
  set (d := int_value v) in *.
  rewrite (normalise_div_mod 60) by lia.
  pose proof (Z.div_mod (minute a + d) 60 ltac:(lia)) as Em.
  pose proof (Z.mod_pos_bound (minute a + d) 60 ltac:(lia)) as Bm.
  set (e := (minute a + d) / 60) in *.
  set (nm := (minute a + d) mod 60) in *.
  rewrite (normalise_div_mod 24) by lia.
  pose proof (Z.div_mod (hour a + e) 24 ltac:(lia)) as Eh.
  pose proof (Z.mod_pos_bound (hour a + e) 24 ltac:(lia)) as Bh.
  set (k := (hour a + e) / 24) in *.
  set (nh := (hour a + e) mod 24) in *.
  clearbody d e nm k nh.
  assert (Hback_m : normalise 60 (nm + - d) = (minute a, - e)).
  { rewrite normalise_div_mod by lia. f_equal.
    - symmetry. apply Z.mod_unique with (- e); lia.
    - symmetry. apply Z.div_unique with (minute a); lia. }
  assert (Hback_h : normalise 24 (nh + - e) = (hour a, - k)).
  { rewrite normalise_div_mod by lia. f_equal.
    - symmetry. apply Z.mod_unique with (- k); lia.
    - symmetry. apply Z.div_unique with (hour a); lia. }
  destruct a as [i h m mo tu we th fr sa su en l ts st].
  simpl in *.
  assert (Hk : k = -1 \/ k = 0 \/ k = 1) by lia.
  assert (Hneg : (-60 <? - d) && (- d <? 60) = true) by lia.
  destruct Hk as [-> | [-> | ->]];
    unfold rotate_days, get_repeat; simpl;
    rewrite AlarmItem_new_typed by lia;
    (eexists; eexists; split; [reflexivity|]);
    simpl; rewrite Hneg; simpl; rewrite Hback_m, Hback_h;
    unfold rotate_days, get_repeat; simpl;
    rewrite AlarmItem_new_typed by lia;
    (split; [reflexivity|]); simpl; repeat split.
Qed.

Lemma diff_alarm_round_trip_witness :
  let a := an_alarm 23 30 true false false false false false true true in
  exists a1 a2,
    diff_alarm (PyInt 45) a = Returned (Some a1)
    /\ diff_alarm (PyInt (- 45)) a1 = Returned (Some a2)
    /\ hour a2 = hour a /\ minute a2 = minute a
    /\ get_repeat a2 = get_repeat a /\ enabled a2 = enabled a.
Proof.
  intros a.
  apply (diff_alarm_round_trip a (PyInt 45));
    [unfold valid_time; simpl; lia | reflexivity | simpl; lia].
Defined.

(** ** Edits that succeed *)

Lemma block_ok_upd (alarm_id : Z) probe v (W : AlarmDb.Row -> AlarmDb.Row)
    (t : list AlarmDb.Row) :
  keeps_id W ->
  block_ok alarm_id probe v (upd alarm_id W t) = block_ok alarm_id probe v t.
Proof. intros K. unfold block_ok. now rewrite existsb_upd. Qed.

Lemma edited_row_keeps_id (h m d e l s : pyval) : keeps_id (edited_row h m d e l s).
Proof.
  intros r. unfold edited_row.
  rewrite !written_keeps_id; try reflexivity; intros ? ?; reflexivity.
Qed.

Lemma edit_alarm_blocks (now alarm_id : Z) (h m d e l s : pyval)
    (t : list AlarmDb.Row) :
  sized_or_none d ->
  AlarmDb.edit_alarm now alarm_id h m d e l s t
  = AlarmDb.stamp alarm_id now
      (edited_table alarm_id h m d e l s t,
       Returned (blocks_ok alarm_id h m d e l s t)).
Proof.
  intros Hd. unfold AlarmDb.edit_alarm.
  rewrite edit_field_returned
    by (right; apply AlarmItem_new_returns, default_days_sized).
  rewrite edit_field_returned
    by (right; apply AlarmItem_new_returns, default_days_sized).
  rewrite edit_field_returned
    by (destruct Hd as [-> | Hd]; [now left | right; now apply AlarmItem_new_returns]).
  rewrite edit_field_returned
    by (right; apply AlarmItem_new_returns, default_days_sized).
  rewrite edit_field_returned
    by (right; apply AlarmItem_new_returns, default_days_sized).
  rewrite edit_field_returned
    by (right; apply AlarmItem_new_returns, default_days_sized).
  rewrite !upd_upd
    by (intros r; rewrite ?written_keeps_id; try reflexivity;
        intros ? ?; reflexivity).
  rewrite !block_ok_upd
    by (intros r; rewrite ?written_keeps_id; try reflexivity;
        intros ? ?; reflexivity).
  reflexivity.
Qed.

Lemma accepted_sized (d : pyval) : accepted AlarmDb.probe_days d -> sized_or_none d.
Proof.
  intros [-> | [i Hi]]; [now left | right].
  unfold AlarmDb.probe_days, AlarmItem_new, set_repeat in Hi.
  destruct (py_items d) as [items|]; [now exists items | discriminate].
Qed.

Lemma accepted_block (alarm_id : Z) probe v (t : list AlarmDb.Row) :
  accepted probe v -> existsb (AlarmDb.has_id alarm_id) t = true ->
  block_ok alarm_id probe v t = true.
Proof.
  intros [-> | [i Hi]] Hex; unfold block_ok; [reflexivity|].
  rewrite Hi, Hex. apply orb_true_r.
Qed.

Lemma upd_no_row (alarm_id : Z) (W : AlarmDb.Row -> AlarmDb.Row)
    (t : list AlarmDb.Row) :
  existsb (AlarmDb.has_id alarm_id) t = false -> upd alarm_id W t = t.
Proof.
  unfold upd. induction t as [|r t IH]; simpl; [reflexivity|].
  intros H. apply orb_false_iff in H as [Hr Ht]. rewrite Hr. now rewrite IH.
Qed.

Lemma edit_alarm_stamped (now alarm_id : Z) (h m d e l s : pyval)
    (t : list AlarmDb.Row) :
  existsb (AlarmDb.has_id alarm_id) t = true ->
  all_accepted h m d e l s ->
  AlarmDb.edit_alarm now alarm_id h m d e l s t
  = (stamped_table now alarm_id h m d e l s t, Returned true).
Proof.
  intros Hex (Hh & Hm & Hd & He & Hl & Hs).
  rewrite edit_alarm_blocks by now apply accepted_sized.
  unfold blocks_ok. rewrite !accepted_block by assumption. simpl.
  unfold AlarmDb.update. fold (upd alarm_id (AlarmDb.write_timestamp now)
                                 (edited_table alarm_id h m d e l s t)).
  unfold edited_table. fold (upd alarm_id (edited_row h m d e l s) t).
  rewrite existsb_upd by apply edited_row_keeps_id. rewrite Hex. simpl.
  rewrite upd_upd by apply edited_row_keeps_id. reflexivity.
Qed.

(** X7: an edit in which every supplied value is accepted by the
    [AlarmItem] constructor, on the id of a stored row, returns [True],
    writes each supplied value and the current time to the rows with that
    id and leaves every other row as it was. *)
Theorem edit_alarm_accepted (now alarm_id : Z) (h m d e l s : pyval)
    (t : list AlarmDb.Row) :
  existsb (AlarmDb.has_id alarm_id) t = true ->
  all_accepted h m d e l s ->
  AlarmDb.edit_alarm now alarm_id h m d e l s t
  = (stamped_table now alarm_id h m d e l s t, Returned true).
Proof. apply edit_alarm_stamped. Qed.

Lemma edit_alarm_accepted_witness :
  AlarmDb.edit_alarm 100 1 (PyInt 11) (PyInt 22) PyNone (PyBool false) PyNone
    PyNone [the_row]
  = (stamped_table 100 1 (PyInt 11) (PyInt 22) PyNone (PyBool false) PyNone
       PyNone [the_row], Returned true).
Proof.
  apply (edit_alarm_accepted 100 1 (PyInt 11) (PyInt 22) PyNone (PyBool false)
           PyNone PyNone [the_row]); [reflexivity|].
  repeat split; first [now left | right; eexists; reflexivity].
Defined.

(** X8: an edit on an id no row has returns [False] and leaves the table
    as it was, whatever values are supplied (a [days] value that is no
    sequence apart, on which the constructor raises). *)
Theorem edit_alarm_unknown_id (now alarm_id : Z) (h m d e l s : pyval)
    (t : list AlarmDb.Row) :
  existsb (AlarmDb.has_id alarm_id) t = false ->
  sized_or_none d ->
  AlarmDb.edit_alarm now alarm_id h m d e l s t = (t, Returned false).
Proof.
  intros Hex Hd. rewrite edit_alarm_blocks by exact Hd.
  unfold edited_table. fold (upd alarm_id (edited_row h m d e l s) t).
  rewrite upd_no_row by exact Hex.
  unfold AlarmDb.stamp. destruct (blocks_ok alarm_id h m d e l s t); [|reflexivity].
  unfold AlarmDb.update. fold (upd alarm_id (AlarmDb.write_timestamp now) t).
  rewrite upd_no_row by exact Hex. now rewrite Hex.
Qed.

Lemma edit_alarm_unknown_id_witness :
  AlarmDb.edit_alarm 100 2 (PyInt 11) PyNone PyNone PyNone PyNone PyNone
    [the_row]
  = ([the_row], Returned false).
Proof.
  apply (edit_alarm_unknown_id 100 2 (PyInt 11) PyNone PyNone PyNone PyNone
           PyNone [the_row]); [reflexivity | now left].
Defined.

(** *** Reading an edited alarm back *)



Lemma find_upd (alarm_id : Z) (W : AlarmDb.Row -> AlarmDb.Row)
    (t : list AlarmDb.Row) :
  keeps_id W ->
  AlarmDb.find_one alarm_id (upd alarm_id W t)
  = option_map W (AlarmDb.find_one alarm_id t).
Proof.
  intros K. unfold AlarmDb.find_one, upd.
  induction t as [|r t IH]; simpl; [reflexivity|].
  destruct (AlarmDb.has_id alarm_id r) eqn:E.
  - unfold AlarmDb.has_id in *. now rewrite K, E.
  - now rewrite E.
Qed.

Lemma find_one_exists (alarm_id : Z) (t : list AlarmDb.Row) (r : AlarmDb.Row) :
  AlarmDb.find_one alarm_id t = Some r ->
  existsb (AlarmDb.has_id alarm_id) t = true /\ AlarmDb.row_id r = alarm_id.
Proof.
  unfold AlarmDb.find_one. intros H. apply find_some in H as [Hin Hid].
  split.
  - apply existsb_exists. now exists r.
  - unfold AlarmDb.has_id in Hid. lia.
Qed.






(** ** Adding and deleting rows *)











Lemma find_one_filter_same (k : Z) (t : list AlarmDb.Row) :
  AlarmDb.find_one k (List.filter (fun r => negb (AlarmDb.has_id k r)) t) = None.
Proof.
  unfold AlarmDb.find_one. induction t as [|r t IH]; simpl; [reflexivity|].
  destruct (AlarmDb.has_id k r) eqn:E; simpl; [exact IH|].
  now rewrite E.
Qed.

Lemma find_one_filter_other (k k' : Z) (t : list AlarmDb.Row) :
  k' <> k ->
  AlarmDb.find_one k' (List.filter (fun r => negb (AlarmDb.has_id k r)) t)
  = AlarmDb.find_one k' t.
Proof.
  intros Hk. unfold AlarmDb.find_one. induction t as [|r t IH]; simpl; [reflexivity|].
  destruct (AlarmDb.has_id k r) eqn:E; simpl.
  - assert (E' : AlarmDb.has_id k' r = false)
      by (unfold AlarmDb.has_id in *; lia).
    now rewrite E'.
  - destruct (AlarmDb.has_id k' r); [reflexivity | exact IH].
Qed.

Lemma filter_no_row (k : Z) (t : list AlarmDb.Row) :
  existsb (AlarmDb.has_id k) t = false ->
  List.filter (fun r => negb (AlarmDb.has_id k r)) t = t.
Proof.
  induction t as [|r t IH]; simpl; [reflexivity|].
  intros H. apply orb_false_iff in H as [Hr Ht]. rewrite Hr. simpl.
  now rewrite IH.
Qed.

Lemma filter_some_row (k : Z) (t : list AlarmDb.Row) :
  existsb (AlarmDb.has_id k) t = true ->
  (length (List.filter (fun r => negb (AlarmDb.has_id k r)) t) < length t)%nat.
Proof.
  induction t as [|r t IH]; simpl; [discriminate|].
  destruct (AlarmDb.has_id k r) eqn:E; simpl.
  - intros _. pose proof (List.filter_length_le (fun r => negb (AlarmDb.has_id k r)) t).
    lia.
  - intros H. specialize (IH H). lia.
Qed.

(** X11: deleting by id removes every row with that id and no other. After
    [delete_alarm], [get_alarm] on the id returns [None], every other id
    finds what it found before; the result is [True] and the table shorter
    when a row had the id, and [False] with the table unchanged when none
    had. *)
Theorem delete_alarm_then_get (alarm_id : Z) (t : list AlarmDb.Row) :
  let '(t', success) := AlarmDbOps.delete_alarm alarm_id t in
  AlarmDb.get_alarm alarm_id t' = Returned None
  /\ (forall k, k <> alarm_id -> AlarmDb.find_one k t' = AlarmDb.find_one k t)
  /\ (if success
      then AlarmDbOps.get_number_of_alarms t' < AlarmDbOps.get_number_of_alarms t
      else t' = t).
Proof.
  unfold AlarmDbOps.delete_alarm, AlarmDb.get_alarm.
  rewrite find_one_filter_same.
  split; [reflexivity|].
  split; [intros k Hk; now apply find_one_filter_other|].
  destruct (existsb (AlarmDb.has_id alarm_id) t) eqn:E.
  - unfold AlarmDbOps.get_number_of_alarms.
    pose proof (filter_some_row alarm_id t E). lia.
  - now apply filter_no_row.
Qed.

(** *** Updating from an instance *)

(** X12: [update_alarm] stores the instance's time, repeat days, enabled
    state and label with the current time as timestamp, but never its
    station: for an instance whose id is the key of a well-formed row, the
    call returns [True], the instance gets the new timestamp, and
    [get_alarm] then returns the instance with the station id the row had
    before. An instance without id updates nothing and gives [False]. *)
Theorem update_alarm_then_get (now : N) (alarm : AlarmItem)
    (t : list AlarmDb.Row) :
  item_ok alarm ->
  (forall k r,
     id_ alarm = Some k -> AlarmDb.find_one k t = Some r -> AlarmDb.row_ok r ->
     let '(alarm', t', success) := AlarmDbOps.update_alarm now alarm t in
     success = true
     /\ alarm' = with_timestamp (Some (Z.of_N now)) alarm
     /\ AlarmDb.get_alarm k t'
        = Returned (Some (with_station_id (AlarmDb.row_station_id r) alarm')))
  /\ (id_ alarm = None ->
      AlarmDbOps.update_alarm now alarm t
      = (with_timestamp (Some (Z.of_N now)) alarm, t, false)).
Proof.
  intros Hok.
  assert (E : set_timestamp (PyInt (Z.of_N now)) alarm
              = with_timestamp (Some (Z.of_N now)) alarm).
  { unfold set_timestamp. simpl.
    assert (E : (0 <=? Z.of_N now) = true) by apply Z.leb_le, N2Z.is_nonneg.
    now rewrite E. }
  split.
  - intros k r Hid Hfind Hr. unfold AlarmDbOps.update_alarm. rewrite E.
    simpl id_. rewrite Hid. simpl timestamp. unfold AlarmDb.update.
    destruct (find_one_exists _ _ _ Hfind) as [Hex Hrid].
    rewrite Hex. split; [reflexivity|]. split; [reflexivity|].
    unfold AlarmDb.get_alarm.
    match goal with
    | |- context [map ?f t] =>
        change (map f t)
          with (upd k (AlarmDbOps.write_alarm
                         (with_timestamp (Some (Z.of_N now)) alarm)
                         (Z.of_N now)) t)
    end.
    rewrite find_upd by (intros x; reflexivity). rewrite Hfind. simpl.
    rewrite item_of_row_ok.
    + unfold AlarmDb.item_of. simpl. rewrite Hrid.
      destruct alarm as [i h m mo tu we th fr sa su en l ts st].
      simpl in *. now subst i.
    + destruct Hok as ([Hh Hm] & _). destruct Hr as (Hi & _ & _ & _ & Hst).
      pose proof (N2Z.is_nonneg now).
      repeat split; simpl; try lia. exact Hst.
  - intros Hid. unfold AlarmDbOps.update_alarm. rewrite E. simpl id_.
    now rewrite Hid.
Qed.

Lemma update_alarm_then_get_witness :
  let alarm := sample_alarm 1 8 false in
  let '(alarm', t', success) := AlarmDbOps.update_alarm 100 alarm [the_row] in
  success = true
  /\ alarm' = with_timestamp (Some (Z.of_N 100)) alarm
  /\ AlarmDb.get_alarm 1 t'
     = Returned (Some (with_station_id (AlarmDb.row_station_id the_row) alarm')).
Proof.
  intros alarm.
  assert (Hok : item_ok alarm) by (unfold item_ok, valid_time; simpl; lia).
  apply (proj1 (update_alarm_then_get 100 alarm [the_row] Hok) 1 the_row).
  - reflexivity.
  - reflexivity.
  - unfold AlarmDb.row_ok; simpl; lia.
Defined.

(** ** The active alarms and the next one *)

Lemma drop_dayless_filter (l1 l2 : list AlarmItem) :
  AlarmManagerOps.drop_dayless (length l1) (map Some (l1 ++ l2))
  = Returned (map Some (List.filter any_day_enabled l1 ++ l2)).
Proof.
  revert l2. induction l1 as [|a l1 IH] using rev_ind; intros l2;
    [reflexivity|].
  rewrite length_app, Nat.add_comm. simpl.
  rewrite <- app_assoc. simpl.
  assert (Hlook : map Some (l1 ++ a :: l2) !! length l1 = Some (Some a)).
  { rewrite map_app. simpl.
    rewrite <- (length_map Some l1). apply list_lookup_middle. reflexivity. }
  rewrite Hlook.
  assert (Hdel : delete (length l1) (map Some (l1 ++ a :: l2))
                 = map Some (l1 ++ l2)).
  { rewrite !map_app. simpl.
    rewrite <- (length_map Some l1). apply delete_middle. }
  rewrite List.filter_app. simpl.
  destruct (any_day_enabled a); simpl.
  - rewrite IH, <- app_assoc. reflexivity.
  - rewrite Hdel, IH, app_nil_r. reflexivity.
Qed.

Lemma Forall_filter_ok (p : AlarmDb.Row -> bool) (t : list AlarmDb.Row) :
  Forall AlarmDb.row_ok t -> Forall AlarmDb.row_ok (List.filter p t).
Proof.
  induction 1 as [|r t Hr _ IH]; simpl; [constructor|].
  destruct (p r); [constructor; assumption | assumption].
Qed.

Lemma active_of_enabled (t : list AlarmDb.Row) :
  List.filter any_day_enabled
    (map AlarmDb.item_of (List.filter AlarmDb.row_enabled t))
  = List.filter is_active (map AlarmDb.item_of t).
Proof.
  induction t as [|r t IH]; simpl; [reflexivity|].
  unfold is_active at 1. simpl enabled.
  destruct (AlarmDb.row_enabled r); simpl.
  - destruct (any_day_enabled (AlarmDb.item_of r)); now rewrite IH.
  - exact IH.
Qed.

Lemma active_alarms_returned (db : AlarmDb.Db) :
  Forall AlarmDb.row_ok (AlarmDb.alarms_table db) ->
  AlarmManagerOps.get_all_active_alarms db
  = Returned (map Some (active_alarms_of db)).
Proof.
  intros Hok. unfold AlarmManagerOps.get_all_active_alarms,
    AlarmDbOps.get_all_enabled_alarms, active_alarms_of.
  rewrite get_all_alarms_ok by now apply Forall_filter_ok.
  rewrite <- active_of_enabled.
  set (l := map AlarmDb.item_of (List.filter AlarmDb.row_enabled (AlarmDb.alarms_table db))).
  destruct (map Some l) eqn:E.
  - destruct l; [reflexivity | discriminate].
  - rewrite <- E, length_map.
    pose proof (drop_dayless_filter l []) as H.
    rewrite !app_nil_r in H. exact H.
Qed.

(** X13: on a well-formed table [get_all_active_alarms] returns exactly
    the stored alarms that are enabled and have a repeat day, in the order
    of the table: its backwards loop with [del] removes every enabled alarm
    without repeat day and nothing else. *)
Theorem get_all_active_alarms_are_active (db : AlarmDb.Db) :
  Forall AlarmDb.row_ok (AlarmDb.alarms_table db) ->
  AlarmManagerOps.get_all_active_alarms db
  = Returned (map Some (List.filter is_active
                          (map AlarmDb.item_of (AlarmDb.alarms_table db)))).
Proof. apply active_alarms_returned. Qed.

Lemma get_all_active_alarms_are_active_witness :
  AlarmManagerOps.get_all_active_alarms
    (AlarmDb.mkDb [sample_row 1 true; sample_row 2 false; the_row] 0)
  = Returned (map Some (List.filter is_active
                          (map AlarmDb.item_of
                             [sample_row 1 true; sample_row 2 false; the_row]))).
Proof.
  apply (get_all_active_alarms_are_active
           (AlarmDb.mkDb [sample_row 1 true; sample_row 2 false; the_row] 0)).
  repeat constructor; simpl; lia.
Defined.

Lemma minutes_of_returned (a : AlarmItem) (h m wd : Z) :
  valid_time a -> any_day_enabled a = true ->
  0 <= h <= 23 -> 0 <= m <= 59 -> 0 <= wd <= 6 ->
  minutes_to_alert a h m wd = Returned (Some (minutes_of h m wd a)).
Proof.
  intros Ha Hany Hh Hm Hwd.
  destruct (next_firing a h m wd Ha Hany Hh Hm Hwd) as (n & Hn & _).
  unfold minutes_of. now rewrite Hn.
Qed.

Lemma is_active_true (a : AlarmItem) :
  is_active a = true -> enabled a = true /\ any_day_enabled a = true.
Proof.
  unfold is_active. destruct (enabled a), (any_day_enabled a); simpl; auto;
    discriminate.
Qed.

Lemma attach_next_alert_returned (h m wd : Z) (l : list AlarmItem) :
  0 <= h <= 23 -> 0 <= m <= 59 -> 0 <= wd <= 6 ->
  Forall (fun a => valid_time a /\ any_day_enabled a = true) l ->
  AlarmManagerOps.attach_next_alert h m wd (map Some l)
  = Returned (map (fun a => (a, Some (minutes_of h m wd a))) l).
Proof.
  intros Hh Hm Hwd. induction 1 as [|a l [Ha Hany] _ IH]; [reflexivity|].
  simpl. rewrite (minutes_of_returned a h m wd) by assumption.
  now rewrite IH.
Qed.

(** The first entry of the sorted list has a key no entry is below. *)
Lemma sorted_by_key_head (f : AlarmItem -> Z) (l : list AlarmItem) :
  l <> [] ->
  exists a rest,
    AlarmManagerOps.sorted_by_key (map (fun a => (a, Some (f a))) l)
    = (a, Some (f a)) :: rest
    /\ In a l /\ forall b, In b l -> f a <= f b.
Proof.
  induction l as [|x l IH]; [congruence|]. intros _.
  destruct l as [|y l].
  - exists x, []. simpl. repeat split; [now left|].
    intros b [<- | []]. lia.
  - destruct IH as (a & rest & Hs & Hin & Hmin); [discriminate|].
    change (AlarmManagerOps.sorted_by_key
              (map (fun a => (a, Some (f a))) (x :: y :: l)))
      with (AlarmManagerOps.insert_by_key (x, Some (f x))
              (AlarmManagerOps.sorted_by_key
                 (map (fun a => (a, Some (f a))) (y :: l)))).
    rewrite Hs. simpl AlarmManagerOps.insert_by_key.
    destruct (Z.ltb_spec (f a) (f x)).
    + eexists a, _. split; [reflexivity|]. split; [now right|].
      intros b [<- | Hb]; [lia | now apply Hmin].
    + eexists x, _. split; [reflexivity|]. split; [now left|].
      intros b [<- | Hb]; [lia|]. specialize (Hmin b Hb). lia.
Qed.

Lemma stored_active_valid (db : AlarmDb.Db) :
  Forall AlarmDb.row_ok (AlarmDb.alarms_table db) ->
  Forall (fun a => valid_time a /\ any_day_enabled a = true)
    (active_alarms_of db).
Proof.
  intros Hok. unfold active_alarms_of. apply List.Forall_forall.
  intros a Ha. apply List.filter_In in Ha as [Hin Hact].
  apply List.in_map_iff in Hin as (r & <- & Hr).
  rewrite List.Forall_forall in Hok. destruct (Hok r Hr) as (_ & Hh & Hm & _).
  split; [split; assumption | now apply is_active_true].
Qed.

(** X14: [get_next_alarm] returns the active alarm that fires soonest. On a
    well-formed table and for a valid current time it returns [None] when
    no stored alarm is active; otherwise it returns a stored active alarm
    whose [minutes_to_alert] from the current time is no larger than that
    of any other stored active alarm. *)
Theorem get_next_alarm_is_soonest (h m wd : Z) (db : AlarmDb.Db) :
  Forall AlarmDb.row_ok (AlarmDb.alarms_table db) ->
  0 <= h <= 23 -> 0 <= m <= 59 -> 0 <= wd <= 6 ->
  (active_alarms_of db = []
   /\ AlarmManagerOps.get_next_alarm h m wd db = Returned None)
  \/ exists a n,
       AlarmManagerOps.get_next_alarm h m wd db = Returned (Some a)
       /\ In a (active_alarms_of db)
       /\ minutes_to_alert a h m wd = Returned (Some n)
       /\ forall b, In b (active_alarms_of db) ->
            exists k, minutes_to_alert b h m wd = Returned (Some k) /\ n <= k.
Proof.
  intros Hok Hh Hm Hwd. unfold AlarmManagerOps.get_next_alarm.
  rewrite active_alarms_returned by exact Hok.
  pose proof (stored_active_valid db Hok) as Hvalid.
  destruct (active_alarms_of db) as [|x l] eqn:E; [left; now split | right].
  rewrite <- E in *. rewrite length_map.
  assert (Hlen : (0 <? length (active_alarms_of db))%nat = true)
    by (rewrite E; reflexivity).
  rewrite Hlen, attach_next_alert_returned by assumption.
  destruct (sorted_by_key_head (minutes_of h m wd) (active_alarms_of db))
    as (a & rest & Hs & Hin & Hmin); [rewrite E; discriminate|].
  rewrite Hs. simpl fst.
  rewrite List.Forall_forall in Hvalid.
  exists a, (minutes_of h m wd a). split; [reflexivity|]. split; [exact Hin|].
  split.
  - destruct (Hvalid a Hin). now apply minutes_of_returned.
  - intros b Hb. exists (minutes_of h m wd b). split; [|now apply Hmin].
    destruct (Hvalid b Hb). now apply minutes_of_returned.
Qed.

Lemma get_next_alarm_is_soonest_witness :
  let db := AlarmDb.mkDb [sample_row 1 true; sample_row 2 false; the_row] 0 in
  (active_alarms_of db = []
   /\ AlarmManagerOps.get_next_alarm 7 1 0 db = Returned None)
  \/ exists a n,
       AlarmManagerOps.get_next_alarm 7 1 0 db = Returned (Some a)
       /\ In a (active_alarms_of db)
       /\ minutes_to_alert a 7 1 0 = Returned (Some n)
       /\ forall b, In b (active_alarms_of db) ->
            exists k, minutes_to_alert b 7 1 0 = Returned (Some k) /\ n <= k.
Proof.
  intros db.
  apply (get_next_alarm_is_soonest 7 1 0 db); [|lia|lia|lia].
  repeat constructor; simpl; lia.
Defined.

(** ** Threads of single alarms *)

Lemma set_alarm_thread_running (alarm : AlarmItem) (m : Manager) :
  is_active alarm = true ->
  is_alarm_running (id_ alarm) (snd (set_alarm_thread alarm m)) = true.
Proof.
  intros Hact. unfold is_alarm_running.
  destruct (find_thread (id_ alarm) 0 (alarm_threads m)) as [[i t]|] eqn:Hfind.
  - destruct (find_thread_some _ _ _ _ _ Hfind) as (l1 & l2 & El & -> & Ht & Hl1).
    simpl in Hfind.
    destruct (isAlive t) eqn:Halive.
    + rewrite (set_alarm_thread_alive alarm m l1 l2 t) by assumption. simpl.
      rewrite running_first; [exact Halive | | exact Hl1].
      unfold get_id. simpl. now apply id_eq_true.
    + rewrite (set_alarm_thread_dead alarm m l1 l2 t) by assumption. simpl.
      rewrite running_first; [reflexivity | | exact Hl1].
      now apply id_eq_true.
  - rewrite set_alarm_thread_new by assumption. simpl.
    rewrite running_first; [reflexivity | now apply id_eq_true|].
    now apply find_thread_none with (k := 0%nat).
Qed.

(** X15: after [__set_alarm_thread] on an active alarm a live thread is
    registered for its id, in every state of the list: a live thread of the
    alarm is kept, a dead one is replaced by a started one, and without a
    thread a started one is appended. *)
Theorem set_alarm_thread_active_running (alarm : AlarmItem) (m : Manager) :
  is_active alarm = true ->
  is_alarm_running (id_ alarm) (snd (set_alarm_thread alarm m)) = true.
Proof. apply set_alarm_thread_running. Qed.

Lemma set_alarm_thread_active_running_witness :
  is_alarm_running (Some 1)
    (snd (set_alarm_thread (sample_alarm 1 8 true)
            (sample_manager [] [sample_thread 0 1 false 0])))
  = true.
Proof.
  apply (set_alarm_thread_active_running (sample_alarm 1 8 true)
           (sample_manager [] [sample_thread 0 1 false 0])).
  reflexivity.
Defined.

(** X16: the value [__set_alarm_thread] returns is taken from the thread
    found in the list, not from the one put in its place: when the thread
    registered for an active alarm is dead, the call replaces it by a
    started thread and still returns [False], although the alarm is running
    afterwards. *)
Theorem set_alarm_thread_reports_replaced_thread (alarm : AlarmItem)
    (m : Manager) (i : nat) (t : Thread) :
  find_thread (id_ alarm) 0 (alarm_threads m) = Some (i, t) ->
  is_active alarm = true -> isAlive t = false ->
  fst (set_alarm_thread alarm m) = false
  /\ alarm_threads (snd (set_alarm_thread alarm m)) !! i = Some (launch alarm m)
  /\ is_alarm_running (id_ alarm) (snd (set_alarm_thread alarm m)) = true.
Proof.
  intros Hfind Hact Hdead.
  split; [|split].
  - unfold set_alarm_thread. rewrite Hfind, Hact. simpl.
    unfold isAlive in Hdead. now rewrite Hdead.
  - destruct (find_thread_some _ _ _ _ _ Hfind) as (l1 & l2 & El & -> & Ht & Hl1).
    simpl in *.
    rewrite (set_alarm_thread_dead alarm m l1 l2 t) by assumption. simpl.
    now apply list_lookup_middle.
  - now apply set_alarm_thread_running.
Qed.

Lemma set_alarm_thread_reports_replaced_thread_witness :
  let alarm := sample_alarm 1 8 true in
  let m := sample_manager [] [sample_thread 0 1 false 0] in
  fst (set_alarm_thread alarm m) = false
  /\ alarm_threads (snd (set_alarm_thread alarm m)) !! 0%nat
     = Some (launch alarm m)
  /\ is_alarm_running (id_ alarm) (snd (set_alarm_thread alarm m)) = true.
Proof.
  intros alarm m.
  apply (set_alarm_thread_reports_replaced_thread alarm m 0
           (sample_thread 0 1 false 0)); reflexivity.
Defined.

Lemma with_threads_same (m : Manager) : with_threads (alarm_threads m) m = m.
Proof. now destruct m. Qed.

Lemma stop_alarm_thread_cases (alarm_id : option Z) (m : Manager) :
  distinct_threads (alarm_threads m) ->
  ((forall u, In u (alarm_threads m) -> get_id u <> alarm_id) /\
   stop_alarm_thread alarm_id m = (false, m))
  \/ exists l1 t l2 n,
       alarm_threads m = l1 ++ t :: l2 /\ get_id t = alarm_id
       /\ ((isAlive (ticks n (stop t)) = false
            /\ stop_alarm_thread alarm_id m
               = (true, with_threads (map (ticks n) (l1 ++ l2)) m))
           \/ (isAlive (ticks n (stop t)) = true /\ (stop_polls <= n)%nat
               /\ stop_alarm_thread alarm_id m
                  = (false, with_threads (map (ticks n) (l1 ++ stop t :: l2)) m))).
Proof.
  intros [Hident Hids].
  destruct (find_thread alarm_id 0 (alarm_threads m)) as [[i t]|] eqn:Hfind.
  - right.
    destruct (find_thread_some _ _ _ _ _ Hfind) as (l1 & l2 & El & -> & Ht & Hl1).
    rewrite El in Hident, Hids.
    pose proof (NoDup_id_middle l1 l2 t Hids) as Hothers.
    apply id_eq_true in Ht.
    assert (Hl2 : forall u, In u l2 -> id_eq alarm_id (get_id u) = false).
    { intros u Hu. rewrite Ht. apply Hothers, in_or_app. now right. }
    destruct (stop_loop_unique (length (l1 ++ t :: l2)) alarm_id 0 false l1 l2 t)
      as [n Hn]; auto; try lia.
    + rewrite length_app. simpl. lia.
    + now apply id_eq_true.
    + exists l1, t, l2, n. split; [exact El|]. split; [now symmetry|].
      unfold stop_alarm_thread. rewrite El.
      destruct Hn as [[Hdead Hn] | (Halive & Hlate & Hn)]; rewrite Hn;
        [left | right]; repeat split; assumption.
  - left. pose proof (find_thread_none _ _ _ Hfind) as Hnone.
    split.
    + intros u Hu Heq. specialize (Hnone u Hu).
      apply id_eq_false in Hnone. congruence.
    + rewrite stop_alarm_thread_no_match by exact Hnone.
      now rewrite with_threads_same.
Qed.

(** X17: what [__stop_alarm_thread] does to a list without repeated threads
    or ids. Without a thread for the id it returns [False] and changes
    nothing. Otherwise the one thread of the id is asked to stop and the
    list waits with it: either the thread has ended after some polls, is
    removed and the call returns [True], or it is still alive after all 300
    polls, stays in the list with its stop request and the call returns
    [False]. All other threads are kept, aged by the polls. *)
Theorem stop_alarm_thread_outcomes (alarm_id : option Z) (m : Manager) :
  distinct_threads (alarm_threads m) ->
  ((forall u, In u (alarm_threads m) -> get_id u <> alarm_id) /\
   stop_alarm_thread alarm_id m = (false, m))
  \/ exists l1 t l2 n,
       alarm_threads m = l1 ++ t :: l2 /\ get_id t = alarm_id
       /\ ((isAlive (ticks n (stop t)) = false
            /\ stop_alarm_thread alarm_id m
               = (true, with_threads (map (ticks n) (l1 ++ l2)) m))
           \/ (isAlive (ticks n (stop t)) = true /\ (stop_polls <= n)%nat
               /\ stop_alarm_thread alarm_id m
                  = (false, with_threads (map (ticks n) (l1 ++ stop t :: l2)) m))).
Proof. apply stop_alarm_thread_cases. Qed.

Lemma stop_alarm_thread_outcomes_witness :
  let m := sample_manager [] [sample_thread 0 1 true 0] in
  ((forall u, In u (alarm_threads m) -> get_id u <> Some 1) /\
   stop_alarm_thread (Some 1) m = (false, m))
  \/ exists l1 t l2 n,
       alarm_threads m = l1 ++ t :: l2 /\ get_id t = Some 1
       /\ ((isAlive (ticks n (stop t)) = false
            /\ stop_alarm_thread (Some 1) m
               = (true, with_threads (map (ticks n) (l1 ++ l2)) m))
           \/ (isAlive (ticks n (stop t)) = true /\ (stop_polls <= n)%nat
               /\ stop_alarm_thread (Some 1) m
                  = (false, with_threads (map (ticks n) (l1 ++ stop t :: l2)) m))).
Proof.
  intros m. apply (stop_alarm_thread_outcomes (Some 1) m).
  split; apply NoDup_ListNoDup; repeat constructor; simpl; tauto.
Defined.

(** ** What a passed self test means *)

Lemma check_alarms_false (all_alarms : list (option AlarmItem)) (rc : Z)
    (m : Manager) (pc : bool) (rc' : Z) (m' : Manager) :
  check_alarms all_alarms false rc m = (Returned (pc, rc'), m') -> pc = false.
Proof.
  revert rc m. induction all_alarms as [|[a|] l IH]; intros rc m; simpl.
  - now intros [= <- _ _].
  - destruct (is_active a).
    + destruct (negb (is_alarm_running (id_ a) m)); apply IH.
    + destruct (is_alarm_running (id_ a) m); apply IH.
  - discriminate.
Qed.

Lemma check_alarms_true (all_alarms : list (option AlarmItem)) (pc : bool)
    (rc : Z) (m : Manager) (rc' : Z) (m' : Manager) :
  check_alarms all_alarms pc rc m = (Returned (true, rc'), m') ->
  pc = true /\ m' = m
  /\ exists items,
       all_alarms = map Some items
       /\ rc' = rc + count_active items
       /\ forall a, In a items -> is_alarm_running (id_ a) m = is_active a.
Proof.
  revert pc rc. induction all_alarms as [|[a|] l IH]; intros pc rc; simpl.
  - intros [= -> <- <-]. repeat split. exists []. repeat split.
    + unfold count_active. simpl. lia.
    + intros a [].
  - destruct (is_active a) eqn:Hact.
    + destruct (is_alarm_running (id_ a) m) eqn:Hrun; simpl.
      * intros H. destruct (IH _ _ H) as (-> & -> & items & -> & -> & Hall).
        repeat split. exists (a :: items). split; [reflexivity|].
        split; [rewrite count_active_cons, Hact; lia|].
        intros b [<- | Hb]; [congruence | now apply Hall].
      * intros H. apply check_alarms_false in H. discriminate.
    + destruct (is_alarm_running (id_ a) m) eqn:Hrun; simpl.
      * intros H. apply check_alarms_false in H. discriminate.
      * intros H. destruct (IH _ _ H) as (-> & -> & items & -> & -> & Hall).
        repeat split. exists (a :: items). split; [reflexivity|].
        split; [rewrite count_active_cons, Hact; lia|].
        intros b [<- | Hb]; [congruence | now apply Hall].
  - discriminate.
Qed.

Lemma check_threads_state_true (m : Manager) :
  fst (check_threads_state m) = Returned true ->
  snd (check_threads_state m) = m
  /\ exists items,
       AlarmDb.get_all_alarms (AlarmDb.alarms_table (alarmdb m))
       = Returned (map Some items)
       /\ Z.of_nat (length (alarm_threads m)) = count_active items
       /\ forall a, In a items -> is_alarm_running (id_ a) m = is_active a.
Proof.
  unfold check_threads_state.
  destruct (AlarmDb.get_all_alarms (AlarmDb.alarms_table (alarmdb m)))
    as [all_alarms| |]; try discriminate.
  destruct (check_alarms all_alarms true 0 m) as [[[pc rc]| |] m1] eqn:E;
    try discriminate.
  destruct (negb (Z.of_nat (length (alarm_threads m1)) =? rc)) eqn:Hlen;
    simpl; [discriminate|].
  intros [= ->].
  destruct (check_alarms_true _ _ _ _ _ _ E) as (_ & -> & items & -> & -> & Hall).
  split; [reflexivity|]. exists items. split; [reflexivity|].
  split; [|exact Hall].
  apply negb_false_iff in Hlen. lia.
Qed.

(** X18: a self test that returns [True] has changed nothing and found the
    list in line with the table: [check_threads_state] returns [True] only
    if no stored alarm is [None], every stored alarm is running exactly when
    it is active, and the list holds as many threads as there are active
    alarms; the manager is then left as it was. *)
Theorem check_threads_state_true_is_consistent (m : Manager) :
  fst (check_threads_state m) = Returned true ->
  snd (check_threads_state m) = m
  /\ exists items,
       AlarmDb.get_all_alarms (AlarmDb.alarms_table (alarmdb m))
       = Returned (map Some items)
       /\ Z.of_nat (length (alarm_threads m)) = count_active items
       /\ forall a, In a items -> is_alarm_running (id_ a) m = is_active a.
Proof. apply check_threads_state_true. Qed.

Lemma check_threads_state_true_is_consistent_witness :
  let m := sample_manager [sample_row 1 true; sample_row 2 false]
             [sample_thread 0 1 true 0] in
  snd (check_threads_state m) = m
  /\ exists items,
       AlarmDb.get_all_alarms (AlarmDb.alarms_table (alarmdb m))
       = Returned (map Some items)
       /\ Z.of_nat (length (alarm_threads m)) = count_active items
       /\ forall a, In a items -> is_alarm_running (id_ a) m = is_active a.
Proof.
  intros m. apply (check_threads_state_true_is_consistent m). reflexivity.
Defined.

(** ** Adding, editing and deleting through the manager *)


Lemma is_active_with_id (o : option Z) (a : AlarmItem) :
  is_active (with_id o a) = is_active a.
Proof. reflexivity. Qed.

Lemma is_active_with_timestamp (o : option Z) (a : AlarmItem) :
  is_active (with_timestamp o a) = is_active a.
Proof. reflexivity. Qed.




Lemma stop_alarm_thread_not_running (alarm_id : option Z) (m : Manager) :
  distinct_threads (alarm_threads m) ->
  (forall t, In t (alarm_threads m) -> get_id t = alarm_id ->
             isAlive t = true -> (th_lag t < stop_polls)%nat) ->
  is_alarm_running alarm_id (snd (stop_alarm_thread alarm_id m)) = false.
Proof.
  intros [Hident Hids] Hquick. unfold is_alarm_running.
  destruct (find_thread alarm_id 0 (alarm_threads m)) as [[i t]|] eqn:Hfind.
  - destruct (find_thread_some _ _ _ _ _ Hfind) as (l1 & l2 & El & -> & Ht & Hl1).
    rewrite El in Hident, Hids.
    pose proof (NoDup_id_middle l1 l2 t Hids) as Hothers.
    assert (Hid : get_id t = alarm_id) by (symmetry; now apply id_eq_true).
    assert (Hothers' : forall u, In u (l1 ++ l2) -> id_eq alarm_id (get_id u) = false).
    { intros u Hu. rewrite <- Hid. now apply Hothers. }
    destruct (stop_alarm_thread_removes alarm_id m l1 l2 t) as [n Hn]; auto.
    { destruct (isAlive t) eqn:Halive; [right | now left].
      apply Hquick; auto. rewrite El. apply in_or_app. right. now left. }
    rewrite Hn. simpl. apply running_no_match.
    intros u Hu. apply List.in_map_iff in Hu as (u0 & <- & Hu0).
    rewrite ticks_get_id. now apply Hothers'.
  - pose proof (find_thread_none _ _ _ Hfind) as Hnone.
    rewrite stop_alarm_thread_no_match by exact Hnone. simpl.
    now apply running_no_match.
Qed.

(** X20: [delete_alarm] of the manager deletes the row whatever came of
    stopping the thread. The result tells whether a row had the id;
    afterwards [get_alarm] on the id returns [None] and every other id finds
    what it found before. In a list without repeated threads or ids, a
    thread of the alarm that is dead or ends within the 3 s wait is no
    longer running afterwards. *)
Theorem delete_alarm_removes_row_and_thread (alarm_id : Z) (mgr : Manager) :
  let '(success, mgr') := AlarmManagerOps.delete_alarm alarm_id mgr in
  success = existsb (AlarmDb.has_id alarm_id) (AlarmDb.alarms_table (alarmdb mgr))
  /\ AlarmDb.get_alarm alarm_id (AlarmDb.alarms_table (alarmdb mgr'))
     = Returned None
  /\ (forall k, k <> alarm_id ->
        AlarmDb.find_one k (AlarmDb.alarms_table (alarmdb mgr'))
        = AlarmDb.find_one k (AlarmDb.alarms_table (alarmdb mgr)))
  /\ (distinct_threads (alarm_threads mgr) ->
      (forall t, In t (alarm_threads mgr) -> get_id t = Some alarm_id ->
                 isAlive t = true -> (th_lag t < stop_polls)%nat) ->
      is_alarm_running (Some alarm_id) mgr' = false).
Proof.
  unfold AlarmManagerOps.delete_alarm, AlarmDbOps.delete_alarm.
  rewrite stop_alarm_thread_db. simpl.
  split; [reflexivity|].
  split; [unfold AlarmDb.get_alarm; now rewrite find_one_filter_same|].
  split; [intros k Hk; now apply find_one_filter_other|].
  intros Hd Hquick.
  now apply (stop_alarm_thread_not_running (Some alarm_id) mgr).
Qed.




(** ** Stopping every thread *)

Lemma stop_all_polls_value : AlarmManagerOps.stop_all_polls = 1500%nat.
Proof. reflexivity. Qed.

Local Opaque AlarmManagerOps.stop_all_polls.

Lemma reap_sweep (l1 l2 : list Thread) (ct : bool) :
  AlarmManagerOps.reap (length l1) ct (l1 ++ l2)
  = (ct || existsb isAlive l1, List.filter isAlive l1 ++ l2).
Proof.
  revert l2 ct. induction l1 as [|t l1 IH] using rev_ind; intros l2 ct.
  - simpl. now rewrite orb_false_r.
  - rewrite length_app, Nat.add_comm. simpl.
    rewrite <- app_assoc. simpl.
    rewrite list_lookup_middle by reflexivity.
    rewrite existsb_app, List.filter_app. simpl.
    destruct (isAlive t) eqn:Halive; simpl.
    + rewrite IH, <- app_assoc. simpl.
      f_equal. now destruct ct, (existsb isAlive l1).
    + rewrite delete_middle, IH, app_nil_r.
      f_equal. now destruct ct, (existsb isAlive l1).
Qed.

Lemma reap_all (l : list Thread) :
  AlarmManagerOps.reap (length l) false l
  = (existsb isAlive l, List.filter isAlive l).
Proof.
  pose proof (reap_sweep l [] false) as H. now rewrite !app_nil_r in H.
Qed.

Lemma filter_alive_none (l : list Thread) :
  existsb isAlive l = false -> List.filter isAlive l = [].
Proof.
  induction l as [|t l IH]; simpl; [reflexivity|].
  intros H. apply orb_false_iff in H as [Ht Hl]. rewrite Ht. now apply IH.
Qed.

Lemma sleep_stopped (t : Thread) :
  th_run t = false -> isAlive t = true ->
  th_run (sleep_10ms t) = false
  /\ (isAlive (sleep_10ms t) = true -> S (th_lag (sleep_10ms t)) = th_lag t).
Proof.
  unfold sleep_10ms, isAlive. intros Hrun Halive. rewrite Hrun, Halive. simpl.
  destruct (th_lag t); simpl; split; auto; discriminate.
Qed.

Lemma reap_until_empties (fuel : nat) (ct : bool) (ms : Z) (l : list Thread) :
  ms + 10 * Z.of_nat fuel <= 15000 ->
  (forall t, In t l ->
     th_run t = false /\ (isAlive t = true -> (S (th_lag t) < fuel)%nat)) ->
  (ct = true /\ (1 <= fuel)%nat) \/ l = [] ->
  AlarmManagerOps.reap_until fuel ct ms l = [].
Proof.
  revert ct ms l. induction fuel as [|fuel IH]; intros ct ms l Hms Hl Hct.
  - destruct Hct as [[_ Hfuel] | ->]; [lia | reflexivity].
  - cbn [AlarmManagerOps.reap_until].
    destruct ct; simpl.
    + assert (Hlt : (ms <? 15000) = true) by lia. rewrite Hlt.
      rewrite reap_all.
      apply IH; [lia | |].
      * intros u Hu. apply List.in_map_iff in Hu as (t & <- & Ht).
        apply List.filter_In in Ht as [Ht Ha].
        destruct (Hl t Ht) as [Hrun Hlag]. specialize (Hlag Ha).
        destruct (sleep_stopped t Hrun Ha) as [Hrun' Hlag'].
        split; [exact Hrun'|]. intros Ha'. specialize (Hlag' Ha'). lia.
      * destruct (existsb isAlive l) eqn:E.
        -- left. split; [reflexivity|].
           apply existsb_exists in E as (u & Hu & Ha).
           destruct (Hl u Hu) as [_ Hlag]. specialize (Hlag Ha). lia.
        -- right. now rewrite filter_alive_none.
    + destruct Hct as [[Hct _] | ->]; [discriminate | reflexivity].
Qed.

Lemma stop_all_threads_quick (m : Manager) :
  (forall t, In t (alarm_threads m) ->
     isAlive t = true -> (S (th_lag t) < AlarmManagerOps.stop_all_polls)%nat) ->
  AlarmManagerOps.stop_all_alarm_threads m = (true, with_threads [] m).
Proof.
  intros Hquick. unfold AlarmManagerOps.stop_all_alarm_threads.
  rewrite reap_until_empties; [reflexivity | | |].
  - rewrite stop_all_polls_value. vm_compute. discriminate.
  - intros u Hu. apply List.in_map_iff in Hu as (t & <- & Ht).
    split; [reflexivity|]. intros Ha. exact (Hquick t Ht Ha).
  - left. split; [reflexivity|]. rewrite stop_all_polls_value. lia.
Qed.

(** X22: [__stop_all_alarm_threads] empties the list when every thread is
    quick enough. If each live thread ends within 1498 polls of 10 ms after
    being asked to stop (dead threads are swept at once), the sweeps end
    with an empty list inside the 15 s and the call returns [True]. *)
Theorem stop_all_alarm_threads_empties (m : Manager) :
  (forall t, In t (alarm_threads m) ->
     isAlive t = true -> (S (th_lag t) < AlarmManagerOps.stop_all_polls)%nat) ->
  AlarmManagerOps.stop_all_alarm_threads m = (true, with_threads [] m).
Proof. apply stop_all_threads_quick. Qed.

Lemma stop_all_alarm_threads_empties_witness :
  let m := sample_manager [] [sample_thread 0 1 true 3; sample_thread 1 2 false 0] in
  AlarmManagerOps.stop_all_alarm_threads m = (true, with_threads [] m).
Proof.
  intros m. apply (stop_all_alarm_threads_empties m).
  intros t [<- | [<- | []]] _; rewrite stop_all_polls_value; simpl; lia.
Defined.

(** X23: [delete_all_alarms] of the manager empties the table whatever came
    of stopping the threads; when every thread is quick enough (as in X22)
    the thread list is empty as well, and the result is [True] exactly when
    the table held a row. *)
Theorem delete_all_alarms_empties (m : Manager) :
  AlarmDb.alarms_table (alarmdb (snd (AlarmManagerOps.delete_all_alarms m))) = []
  /\ ((forall t, In t (alarm_threads m) ->
         isAlive t = true ->
         (S (th_lag t) < AlarmManagerOps.stop_all_polls)%nat) ->
      alarm_threads (snd (AlarmManagerOps.delete_all_alarms m)) = []
      /\ fst (AlarmManagerOps.delete_all_alarms m)
         = negb (length (AlarmDb.alarms_table (alarmdb m)) =? 0)%nat).
Proof.
  unfold AlarmManagerOps.delete_all_alarms.
  split.
  - destruct (AlarmManagerOps.stop_all_alarm_threads m) as [ts m1]. reflexivity.
  - intros Hquick. rewrite stop_all_threads_quick by exact Hquick. simpl.
    split; [reflexivity|].
    now destruct (negb (length (AlarmDb.alarms_table (alarmdb m)) =? 0)%nat).
Qed.

(** ** A fresh manager *)

Lemma find_thread_no_match (alarm_id : option Z) (k : nat) (l : list Thread) :
  (forall u, In u l -> id_eq alarm_id (get_id u) = false) ->
  find_thread alarm_id k l = None.
Proof.
  revert k. induction l as [|t l IH]; intros k H; [reflexivity|]. simpl.
  rewrite (H t) by now left. apply IH. intros u Hu. apply H. now right.
Qed.

Lemma running_alive (alarm_id : option Z) (l : list Thread) :
  (forall t, In t l -> isAlive t = true) ->
  (exists t, In t l /\ get_id t = alarm_id) ->
  running alarm_id l = true.
Proof.
  intros Halive. induction l as [|t l IH]; intros (u & Hu & Hid); [destruct Hu|].
  simpl. destruct (id_eq (get_id t) alarm_id) eqn:E.
  - apply Halive. now left.
  - apply IH.
    + intros x Hx. apply Halive. now right.
    + destruct Hu as [<- | Hu].
      * apply id_eq_false in E. contradiction.
      * now exists u.
Qed.

Lemma set_each_launches (acts : list AlarmItem) (m : Manager) :
  (forall a, In a acts -> is_active a = true) ->
  NoDup (map id_ acts) ->
  (forall t a, In t (alarm_threads m) -> In a acts -> id_ a <> get_id t) ->
  exists l',
    AlarmManagerOps.set_each (map Some acts) m
    = Returned (mkManager (alarmdb m) (alarm_threads m ++ l')
                  (created m + length acts) (lag_of m))
    /\ map get_id l' = map id_ acts
    /\ (forall t, In t l' -> isAlive t = true).
Proof.
  revert m. induction acts as [|a acts IH]; intros m Hact Hnd Hfree.
  - exists []. simpl. rewrite app_nil_r, Nat.add_0_r.
    split; [now destruct m|]. split; [reflexivity | intros t []].
  - simpl AlarmManagerOps.set_each.
    assert (Hnone : find_thread (id_ a) 0 (alarm_threads m) = None).
    { apply find_thread_no_match. intros u Hu. apply id_eq_false.
      apply Hfree; [exact Hu | now left]. }
    rewrite set_alarm_thread_new by (auto; apply Hact; now left).
    apply NoDup_cons in Hnd as [Hnotin Hnd].
    destruct (IH (mkManager (alarmdb m) (alarm_threads m ++ [launch a m])
                    (S (created m)) (lag_of m))) as (l' & Hl' & Hids & Halive).
    + intros b Hb. apply Hact. now right.
    + exact Hnd.
    + simpl. intros t b Ht Hb. apply in_app_or in Ht as [Ht | [<- | []]].
      * apply Hfree; [exact Ht | now right].
      * simpl. intros E. apply Hnotin.
        apply list_elem_of_In, List.in_map_iff. exists b. split; [exact E | exact Hb].
    + exists (launch a m :: l'). simpl in Hl' |- *.
      rewrite Hl', <- app_assoc. simpl.
      split; [f_equal; f_equal; lia|].
      split; [now rewrite Hids|].
      intros t [<- | Ht]; [reflexivity | now apply Halive].
Qed.

Lemma set_timestamp_now (now : N) (a : AlarmItem) :
  set_timestamp (PyInt (Z.of_N now)) a = with_timestamp (Some (Z.of_N now)) a.
Proof.
  unfold set_timestamp. simpl.
  assert (E : (0 <=? Z.of_N now) = true) by apply Z.leb_le, N2Z.is_nonneg.
  now rewrite E.
Qed.

Lemma load_dummy_alarms_rows (now now' : N) (offset : Z) (lag : nat -> nat) :
  AlarmManagerOps.load_dummy_alarms now now'
    (mkManager (AlarmDb.mkDb [] offset) [] 0 lag)
  = mkManager
      (AlarmDb.mkDb
         [AlarmDb.mkRow 1 7 10 true true true true true false false false
            "one" (Z.of_N now) (Some 1);
          AlarmDb.mkRow 2 10 30 false false false false false true true false
            "two" (Z.of_N now') (Some 1)] offset) [] 0 lag.
Proof.
  assert (E : (0 <=? Z.of_N now) = true) by apply Z.leb_le, N2Z.is_nonneg.
  assert (E' : (0 <=? Z.of_N now') = true) by apply Z.leb_le, N2Z.is_nonneg.
  unfold AlarmManagerOps.load_dummy_alarms, AlarmManagerOps.add_alarm,
    AlarmDbOps.add_alarm, set_timestamp.
  simpl. rewrite E. simpl. rewrite E'. reflexivity.
Qed.

Lemma fresh_manager_consistent (db : AlarmDb.Db) (lag : nat -> nat) :
  Forall AlarmDb.row_ok (AlarmDb.alarms_table db) ->
  NoDup (map AlarmDb.row_id (AlarmDb.alarms_table db)) ->
  exists m,
    AlarmManagerOps.set_each (map Some (active_alarms_of db))
      (mkManager db [] 0 lag) = Returned m
    /\ alarmdb m = db
    /\ map get_id (alarm_threads m) = map id_ (active_alarms_of db)
    /\ (forall t, In t (alarm_threads m) -> isAlive t = true)
    /\ check_threads_state m = (Returned true, m).
Proof.
  intros Hok Hnd.
  pose proof (stored_ids_distinct _ Hnd) as Hids.
  assert (Hacts : NoDup (map id_ (active_alarms_of db)))
    by (unfold active_alarms_of; now apply NoDup_map_filter).
  assert (Hall : forall a, In a (active_alarms_of db) -> is_active a = true).
  { intros a Ha. unfold active_alarms_of in Ha.
    now apply List.filter_In in Ha. }
  assert (Hfree : forall t a, In t (alarm_threads (mkManager db [] 0 lag)) ->
                              In a (active_alarms_of db) -> id_ a <> get_id t)
    by (intros t a []).
  destruct (set_each_launches (active_alarms_of db) (mkManager db [] 0 lag)
              Hall Hacts Hfree) as (l' & Hset & Hl' & Halive).
  simpl in Hset.
  eexists. split; [exact Hset|]. simpl.
  split; [reflexivity|]. split; [exact Hl'|]. split; [exact Halive|].
  set (m := mkManager db l' (length (active_alarms_of db)) lag).
  assert (Hrun : forall a, In a (map AlarmDb.item_of (AlarmDb.alarms_table db)) ->
                           is_alarm_running (id_ a) m = is_active a).
  { intros a Ha. unfold is_alarm_running. simpl.
    destruct (is_active a) eqn:Hact.
    - apply running_alive; [exact Halive|].
      assert (Hin : In (id_ a) (map get_id l')).
      { rewrite Hl'. apply List.in_map. unfold active_alarms_of.
        apply List.filter_In. now split. }
      apply List.in_map_iff in Hin as (t & Ht & Hin). now exists t.
    - apply running_no_match. intros u Hu. apply id_eq_false. intros E.
      assert (Hin : In (get_id u) (map id_ (active_alarms_of db)))
        by (rewrite <- Hl'; now apply List.in_map).
      apply List.in_map_iff in Hin as (b & Hb & Hin).
      unfold active_alarms_of in Hin. apply List.filter_In in Hin as [Hin Hbact].
      assert (a = b).
      { apply (NoDup_map_inj id_ _ a b Hids Ha Hin). congruence. }
      subst b. congruence. }
  unfold check_threads_state. subst m. simpl alarmdb.
  rewrite get_all_alarms_ok by exact Hok.
  rewrite check_alarms_consistent by exact Hrun.
  simpl alarm_threads.
  assert (Hlen : Z.of_nat (length l')
                 = 0 + count_active (map AlarmDb.item_of (AlarmDb.alarms_table db))).
  { unfold count_active. fold (active_alarms_of db).
    rewrite <- (length_map id_ (active_alarms_of db)), <- Hl', length_map. lia. }
  rewrite Hlen, Z.eqb_refl. reflexivity.
Qed.

(** X24: a freshly initialised manager passes its own self test. On a
    well-formed table with one row per key, [__init__] (which first stores
    the two dummy alarms if the table is empty) returns a manager with one
    live thread per active stored alarm, in table order, and
    [check_threads_state] on it returns [True] and changes nothing. *)
Theorem init_is_consistent (now now' : N) (db : AlarmDb.Db) (lag : nat -> nat) :
  Forall AlarmDb.row_ok (AlarmDb.alarms_table db) ->
  NoDup (map AlarmDb.row_id (AlarmDb.alarms_table db)) ->
  exists m,
    AlarmManagerOps.init now now' db lag = Returned m
    /\ (AlarmDb.alarms_table db <> [] -> alarmdb m = db)
    /\ map get_id (alarm_threads m) = map id_ (active_alarms_of (alarmdb m))
    /\ (forall t, In t (alarm_threads m) -> isAlive t = true)
    /\ check_threads_state m = (Returned true, m).
Proof.
  intros Hok Hnd. unfold AlarmManagerOps.init.
  destruct db as [t offset]. simpl in Hok, Hnd |- *.
  unfold AlarmDbOps.get_number_of_alarms.
  destruct t as [|r t].
  - simpl Z.eqb. cbv iota. rewrite load_dummy_alarms_rows. simpl alarmdb.
    set (db := AlarmDb.mkDb _ offset).
    assert (Hok' : Forall AlarmDb.row_ok (AlarmDb.alarms_table db)).
    { subst db. simpl. pose proof (N2Z.is_nonneg now). pose proof (N2Z.is_nonneg now').
      repeat (constructor; [unfold AlarmDb.row_ok; simpl; lia|]). constructor. }
    assert (Hnd' : NoDup (map AlarmDb.row_id (AlarmDb.alarms_table db))).
    { subst db. simpl. apply NoDup_ListNoDup.
      repeat constructor; simpl; intuition discriminate. }
    rewrite active_alarms_returned by exact Hok'.
    destruct (fresh_manager_consistent db lag Hok' Hnd')
      as (m & Hset & Hdb & Hids & Halive & Hcheck).
    exists m. split; [exact Hset|]. split; [congruence|].
    rewrite Hdb. auto.
  - assert (E : (Z.of_nat (length (r :: t)) =? 0) = false)
      by (apply Z.eqb_neq; rewrite length_cons; lia).
    rewrite E.
    rewrite active_alarms_returned by exact Hok.
    destruct (fresh_manager_consistent (AlarmDb.mkDb (r :: t) offset) lag Hok Hnd)
      as (m & Hset & Hdb & Hids & Halive & Hcheck).
    exists m. split; [exact Hset|]. split; [auto|].
    rewrite Hdb. auto.
Qed.

Lemma init_is_consistent_witness :
  let db := AlarmDb.mkDb [sample_row 1 true; sample_row 2 false] (-15) in
  exists m,
    AlarmManagerOps.init 100 101 db (fun _ => O) = Returned m
    /\ (AlarmDb.alarms_table db <> [] -> alarmdb m = db)
    /\ map get_id (alarm_threads m) = map id_ (active_alarms_of (alarmdb m))
    /\ (forall t, In t (alarm_threads m) -> isAlive t = true)
    /\ check_threads_state m = (Returned true, m).
Proof.
  intros db. apply (init_is_consistent 100 101 db (fun _ => O)).
  - repeat (constructor; [unfold AlarmDb.row_ok; simpl; lia|]). constructor.
  - apply NoDup_ListNoDup. repeat constructor; simpl; intuition discriminate.
Defined.

(** ** The list stays free of repetitions under every operation *)

Lemma well_kept_with_db (db : AlarmDb.Db) (m : Manager) :
  well_kept m -> well_kept (with_db db m).
Proof. intros H. exact H. Qed.

Lemma add_alarm_well_kept (now : N) (h mi d e l ts s : pyval) (m : Manager) :
  well_kept m -> well_kept (snd (AlarmManagerOps.add_alarm now h mi d e l ts s m)).
Proof.
  intros Hwk. unfold AlarmManagerOps.add_alarm.
  destruct (AlarmItem_new h mi d e l ts PyNone s) as [[a|]| |]; try exact Hwk.
  destruct (AlarmDbOps.add_alarm now a (AlarmDb.alarms_table (alarmdb m)))
    as [[a' t] key].
  destruct (id_ (set_id (PyInt key) a')); cbn [snd]; [|exact Hwk].
  now apply set_alarm_thread_well_kept.
Qed.

Lemma edit_alarm_well_kept (now alarm_id : Z) (h mi d e l s : pyval)
    (m : Manager) :
  well_kept m ->
  well_kept (snd (AlarmManager.edit_alarm now alarm_id h mi d e l s m)).
Proof.
  intros Hwk. unfold AlarmManager.edit_alarm.
  destruct (AlarmDb.edit_alarm now alarm_id h mi d e l s
              (AlarmDb.alarms_table (alarmdb m))) as [t success].
  destruct success as [[|]| |]; try exact Hwk.
  destruct (AlarmDb.get_alarm alarm_id t) as [[a|]| |]; try exact Hwk.
  cbn [snd]. now apply set_alarm_thread_well_kept.
Qed.

Lemma delete_alarm_well_kept (alarm_id : Z) (m : Manager) :
  well_kept m -> well_kept (snd (AlarmManagerOps.delete_alarm alarm_id m)).
Proof.
  intros Hwk. unfold AlarmManagerOps.delete_alarm. cbn [snd].
  apply well_kept_with_db. now apply stop_alarm_thread_well_kept.
Qed.

Lemma kept_filter (p : Thread -> bool) (next : nat) (l : list Thread) :
  distinct_threads l /\ (forall t, In t l -> (th_ident t < next)%nat) ->
  distinct_threads (List.filter p l)
  /\ (forall t, In t (List.filter p l) -> (th_ident t < next)%nat).
Proof.
  intros [[Hident Hids] Hlt]. split; [split|].
  - now apply NoDup_map_filter.
  - now apply NoDup_map_filter.
  - intros t Ht. apply List.filter_In in Ht as [Ht _]. now apply Hlt.
Qed.

Lemma kept_map (f : Thread -> Thread) (next : nat) (l : list Thread) :
  (forall t, th_ident (f t) = th_ident t) ->
  (forall t, get_id (f t) = get_id t) ->
  distinct_threads l /\ (forall t, In t l -> (th_ident t < next)%nat) ->
  distinct_threads (map f l)
  /\ (forall t, In t (map f l) -> (th_ident t < next)%nat).
Proof.
  intros Hi Hg [[Hident Hids] Hlt]. split; [split|].
  - rewrite map_map. erewrite map_ext; [exact Hident|]. exact Hi.
  - rewrite map_map. erewrite map_ext; [exact Hids|]. exact Hg.
  - intros t Ht. apply List.in_map_iff in Ht as (u & <- & Hu).
    rewrite Hi. now apply Hlt.
Qed.

Lemma sleep_get_id (t : Thread) : get_id (sleep_10ms t) = get_id t.
Proof. unfold get_id. now rewrite sleep_alarm. Qed.

Lemma reap_until_kept (fuel : nat) (ct : bool) (ms : Z) (next : nat)
    (l : list Thread) :
  distinct_threads l /\ (forall t, In t l -> (th_ident t < next)%nat) ->
  distinct_threads (AlarmManagerOps.reap_until fuel ct ms l)
  /\ (forall t, In t (AlarmManagerOps.reap_until fuel ct ms l) ->
                (th_ident t < next)%nat).
Proof.
  revert ct ms l. induction fuel as [|fuel IH]; intros ct ms l H; [exact H|].
  cbn [AlarmManagerOps.reap_until].
  destruct (ct && (ms <? 15000)); [|exact H].
  rewrite reap_all. apply IH.
  apply kept_map; [apply sleep_ident | apply sleep_get_id|].
  now apply kept_filter.
Qed.

Lemma stop_all_well_kept (m : Manager) :
  well_kept m -> well_kept (snd (AlarmManagerOps.stop_all_alarm_threads m)).
Proof.
  intros Hwk. unfold AlarmManagerOps.stop_all_alarm_threads, well_kept.
  cbn [snd alarm_threads created with_threads].
  apply reap_until_kept. apply kept_map; [reflexivity | reflexivity | exact Hwk].
Qed.

Lemma delete_all_well_kept (m : Manager) :
  well_kept m -> well_kept (snd (AlarmManagerOps.delete_all_alarms m)).
Proof.
  intros Hwk. unfold AlarmManagerOps.delete_all_alarms.
  pose proof (stop_all_well_kept m Hwk) as H.
  destruct (AlarmManagerOps.stop_all_alarm_threads m) as [ts m1]. exact H.
Qed.

Lemma get_running_alarms_well_kept (m : Manager) :
  well_kept m -> well_kept (snd (AlarmManagerOps.get_running_alarms m)).
Proof.
  intros Hwk. unfold AlarmManagerOps.get_running_alarms.
  pose proof (check_threads_state_well_kept m Hwk) as H.
  destruct (check_threads_state m) as [[b| |] m1]; exact H.
Qed.

Lemma set_each_well_kept (alarms : list (option AlarmItem)) (m m' : Manager) :
  well_kept m -> AlarmManagerOps.set_each alarms m = Returned m' -> well_kept m'.
Proof.
  revert m. induction alarms as [|[a|] rest IH]; intros m Hwk; simpl.
  - now intros [= <-].
  - apply IH. now apply set_alarm_thread_well_kept.
  - discriminate.
Qed.

Lemma init_well_kept (now now' : N) (db : AlarmDb.Db) (lag : nat -> nat)
    (m : Manager) :
  AlarmManagerOps.init now now' db lag = Returned m -> well_kept m.
Proof.
  unfold AlarmManagerOps.init.
  assert (H0 : well_kept (mkManager db [] 0 lag)).
  { split; [split; constructor | intros t []]. }
  set (m0 := if _ =? 0 then _ else _).
  assert (Hm0 : well_kept m0).
  { subst m0. destruct (_ =? 0); [|exact H0].
    unfold AlarmManagerOps.load_dummy_alarms.
    now apply add_alarm_well_kept, add_alarm_well_kept. }
  destruct (AlarmManagerOps.get_all_active_alarms (alarmdb m0)); try discriminate.
  now apply set_each_well_kept.
Qed.

(** X25: every operation of the manager keeps its thread list in order.
    [__init__] builds, and [add_alarm], [edit_alarm], [delete_alarm],
    [delete_all_alarms], [check_threads_state] and [get_running_alarms]
    preserve, a list in which no thread object and no alarm id occurs twice
    and every thread is older than the next one to be created, for all
    arguments and however the threads react to [stop]. *)
Theorem manager_operations_keep_list (m : Manager) :
  well_kept m ->
  (forall now h mi d e l ts s,
     well_kept (snd (AlarmManagerOps.add_alarm now h mi d e l ts s m)))
  /\ (forall now alarm_id h mi d e l s,
        well_kept (snd (AlarmManager.edit_alarm now alarm_id h mi d e l s m)))
  /\ (forall alarm_id, well_kept (snd (AlarmManagerOps.delete_alarm alarm_id m)))
  /\ well_kept (snd (AlarmManagerOps.delete_all_alarms m))
  /\ well_kept (snd (check_threads_state m))
  /\ well_kept (snd (AlarmManagerOps.get_running_alarms m))
  /\ (forall now now' lag m0,
        AlarmManagerOps.init now now' (alarmdb m) lag = Returned m0 ->
        well_kept m0).
Proof.
  intros Hwk.
  split; [intros; now apply add_alarm_well_kept|].
  split; [intros; now apply edit_alarm_well_kept|].
  split; [intros; now apply delete_alarm_well_kept|].
  split; [now apply delete_all_well_kept|].
  split; [now apply check_threads_state_well_kept|].
  split; [now apply get_running_alarms_well_kept|].
  intros now now' lag m0. apply init_well_kept.
Qed.

Lemma manager_operations_keep_list_witness :
  well_kept
    (snd (check_threads_state
            (sample_manager [sample_row 1 true] [sample_thread 0 2 true 0]))).
Proof.
  apply (manager_operations_keep_list
           (sample_manager [sample_row 1 true] [sample_thread 0 2 true 0])).
  split; [split; apply NoDup_ListNoDup; repeat constructor; simpl; tauto|].
  intros t [<- | []]. simpl. lia.
Defined.

(** ** The running alarms *)

Lemma check_repairs (m : Manager) :
  repairable m ->
  exists pc m1,
    check_threads_state m = (Returned pc, m1)
    /\ alarmdb m1 = alarmdb m
    /\ check_invariant (stored_alarms m) [] m1.
Proof.
  intros (Hrows & Hkeys & Hdist & Hthreads).
  pose proof (stored_ids_distinct _ Hkeys) as Hnd.
  assert (Hinit : check_invariant [] (stored_alarms m) m).
  { split; [exact Hdist|]. split; [|intros a []].
    intros t Ht. destruct (Hthreads t Ht) as (Hlt & Hrun & a & Hin & Hid & Hinact).
    split; [exact Hlt|]. split; [exact Hrun|]. exists a. simpl. tauto. }
  destruct (check_alarms_invariant (stored_alarms m) [] m true 0 Hnd Hinit)
    as (pc & m1 & Hloop & Hfin & Hdb).
  simpl in Hfin. destruct (invariant_end _ _ Hnd Hfin) as [Hcons Hlen].
  exists pc, m1. split; [|split; [exact Hdb | exact Hfin]].
  unfold check_threads_state. rewrite (get_all_alarms_ok _ Hrows).
  fold (stored_alarms m). rewrite Hloop. simpl.
  now rewrite Hlen, Z.eqb_refl.
Qed.

Lemma find_one_unique (t : list AlarmDb.Row) (r : AlarmDb.Row) :
  NoDup (map AlarmDb.row_id t) -> In r t ->
  AlarmDb.find_one (AlarmDb.row_id r) t = Some r.
Proof.
  unfold AlarmDb.find_one. induction t as [|x t IH]; intros Hnd Hin; [destruct Hin|].
  simpl in Hnd. apply NoDup_cons in Hnd as [Hx Hnd]. simpl.
  unfold AlarmDb.has_id at 1.
  destruct (Z.eqb_spec (AlarmDb.row_id x) (AlarmDb.row_id r)) as [E | E].
  - destruct Hin as [-> | Hin]; [reflexivity|].
    exfalso. apply Hx. rewrite E. apply list_elem_of_In. now apply List.in_map.
  - destruct Hin as [-> | Hin]; [congruence | now apply IH].
Qed.

Lemma alarms_of_threads_items (t : list AlarmDb.Row) (l : list Thread) :
  Forall AlarmDb.row_ok t -> NoDup (map AlarmDb.row_id t) ->
  (forall u, In u l ->
     exists a, In a (map AlarmDb.item_of t) /\ id_ a = get_id u) ->
  exists items,
    AlarmManagerOps.alarms_of_threads t l = Returned (map Some items)
    /\ map id_ items = map get_id l
    /\ forall a, In a items -> In a (map AlarmDb.item_of t).
Proof.
  intros Hok Hnd. induction l as [|u l IH]; intros Hrec.
  - exists []. repeat split. intros a [].
  - destruct IH as (items & Hitems & Hids & Hin).
    { intros x Hx. apply Hrec. now right. }
    destruct (Hrec u (or_introl eq_refl)) as (a & Ha & Hid).
    apply List.in_map_iff in Ha as (r & <- & Hr).
    exists (AlarmDb.item_of r :: items). simpl.
    rewrite <- Hid. simpl. unfold AlarmDb.get_alarm.
    rewrite find_one_unique by assumption.
    rewrite List.Forall_forall in Hok.
    rewrite item_of_row_ok by now apply Hok.
    rewrite Hitems. split; [reflexivity|]. split; [now rewrite Hids|].
    intros a [<- | Ha]; [now apply List.in_map | now apply Hin].
Qed.

Lemma running_alarms_of_repairable (m : Manager) :
  repairable m ->
  exists items,
    fst (AlarmManagerOps.get_running_alarms m) = Returned (map Some items)
    /\ forall a, In a items <-> In a (stored_alarms m) /\ is_active a = true.
Proof.
  intros Hrep.
  destruct (check_repairs m Hrep) as (pc & m1 & Hcheck & Hdb & Hinv).
  destruct Hrep as (Hrows & Hkeys & _ & _).
  pose proof (stored_ids_distinct _ Hkeys) as Hnd.
  destruct (invariant_end _ _ Hnd Hinv) as [Hcons _].
  destruct Hinv as (_ & Hok & _).
  assert (Hrecord : forall u, In u (alarm_threads m1) ->
            exists a, In a (stored_alarms m) /\ id_ a = get_id u
                      /\ is_active a = true).
  { intros u Hu. destruct (Hok u Hu) as (_ & _ & a & Hin & Hid & Hinact).
    rewrite app_nil_r in Hin. exists a. split; [exact Hin|]. split; [exact Hid|].
    destruct (is_active a); [reflexivity|]. now destruct Hinact. }
  destruct (alarms_of_threads_items (AlarmDb.alarms_table (alarmdb m))
              (alarm_threads m1) Hrows Hkeys) as (items & Hitems & Hids & Hin).
  { intros u Hu. destruct (Hrecord u Hu) as (a & Ha & Hid & _). now exists a. }
  exists items. split.
  - unfold AlarmManagerOps.get_running_alarms. rewrite Hcheck, Hdb. exact Hitems.
  - intros a. split.
    + intros Ha. split; [now apply Hin|].
      assert (Hidin : In (id_ a) (map get_id (alarm_threads m1)))
        by (rewrite <- Hids; now apply List.in_map).
      apply List.in_map_iff in Hidin as (u & Hu & Huin).
      destruct (Hrecord u Huin) as (b & Hb & Hbid & Hbact).
      assert (b = a).
      { apply (NoDup_map_inj id_ (stored_alarms m) b a Hnd Hb (Hin a Ha)).
        congruence. }
      now subst b.
    + intros [Ha Hact].
      pose proof (Hcons a Ha) as Hrun. rewrite Hact in Hrun.
      unfold is_alarm_running in Hrun.
      destruct (running_true_split _ _ Hrun) as (l1 & u & l2 & El & Hid & _).
      apply id_eq_true in Hid.
      assert (Hidin : In (id_ a) (map id_ items)).
      { rewrite Hids, El, Hid. apply List.in_map, in_or_app. right. now left. }
      apply List.in_map_iff in Hidin as (b & Hb & Hbin).
      assert (b = a).
      { apply (NoDup_map_inj id_ (stored_alarms m) b a Hnd (Hin b Hbin) Ha).
        exact Hb. }
      now subst b.
Qed.

(** X26: [get_running_alarms] returns the active alarms. From a state the
    self test can repair (as in C4) it returns one entry per thread left
    after the test, none of them [None], and the alarms returned are exactly
    the stored alarms that are active. *)
Theorem get_running_alarms_are_active (m : Manager) :
  repairable m ->
  exists items,
    fst (AlarmManagerOps.get_running_alarms m) = Returned (map Some items)
    /\ forall a, In a items <-> In a (stored_alarms m) /\ is_active a = true.
Proof. apply running_alarms_of_repairable. Qed.

Lemma get_running_alarms_are_active_witness :
  let m := sample_manager
             [sample_row 1 true; sample_row 2 false; sample_row 3 true]
             [sample_thread 0 2 true 0; sample_thread 1 3 false 0] in
  exists items,
    fst (AlarmManagerOps.get_running_alarms m) = Returned (map Some items)
    /\ forall a, In a items <-> In a (stored_alarms m) /\ is_active a = true.
Proof.
  intros m. apply (get_running_alarms_are_active m).
  split; [|split; [|split]].
  - repeat (constructor; [unfold AlarmDb.row_ok; simpl; lia|]). constructor.
  - apply NoDup_ListNoDup. repeat constructor; simpl; intuition discriminate.
  - split; apply NoDup_ListNoDup; repeat constructor; simpl;
      intuition discriminate.
  - intros t [<- | [<- | []]]; simpl.
    + split; [lia|]. split; [reflexivity|].
      exists (AlarmDb.item_of (sample_row 2 false)).
      split; [right; left; reflexivity|]. split; [reflexivity|].
      intros _. split; [reflexivity|]. rewrite stop_polls_value. lia.
    + split; [lia|]. split; [reflexivity|].
      exists (AlarmDb.item_of (sample_row 3 true)).
      split; [right; right; left; reflexivity|]. split; [reflexivity|].
      intros H. discriminate H.
Defined.
